(** * Selective project backup tool: a shallow embedding and its properties

    The program is a Python/tkinter desktop utility (one source file).  The
    engine of interest is modelled here:

    - the folder exclusion rules ([is_excluded], [add_item],
      [remove_selected], [update_lower_sets]);
    - the destination resolver ([get_actual_dest_dir]);
    - the plan builder ([_start_file_calculation] and its worker
      [calculation_thread], which drives [os.walk]);
    - the copy executor ([copy_thread]);
    - the configuration loader ([load_config]).

    A Python [str] is modelled by the [string] of its UTF-8 bytes: the
    separator, the dot and every other ASCII character are one byte each,
    and a [str] starts with another exactly when its bytes do.  The
    methods [str.lower] and [str.strip] follow the Unicode character
    database, which is no part of the program: they are parameters of the
    development ([Py.str_methods]), known to be idempotent (for [lower])
    and to act on ASCII strings as the functions written out here.  The
    [os.path] functions are those of [posixpath].  The calls that write to
    the disk, [os.makedirs] and [shutil.copy2], are parameters as well
    ([file_system]), known to remove no path; a simulated disk gives the
    examples.  The order in which a Python set is listed is a parameter
    of the environment.  Python sets of strings
    are [gset string]; Python lists are [list].  Widgets are left out: a
    message box is modelled by the error it reports, and a callback handed
    to [root.after] by an event in the trace of the worker. *)

From Stdlib Require Import ZArith Lia List Ascii String Sorted.
From stdpp Require Import base gmap sets list strings.

Local Open Scope string_scope.
Local Open Scope list_scope.

(* ================================================================== *)
(** * Part I: definitions *)
(* ================================================================== *)

(** ** Python built-ins on [str] *)

Module Py.

(** [c.lower()] on one character: [A]..[Z] go to [a]..[z]. *)
Definition lower_char (c : ascii) : ascii :=
  let n := nat_of_ascii c in
  if (65 <=? n)%nat && (n <=? 90)%nat then ascii_of_nat (n + 32) else c.

(** [s.lower()] on an ASCII string. *)
Fixpoint ascii_lower (s : string) : string :=
  match s with
  | EmptyString => EmptyString
  | String c s' => String (lower_char c) (ascii_lower s')
  end.

(** [s.startswith(p)] *)
Definition startswith (s p : string) : bool := String.prefix p s.

(** [s.endswith(p)] for a one-character [p]. *)
Fixpoint endswith_char (s : string) (c : ascii) : bool :=
  match s with
  | EmptyString => false
  | String a EmptyString => Ascii.eqb a c
  | String _ s' => endswith_char s' c
  end.

(** [s.split(sep)] for a one-character separator: never empty,
    [''.split('/') == ['']]. *)
Fixpoint split (sep : ascii) (s : string) : list string :=
  match s with
  | EmptyString => [EmptyString]
  | String c s' =>
      if Ascii.eqb c sep then EmptyString :: split sep s'
      else match split sep s' with
           | w :: ws => String c w :: ws
           | [] => [String c EmptyString]
           end
  end.

(** [sep.join(xs)] *)
Fixpoint join (sep : string) (xs : list string) : string :=
  match xs with
  | [] => EmptyString
  | [x] => x
  | x :: xs' => x +:+ sep +:+ join sep xs'
  end.

(** [c in s] for a one-character [c]. *)
Fixpoint contains_char (c : ascii) (s : string) : bool :=
  match s with
  | EmptyString => false
  | String a s' => Ascii.eqb a c || contains_char c s'
  end.

(** [s.rfind(c)] for a one-character [c]: the highest index, or [-1]. *)
Fixpoint rfind_from (c : ascii) (s : string) (i last : Z) : Z :=
  match s with
  | EmptyString => last
  | String a s' => rfind_from c s' (i + 1)%Z (if Ascii.eqb a c then i else last)
  end.

Definition rfind (s : string) (c : ascii) : Z := rfind_from c s 0%Z (-1)%Z.

(** Slices [s[i:]] and [s[:i]] for [0 <= i]. *)
Fixpoint drop_nat (n : nat) (s : string) : string :=
  match n, s with
  | O, _ => s
  | S _, EmptyString => EmptyString
  | S n', String _ s' => drop_nat n' s'
  end.

Fixpoint take_nat (n : nat) (s : string) : string :=
  match n, s with
  | O, _ => EmptyString
  | S _, EmptyString => EmptyString
  | S n', String c s' => String c (take_nat n' s')
  end.

Definition slice_from (s : string) (i : Z) : string := drop_nat (Z.to_nat i) s.
Definition slice_to (s : string) (i : Z) : string := take_nat (Z.to_nat i) s.

(** [s[i:i+1]]: the character at [i] as a string, empty out of range. *)
Definition slice_one (s : string) (i : Z) : string :=
  take_nat 1 (drop_nat (Z.to_nat i) s).

(** [s == c * len(s)]: every character of [s] is [c]. *)
Fixpoint all_char (c : ascii) (s : string) : bool :=
  match s with
  | EmptyString => true
  | String a s' => Ascii.eqb a c && all_char c s'
  end.

(** [s.rstrip(c)] for a one-character [c]. *)
Fixpoint rstrip_char (c : ascii) (s : string) : string :=
  match s with
  | EmptyString => EmptyString
  | String a s' =>
      match rstrip_char c s' with
      | EmptyString => if Ascii.eqb a c then EmptyString else String a EmptyString
      | r => String a r
      end
  end.

(** White space as [str.strip()] sees it, within ASCII: TAB, LF, VT, FF,
    CR, the separators FS, GS, RS, US and the space. *)
Definition ascii_isspace (c : ascii) : bool :=
  let n := nat_of_ascii c in
  ((9 <=? n)%nat && (n <=? 13)%nat) || ((28 <=? n)%nat && (n <=? 32)%nat).

Fixpoint ascii_lstrip (s : string) : string :=
  match s with
  | EmptyString => EmptyString
  | String a s' => if ascii_isspace a then ascii_lstrip s' else s
  end.

Fixpoint ascii_rstrip (s : string) : string :=
  match s with
  | EmptyString => EmptyString
  | String a s' =>
      match ascii_rstrip s' with
      | EmptyString => if ascii_isspace a then EmptyString else String a EmptyString
      | r => String a r
      end
  end.

(** [s.strip()] on an ASCII string. *)
Definition ascii_strip (s : string) : string := ascii_rstrip (ascii_lstrip s).

(** [s.isascii()]: every byte is below 128. *)
Fixpoint isascii (s : string) : bool :=
  match s with
  | EmptyString => true
  | String c s' => (nat_of_ascii c <? 128)%nat && isascii s'
  end.

(** The methods of [str] that read the Unicode character database:
    [s.lower()] and [s.strip()].  They are parameters; what is known of
    them is that lower-casing twice is lower-casing once, and that on an
    ASCII string they are the two functions above. *)
Class str_methods : Type := {
  lower : string -> string;
  strip : string -> string;
  lower_lower : forall s, lower (lower s) = lower s;
  lower_isascii : forall s, isascii s = true -> lower s = ascii_lower s;
  strip_isascii : forall s, isascii s = true -> strip s = ascii_strip s
}.

(** [str(n)] for a digit, and zero-padded decimal fields as [strftime]
    prints them. *)
Definition digit (n : nat) : ascii := ascii_of_nat (48 + n mod 10).

Definition pad2 (n : nat) : string :=
  String (digit (n / 10)) (String (digit n) EmptyString).

Definition pad4 (n : nat) : string :=
  String (digit (n / 1000)) (String (digit (n / 100)) (pad2 n)).

(** Lexicographic order of Python, on strings and on lists of strings
    ([min] and [max] of lists use it). *)
Fixpoint str_leb (a b : string) : bool :=
  match a, b with
  | EmptyString, _ => true
  | String _ _, EmptyString => false
  | String x a', String y b' =>
      if Ascii.eqb x y then str_leb a' b'
      else (nat_of_ascii x <? nat_of_ascii y)%nat
  end.

Fixpoint list_leb (a b : list string) : bool :=
  match a, b with
  | [], _ => true
  | _ :: _, [] => false
  | x :: a', y :: b' =>
      if String.eqb x y then list_leb a' b' else str_leb x y
  end.

End Py.

(** ** Names that differ in the case of their letters only *)

(** The letters of ASCII, each capital with its small form. *)
Definition ascii_letters : list (ascii * ascii) :=
  combine (list_ascii_of_string "ABCDEFGHIJKLMNOPQRSTUVWXYZ")
          (list_ascii_of_string "abcdefghijklmnopqrstuvwxyz").

(** Two bytes are the same byte, or the capital and the small form of one
    letter. *)
Definition same_letter (c d : ascii) : bool :=
  Ascii.eqb c d
  || existsb (fun ul => (Ascii.eqb c (fst ul) && Ascii.eqb d (snd ul))
                        || (Ascii.eqb c (snd ul) && Ascii.eqb d (fst ul)))
             ascii_letters.

(** Two strings are equal up to the case of their letters. *)
Fixpoint caseless_eqb (a b : string) : bool :=
  match a, b with
  | EmptyString, EmptyString => true
  | String c a', String d b' => same_letter c d && caseless_eqb a' b'
  | _, _ => false
  end.


(** The 256 bytes. *)
Definition all_bytes : list ascii := map ascii_of_nat (seq 0 256).

(** ** Exceptions and results *)

(** The Python exceptions the modelled code can meet. *)
Inductive exn : Type :=
| ValueError
| AttributeError
| PermissionError (path : string)
| FileNotFoundError (path : string)
| FileExistsError (path : string)
| NotADirectoryError (path : string)
| IsADirectoryError (path : string)
| SameFileError (src dst : string).

(** The outcome of a call that may raise. *)
Inductive result (A : Type) : Type :=
| Ok (a : A)
| Raise (e : exn).

Arguments Ok {A} a.
Arguments Raise {A} e.

(** ** [os.path] (the [posixpath] module) *)

Module posixpath.

Definition sep : ascii := "/"%char.
Definition extsep : ascii := "."%char.

(** [isabs(s)] *)
Definition isabs (s : string) : bool := Py.startswith s "/".

(** [join(a, b)] *)
Definition join (a b : string) : string :=
  if Py.startswith b "/" then b
  else if String.eqb a "" || Py.endswith_char a sep then a +:+ b
  else a +:+ "/" +:+ b.

(** [join(a, *p)]: the loop over the later arguments. *)
Definition join_all (a : string) (p : list string) : string :=
  fold_left join p a.

(** [basename(p)] *)
Definition basename (p : string) : string :=
  let i := (Py.rfind p sep + 1)%Z in
  Py.slice_from p i.

(** [dirname(p)] *)
Definition dirname (p : string) : string :=
  let i := (Py.rfind p sep + 1)%Z in
  let head := Py.slice_to p i in
  if negb (String.eqb head "") && negb (Py.all_char sep head)
  then Py.rstrip_char sep head
  else head.

(** The [while filenameIndex < dotIndex] loop of [_splitext]: is there a
    character other than the dot in [p[filenameIndex:dotIndex]]?
    [steps] is [dotIndex - filenameIndex]. *)
Fixpoint has_non_dot (p : string) (filenameIndex : Z) (steps : nat) : bool :=
  match steps with
  | O => false
  | S k =>
      if negb (String.eqb (Py.slice_one p filenameIndex) ".") then true
      else has_non_dot p (filenameIndex + 1)%Z k
  end.

(** [splitext(p)] *)
Definition splitext (p : string) : string * string :=
  let sepIndex := Py.rfind p sep in
  let dotIndex := Py.rfind p extsep in
  if (sepIndex <? dotIndex)%Z then
    let filenameIndex := (sepIndex + 1)%Z in
    if has_non_dot p filenameIndex (Z.to_nat (dotIndex - filenameIndex))
    then (Py.slice_to p dotIndex, Py.slice_from p dotIndex)
    else (p, "")
  else (p, "").

(** [min(xs)] and [max(xs)] on lists of component lists: the first
    least, respectively greatest, element. *)
Definition list_min (x : list string) (xs : list (list string)) : list string :=
  fold_left (fun m y => if Py.list_leb m y then m else y) xs x.

Definition list_max (x : list string) (xs : list (list string)) : list string :=
  fold_left (fun m y => if Py.list_leb y m then m else y) xs x.

(** The loop of [commonpath] that cuts [s1] at the first index where it
    differs from [s2].  [s1 <= s2] there, so [s2[i]] is in range as long
    as the two agree; the branch for an exhausted [s2] is not taken. *)
Fixpoint common_loop (s1 s2 : list string) : list string :=
  match s1, s2 with
  | [], _ => []
  | _ :: _, [] => []
  | c :: s1', d :: s2' => if String.eqb c d then c :: common_loop s1' s2' else []
  end.

Definition keep_component (c : string) : bool :=
  negb (String.eqb c "") && negb (String.eqb c ".").

(** The components [commonpath] compares: [path.split(sep)] without the
    empty ones and the dots. *)
Definition components (p : string) : list string :=
  filter (fun c => keep_component c = true) (Py.split sep p).

(** [commonpath(paths)]; it raises [ValueError] on an empty sequence and
    when absolute and relative paths are mixed. *)
Definition commonpath (paths : list string) : result string :=
  match paths with
  | [] => Raise ValueError
  | p0 :: ps =>
      let abs0 := String.eqb (Py.slice_to p0 1) "/" in
      if forallb (fun p => Bool.eqb (String.eqb (Py.slice_to p 1) "/") abs0) ps then
        let s1 := list_min (components p0) (map components ps) in
        let s2 := list_max (components p0) (map components ps) in
        let common := common_loop s1 s2 in
        Ok ((if abs0 then "/" else "") +:+ Py.join "/" common)
      else Raise ValueError
  end.

(** The loop of [normpath] over the components. *)
Fixpoint normpath_loop (initial_slashes : nat) (comps new_comps : list string)
  : list string :=
  match comps with
  | [] => new_comps
  | comp :: rest =>
      if String.eqb comp "" || String.eqb comp "." then
        normpath_loop initial_slashes rest new_comps
      else if negb (String.eqb comp "..")
              || (Nat.eqb initial_slashes 0 && Nat.eqb (length new_comps) 0)
              || match last new_comps with
                 | Some l => String.eqb l ".."
                 | None => false
                 end
      then normpath_loop initial_slashes rest (new_comps ++ [comp])
      else normpath_loop initial_slashes rest (removelast new_comps)
  end.

(** [normpath(path)] *)
Definition normpath (path : string) : string :=
  if String.eqb path "" then "."
  else
    let initial_slashes :=
      if Py.startswith path "/" then
        if Py.startswith path "//" && negb (Py.startswith path "///") then 2 else 1
      else 0 in
    let comps := normpath_loop initial_slashes (Py.split sep path) [] in
    let path' := Py.join "/" comps in
    let path'' :=
      match initial_slashes with
      | 0 => path'
      | 1 => "/" +:+ path'
      | _ => "//" +:+ path'
      end in
    if String.eqb path'' "" then "." else path''.

(** [abspath(path)], in the working directory [cwd]. *)
Definition abspath (cwd path : string) : string :=
  if isabs path then normpath path else normpath (join cwd path).

(** [commonprefix([a, b])] on two lists: their longest common prefix. *)
Fixpoint commonprefix (a b : list string) : list string :=
  match a, b with
  | x :: a', y :: b' => if String.eqb x y then x :: commonprefix a' b' else []
  | _, _ => []
  end.

Definition non_empty (x : string) : bool := negb (String.eqb x "").

(** [relpath(path, start)] for a non-empty [path]. *)
Definition relpath_str (cwd path start : string) : string :=
  let start_list := filter (fun x => non_empty x = true) (Py.split sep (abspath cwd start)) in
  let path_list := filter (fun x => non_empty x = true) (Py.split sep (abspath cwd path)) in
  let i := length (commonprefix start_list path_list) in
  let rel_list := repeat ".." (length start_list - i) ++ drop i path_list in
  match rel_list with
  | [] => "."
  | r :: rs => join_all r rs
  end.

(** [relpath(path, start)]; it raises [ValueError] on an empty [path]. *)
Definition relpath (cwd path start : string) : result string :=
  if String.eqb path "" then Raise ValueError
  else Ok (relpath_str cwd path start).

End posixpath.

(** ** [datetime] *)

Record datetime : Type := {
year : nat; month : nat; day : nat;
hour : nat; minute : nat; second : nat
}.

(** [now.strftime("%Y%m%d_%H%M%S")] *)
Definition strftime_stamp (now : datetime) : string :=
Py.pad4 (year now) +:+ Py.pad2 (month now) +:+ Py.pad2 (day now) +:+ "_"
+:+ Py.pad2 (hour now) +:+ Py.pad2 (minute now) +:+ Py.pad2 (second now).




(** ** The file system calls of the copy executor *)

(** [os.makedirs] and [shutil.copy2] are library calls; they and the state
    of the disk they act on are parameters.  A call returns the disk it
    leaves, also when it raises.  [lexists] is [os.path.lexists].  What is
    taken of the two calls: neither removes a path, and after a copy that
    returned the destination path is there. *)
Class file_system : Type := {
  disk : Type;
  makedirs : disk -> string -> disk * result unit;
  copy2 : disk -> string -> string -> disk * result unit;
  lexists : disk -> string -> bool;
  makedirs_keeps : forall d path p,
    lexists d p = true -> lexists (makedirs d path).1 p = true;
  copy2_keeps : forall d src dst p,
    lexists d p = true -> lexists (copy2 d src dst).1 p = true;
  copy2_creates : forall d src dst,
    (copy2 d src dst).2 = Ok tt -> lexists (copy2 d src dst).1 dst = true
}.

(** ** The exclusion rules *)

Section with_library.
Context {U : Py.str_methods} {FS : file_system}.

(** [DEFAULT_EXCLUDED_FOLDERS_EXACT] and [DEFAULT_EXCLUDED_FOLDERS_PREFIX] *)
Definition DEFAULT_EXCLUDED_FOLDERS_EXACT : gset string :=
  {[ ".git"; "node_modules" ]}.
Definition DEFAULT_EXCLUDED_FOLDERS_PREFIX : gset string :=
  {[ "firebase-export-" ]}.

(** The four globals that hold the rules: the two lists the editor shows,
    in their original casing, and the two lower-cased sets [is_excluded]
    reads. *)
Record rules : Type := {
  excluded_exact_list : list string;
  excluded_prefix_list : list string;
  EXCLUDED_FOLDERS_EXACT_LOWER : gset string;
  EXCLUDED_FOLDERS_PREFIX_LOWER : gset string
}.

(** [is_excluded(folder_name)] *)
Definition is_excluded (g : rules) (folder_name : string) : bool :=
  let lower_name := Py.lower folder_name in
  if bool_decide (lower_name ∈ EXCLUDED_FOLDERS_EXACT_LOWER g) then true
  else existsb (fun prefix => Py.startswith lower_name prefix)
               (elements (EXCLUDED_FOLDERS_PREFIX_LOWER g)).

(** The set comprehension [{f.lower() for f in xs}]. *)
Definition lower_set (xs : list string) : gset string :=
  list_to_set (map Py.lower xs).

(** [update_lower_sets()] *)
Definition update_lower_sets (g : rules) : rules :=
  {| excluded_exact_list := excluded_exact_list g;
     excluded_prefix_list := excluded_prefix_list g;
     EXCLUDED_FOLDERS_EXACT_LOWER := lower_set (excluded_exact_list g);
     EXCLUDED_FOLDERS_PREFIX_LOWER := lower_set (excluded_prefix_list g) |}.

(** The lower-cased sets are the lower-cased image of the stored lists. *)
Definition rules_in_sync (g : rules) : Prop :=
  EXCLUDED_FOLDERS_EXACT_LOWER g = lower_set (excluded_exact_list g)
  /\ EXCLUDED_FOLDERS_PREFIX_LOWER g = lower_set (excluded_prefix_list g).

(** ** The rule editor *)

(** Which pair (list box, target list) a button of the editor works on. *)
Inductive rule_kind : Type := Exact | Prefix.

(** The editor: the rule globals and the contents of its two list boxes. *)
Record editor : Type := {
  ed_rules : rules;
  exact_listbox : list string;
  prefix_listbox : list string
}.

Definition target_list (k : rule_kind) (g : rules) : list string :=
  match k with
  | Exact => excluded_exact_list g
  | Prefix => excluded_prefix_list g
  end.

Definition set_target_list (k : rule_kind) (l : list string) (g : rules) : rules :=
  match k with
  | Exact =>
      {| excluded_exact_list := l;
         excluded_prefix_list := excluded_prefix_list g;
         EXCLUDED_FOLDERS_EXACT_LOWER := EXCLUDED_FOLDERS_EXACT_LOWER g;
         EXCLUDED_FOLDERS_PREFIX_LOWER := EXCLUDED_FOLDERS_PREFIX_LOWER g |}
  | Prefix =>
      {| excluded_exact_list := excluded_exact_list g;
         excluded_prefix_list := l;
         EXCLUDED_FOLDERS_EXACT_LOWER := EXCLUDED_FOLDERS_EXACT_LOWER g;
         EXCLUDED_FOLDERS_PREFIX_LOWER := EXCLUDED_FOLDERS_PREFIX_LOWER g |}
  end.

Definition listbox_widget (k : rule_kind) (ed : editor) : list string :=
  match k with
  | Exact => exact_listbox ed
  | Prefix => prefix_listbox ed
  end.

Definition set_listbox (k : rule_kind) (l : list string) (ed : editor) : editor :=
  match k with
  | Exact =>
      {| ed_rules := ed_rules ed; exact_listbox := l;
         prefix_listbox := prefix_listbox ed |}
  | Prefix =>
      {| ed_rules := ed_rules ed; exact_listbox := exact_listbox ed;
         prefix_listbox := l |}
  end.

Definition set_rules (g : rules) (ed : editor) : editor :=
  {| ed_rules := g; exact_listbox := exact_listbox ed;
     prefix_listbox := prefix_listbox ed |}.

(** What [add_item] tells the user. *)
Inductive add_outcome : Type :=
| Added
| WarnAlreadyPresent
| WarnNothingEntered.

(** [add_item(entry_widget, listbox_widget, target_list)]; [entry_text] is
    what [entry_widget.get()] returns. *)
Definition add_item (entry_text : string) (k : rule_kind) (ed : editor)
  : editor * add_outcome :=
  let item := Py.strip entry_text in
  if negb (String.eqb item "") && negb (bool_decide (item ∈ target_list k (ed_rules ed)))
  then
    let g1 := set_target_list k (target_list k (ed_rules ed) ++ [item]) (ed_rules ed) in
    let ed1 := set_listbox k (listbox_widget k ed ++ [item]) ed in
    (set_rules (update_lower_sets g1) ed1, Added)
  else if bool_decide (item ∈ target_list k (ed_rules ed))
  then (ed, WarnAlreadyPresent)
  else (ed, WarnNothingEntered).

(** [target_list.remove(item)]: the first occurrence goes. *)
Fixpoint list_remove (item : string) (l : list string) : list string :=
  match l with
  | [] => []
  | x :: l' => if String.eqb x item then l' else x :: list_remove item l'
  end.

(** One turn of the loop of [remove_selected], for the index [i]. *)
Definition remove_one (k : rule_kind) (ed : editor) (i : nat) : editor :=
  let item_to_remove := nth i (listbox_widget k ed) "" in
  let ed1 := set_listbox k (delete i (listbox_widget k ed)) ed in
  if bool_decide (item_to_remove ∈ target_list k (ed_rules ed1))
  then set_rules (set_target_list k (list_remove item_to_remove
                                       (target_list k (ed_rules ed1)))
                                  (ed_rules ed1)) ed1
  else ed1.

(** [remove_selected(listbox_widget, target_list)]; [selected_indices] is
    what [listbox_widget.curselection()] returns.  The result says whether
    the warning for an empty selection was shown. *)
Definition remove_selected (selected_indices : list nat) (k : rule_kind)
  (ed : editor) : editor * bool :=
  match selected_indices with
  | [] => (ed, true)
  | _ =>
      let ed1 := fold_left (remove_one k) (rev selected_indices) ed in
      (set_rules (update_lower_sets (ed_rules ed1)) ed1, false)
  end.

(** ** The destination resolver *)

(** The tk variables of the main window. *)
Record vars : Type := {
  source_dir_var : string;
  dest_dir_var : string;
  append_timestamp_var : bool
}.

(** [get_actual_dest_dir()], at the time [now]; [None] when the base path
    is not set. *)
Definition get_actual_dest_dir (v : vars) (now : datetime) : option string :=
  let base_dest_dir := dest_dir_var v in
  if String.eqb base_dest_dir "" then None
  else if append_timestamp_var v then
    let timestamp := strftime_stamp now in
    let '(base_name, ext) := posixpath.splitext (posixpath.basename base_dest_dir) in
    let dir_name := posixpath.dirname base_dest_dir in
    let new_name :=
      if negb (String.eqb ext "") then base_name +:+ "_" +:+ timestamp +:+ ext
      else base_name +:+ "_" +:+ timestamp in
    Some (posixpath.join dir_name new_name)
  else Some base_dest_dir.

(** ** The source tree and [os.walk] *)

(** A directory as [os.walk] reads it: the names of its entries that are
    not directories, and its subdirectories by name. *)
#[local] Unset Elimination Schemes.
Inductive tree : Type :=
| Dir (files : list string) (subdirs : list (string * tree)).
#[local] Set Elimination Schemes.

Definition tree_file_names (t : tree) : list string :=
  match t with Dir files _ => files end.

Definition tree_subdirs (t : tree) : list (string * tree) :=
  match t with Dir _ subdirs => subdirs end.

(** The first binding of a name in an association list. *)
Fixpoint assoc {A : Type} (name : string) (l : list (string * A)) : option A :=
  match l with
  | [] => None
  | (n, a) :: l' => if String.eqb n name then Some a else assoc name l'
  end.

Section os_walk.

Context {S : Type}.

(** The body of the [for dirpath, dirs, files in os.walk(...)] loop.  It
    receives the list [dirs] the generator goes on to read, and may have
    changed it in place: it returns the list as it leaves it, with the new
    state of the loop. *)
Variable body : string -> list string -> list string -> S -> list string * S.

(** [os.walk(top, topdown=True)] driving [body]: the triple of [top] is
    handed to the body first, then the walk descends into the names the
    body has left in [dirs], in that order, under [join(top, name)].  A
    name that is no subdirectory yields nothing. *)
Fixpoint os_walk (top : string) (t : tree) (s : S) : S :=
  match t with
  | Dir files subdirs =>
      let '(dirs, s1) := body top (map fst subdirs) files s in
      let below :=
        map (fun p => (fst p, os_walk (posixpath.join top (fst p)) (snd p))) subdirs in
      fold_left (fun acc name =>
                   match assoc name below with
                   | Some descend => descend acc
                   | None => acc
                   end) dirs s1
  end.

End os_walk.

(** The files of a tree, each with the chain of folder names that leads
    to it from the root, in the order of a top-down walk: the files of a
    directory come before those of its subdirectories. *)
Fixpoint tree_files (t : tree) : list (list string * string) :=
  match t with
  | Dir files subdirs =>
      map (fun f => ([], f)) files
      ++ flat_map (fun p => map (fun df => (fst p :: fst df, snd df))
                                (tree_files (snd p))) subdirs
  end.

(** No directory holds two subdirectories of one name. *)
Fixpoint wf_tree (t : tree) : bool :=
  match t with
  | Dir _ subdirs =>
      bool_decide (NoDup (map fst subdirs))
      && forallb (fun p => wf_tree (snd p)) subdirs
  end.

(** ** The plan builder *)

(** What the program reads from its surroundings: the directory trees of
    the file system ([None] where the path is no directory), the working
    directory, the clock, and the order in which this run of the
    interpreter iterates a set of strings ([list(s)]; it depends on the
    hash seed of the run). *)
Record env : Type := {
  fs : string -> option tree;
  cwd : string;
  now : datetime;
  list_of_set : gset string -> list string
}.

(** [list(s)] holds the elements of [s], each once. *)
Definition iteration_order_ok (e : env) : Prop :=
  forall s : gset string, list_of_set e s ≡ₚ elements s.

(** [os.path.isdir(path)] *)
Definition isdir (e : env) (path : string) : bool :=
  match fs e path with Some _ => true | None => false end.

(** The state of the loop of [calculation_thread]: [temp_file_list] and
    [count], or the exception that has ended the loop. *)
Definition calc_acc : Type := result (list (string * string) * nat).

(** One turn of the inner loop [for file in files]. *)
Definition calculation_file (e : env) (source_dir actual_dest_dir dirpath : string)
  (acc : calc_acc) (file : string) : calc_acc :=
  match acc with
  | Raise x => Raise x
  | Ok (temp_file_list, count) =>
      let source_path := posixpath.join dirpath file in
      match posixpath.relpath (cwd e) source_path source_dir with
      | Raise x => Raise x
      | Ok relative_path =>
          let dest_path := posixpath.join actual_dest_dir relative_path in
          Ok (temp_file_list ++ [(source_path, dest_path)], (count + 1)%nat)
      end
  end.

(** The body of the loop over [os.walk]: the slice assignment to [dirs]
    in the selective mode, then the loop over [files]. *)
Definition calculation_body (e : env) (g : rules) (ignore_exclusions : bool)
  (source_dir actual_dest_dir : string)
  (dirpath : string) (dirs files : list string) (acc : calc_acc)
  : list string * calc_acc :=
  match acc with
  | Raise x => (dirs, Raise x)
  | Ok _ =>
      let dirs' :=
        if negb ignore_exclusions
        then filter (fun d => is_excluded g d = false) dirs
        else dirs in
      (dirs', fold_left (calculation_file e source_dir actual_dest_dir dirpath) files acc)
  end.

(** [count] is the length of [temp_file_list]. *)
Definition counted (acc : calc_acc) : Prop :=
  match acc with
  | Ok (temp_file_list, count) => count = length temp_file_list
  | Raise _ => True
  end.

(** What [calculation_thread] hands to the main thread through
    [root.after]: [update_calculation_result(fl, c)], or
    [handle_calculation_error(err, mt)]. *)
Inductive calc_event : Type :=
| CalcResult (fl : list (string * string)) (c : nat)
| CalcError (err : exn).

(** [calculation_thread()], for the directory tree [t] found at
    [source_dir]. *)
Definition calculation_thread (e : env) (g : rules) (ignore_exclusions : bool)
  (source_dir actual_dest_dir : string) (t : tree) : calc_event :=
  match os_walk (calculation_body e g ignore_exclusions source_dir actual_dest_dir)
                source_dir t (Ok ([], 0%nat)) with
  | Ok (temp_file_list, count) => CalcResult temp_file_list count
  | Raise err => CalcError err
  end.

(** ['selective'] or ['full'] *)
Inductive calc_mode : Type := selective | full.

(** The globals that hold the plan. *)
Record calc : Type := {
  files_to_copy_list : list (string * string);
  total_files_count : nat;
  last_calculation_mode : option calc_mode
}.

(** [update_calculation_result(calculated_list, calculated_count)] *)
Definition update_calculation_result (calculated_list : list (string * string))
  (calculated_count : nat) (c : calc) : calc :=
  {| files_to_copy_list := calculated_list;
     total_files_count := calculated_count;
     last_calculation_mode := last_calculation_mode c |}.

(** [reset_calculation()] *)
Definition reset_calculation (c : calc) : calc :=
  {| files_to_copy_list := [];
     total_files_count := 0;
     last_calculation_mode := None |}.

(** The errors of a build, each shown in a message box:
    - [DestinationUnsetError]: the source or the resolved destination is
      not set;
    - [SourceNotFoundError]: the source is no directory;
    - [DestinationNestedError]: the destination is the source or lies
      below it;
    - [TraversalIOError]: the worker met an exception. *)
Inductive build_error : Type :=
| DestinationUnsetError
| SourceNotFoundError
| DestinationNestedError
| TraversalIOError (err : exn).

(** The test [source_dir == actual_dest_dir or
    commonpath([source_dir]) == commonpath([source_dir, actual_dest_dir])]
    inside its [try]; a [ValueError] makes it pass. *)
Definition destination_nested (source_dir actual_dest_dir : string) : bool :=
  if String.eqb source_dir actual_dest_dir then true
  else
    match posixpath.commonpath [source_dir] with
    | Raise _ => false
    | Ok c1 =>
        match posixpath.commonpath [source_dir; actual_dest_dir] with
        | Raise _ => false
        | Ok c2 => String.eqb c1 c2
        end
    end.

(** Both paths are absolute, or both are relative. *)
Definition same_kind (p q : string) : bool :=
  Bool.eqb (posixpath.isabs p) (posixpath.isabs q).

(** The destinations the test refuses for a source, said on the paths as
    they are written: the source itself, and every path of the kind of
    the source whose components begin with those of the source. *)
Definition written_below (source_dir actual_dest_dir : string) : Prop :=
  actual_dest_dir = source_dir
  \/ (same_kind source_dir actual_dest_dir = true
      /\ exists k, posixpath.components actual_dest_dir
                   = posixpath.components source_dir ++ k).

(** [_start_file_calculation(ignore_exclusions, mode)], with the worker
    and the callback it schedules run to their end.  The result is the
    new state of the plan globals and the error shown, if any. *)
Definition _start_file_calculation (e : env) (v : vars) (g : rules)
  (ignore_exclusions : bool) (mode : calc_mode) (c : calc)
  : calc * option build_error :=
  let source_dir := source_dir_var v in
  match get_actual_dest_dir v (now e) with
  | None => (c, Some DestinationUnsetError)
  | Some actual_dest_dir =>
      if String.eqb source_dir "" || String.eqb actual_dest_dir "" then
        (c, Some DestinationUnsetError)
      else
        match fs e source_dir with
        | None => (c, Some SourceNotFoundError)
        | Some t =>
            if destination_nested source_dir actual_dest_dir then
              (c, Some DestinationNestedError)
            else
              let c1 := {| files_to_copy_list := [];
                           total_files_count := 0;
                           last_calculation_mode := Some mode |} in
              match calculation_thread e g ignore_exclusions
                                       source_dir actual_dest_dir t with
              | CalcResult fl n => (update_calculation_result fl n c1, None)
              | CalcError err => (reset_calculation c1, Some (TraversalIOError err))
              end
        end
  end.

(** The plan entry of a file found under a chain of folders below the
    directory [top] of the walk. *)
Definition entry_under (e : env) (source_dir actual_dest_dir top : string)
  (df : list string * string) : string * string :=
  let source_path := posixpath.join_all top (fst df ++ [snd df]) in
  (source_path,
   posixpath.join actual_dest_dir (posixpath.relpath_str (cwd e) source_path source_dir)).

(** The plan entry of a file of the source tree. *)
Definition plan_entry (e : env) (source_dir actual_dest_dir : string)
  (df : list string * string) : string * string :=
  entry_under e source_dir actual_dest_dir source_dir df.

(** The subdirectories a walk descends into. *)
Definition kept_subdirs (g : rules) (ignore_exclusions : bool)
  (subdirs : list (string * tree)) : list (string * tree) :=
  if ignore_exclusions then subdirs
  else List.filter (fun p => negb (is_excluded g (fst p))) subdirs.

(** No folder of the chain is excluded. *)
Definition chain_allowed (g : rules) (ds : list string) : bool :=
  forallb (fun d => negb (is_excluded g d)) ds.

(** The files a walk reaches: all of them when exclusions are ignored,
    else those whose chain has no excluded folder. *)
Definition reached (g : rules) (ignore_exclusions : bool)
  (df : list string * string) : bool :=
  ignore_exclusions || chain_allowed g (fst df).

(** The folders a path passes through: its components but the last. *)
Definition folders_of_path (path : string) : list string :=
  removelast (posixpath.components path).

(** [calculate_files_to_copy()] and [calculate_files_for_full_copy()] *)
Definition calculate_files_to_copy (e : env) (v : vars) (g : rules) (c : calc) :=
  _start_file_calculation e v g false selective c.

Definition calculate_files_for_full_copy (e : env) (v : vars) (g : rules) (c : calc) :=
  _start_file_calculation e v g true full c.

(** ** The copy executor *)

(** What [copy_thread] hands to the main thread through [root.after]:
    [update_progress(c, total_files_count)], whose second argument is
    read when the main thread runs the call, [show_copy_complete], or
    [show_error_and_reset] with a message made of the exception. *)
Inductive copy_event : Type :=
| Progress (current_count : nat)
| CopyComplete
| CopyFailed (err : exn).

(** The global [total_files_count] is read again in every turn of the
    loop, while the callbacks of the main thread may assign it: the two
    values turn [i] finds, at the line that computes the interval and at
    the comparison after it. *)
Definition reads : Type := nat -> nat * nat.

(** The loop of [copy_thread] from the index [i] on, with the events it
    schedules, in order. *)
Fixpoint copy_loop (total_files_count : reads) (entries : list (string * string))
  (i copied_count : nat) (d : disk) : disk * list copy_event :=
  match entries with
  | [] => (d, [CopyComplete])
  | (src_path, dest_path) :: rest =>
      let dest_folder := posixpath.dirname dest_path in
      match makedirs d dest_folder with
      | (d1, Raise err) => (d1, [CopyFailed err])
      | (d1, Ok _) =>
          match copy2 d1 src_path dest_path with
          | (d2, Raise err) => (d2, [CopyFailed err])
          | (d2, Ok _) =>
              let copied_count := (copied_count + 1)%nat in
              let update_interval := Nat.max 1 ((total_files_count i).1 / 100) in
              let notify :=
                if Nat.eqb ((i + 1) mod update_interval) 0
                   || Nat.eqb (i + 1) (total_files_count i).2
                then [Progress copied_count]
                else [] in
              let '(d', events) :=
                copy_loop total_files_count rest (i + 1)%nat copied_count d2 in
              (d', notify ++ events)
          end
      end
  end.

(** [copy_thread()]; the list is the one the global is bound to when the
    loop starts. *)
Definition copy_thread (total_at : reads) (c : calc) (d : disk) : disk * list copy_event :=
  copy_loop total_at (files_to_copy_list c) 0 0 d.

(** [start_copying()]; [confirm] is the answer to the dialog.  [None] when
    no worker is started. *)
Definition start_copying (e : env) (v : vars) (c : calc) (confirm : bool)
  (total_at : reads) (d : disk) : option (disk * list copy_event) :=
  match files_to_copy_list c with
  | [] => None
  | _ =>
      match get_actual_dest_dir v (now e) with
      | None => None
      | Some _ => if confirm then Some (copy_thread total_at c d) else None
      end
  end.

(** A run during which no callback assigns the global: every read gives
    [total]. *)
Definition steady (total : nat) : reads := fun _ => (total, total).

(** One turn of the loop as seen from the disk: the directory is made
    sure of, then the file is copied. *)
Definition copy_entry (d : disk) (entry : string * string) : disk * result unit :=
  match makedirs d (posixpath.dirname (snd entry)) with
  | (d1, Raise err) => (d1, Raise err)
  | (d1, Ok _) => copy2 d1 (fst entry) (snd entry)
  end.

(** The entries copied one after the other, up to the first exception. *)
Fixpoint copy_entries (d : disk) (entries : list (string * string)) : disk * result unit :=
  match entries with
  | [] => (d, Ok tt)
  | entry :: rest =>
      match copy_entry d entry with
      | (d1, Raise err) => (d1, Raise err)
      | (d1, Ok _) => copy_entries d1 rest
      end
  end.

(** The test of [copy_thread] for a notification in turn [i]. *)
Definition notifies_at (total_at : reads) (i : nat) : bool :=
  Nat.eqb ((i + 1) mod Nat.max 1 ((total_at i).1 / 100)) 0
  || Nat.eqb (i + 1) (total_at i).2.

(** The notifications of the turns [lo], ..., [lo + n - 1]. *)
Definition progress_events (total_at : reads) (lo n : nat) : list copy_event :=
  map (fun i => Progress (i + 1)) (List.filter (notifies_at total_at) (seq lo n)).

(** The test after the [j]-th file when every read gives [total]. *)
Definition notifies (total j : nat) : bool :=
  Nat.eqb (j mod Nat.max 1 (total / 100)) 0 || Nat.eqb j total.

(** The counts the notifications of a trace carry, in order. *)
Definition progress_counts (events : list copy_event) : list nat :=
  flat_map (fun ev => match ev with Progress c => [c] | _ => [] end) events.

Definition is_progress (ev : copy_event) : bool :=
  match ev with Progress _ => true | _ => false end.

(** ** The configuration loader *)

(** A JSON object as [load_config] reads it: the five keys it looks up,
    each absent or present with a value of the type the program writes.
    Other keys are not looked at. *)
Record config_doc : Type := {
  cfg_source_dir : option string;
  cfg_dest_dir : option string;
  cfg_excluded_exact : option (list string);
  cfg_excluded_prefix : option (list string);
  cfg_append_timestamp : option bool
}.

(** A JSON value that is no object. *)
Inductive json_scalar_or_array : Type :=
| JNull
| JBool (b : bool)
| JNumber (n : Z)
| JString (s : string)
| JArray (len : nat).

(** What is found at [CONFIG_FILE]. *)
Inductive config_file : Type :=
| FileMissing
| FileUnreadable
| FileNotJson
| FileJsonOther (j : json_scalar_or_array)
| FileJsonObject (doc : config_doc).

(** The value of [config] after the [try] block: a dictionary (the empty
    one the function starts with, or the decoded object) or another JSON
    value. *)
Inductive loaded_config : Type :=
| ConfigDict (doc : config_doc)
| ConfigOther (j : json_scalar_or_array).

Definition empty_doc : config_doc :=
  {| cfg_source_dir := None; cfg_dest_dir := None;
     cfg_excluded_exact := None; cfg_excluded_prefix := None;
     cfg_append_timestamp := None |}.

(** The [try] block of [load_config]: every exception of reading and
    decoding is caught and leaves [config = {}]. *)
Definition read_config (f : config_file) : loaded_config :=
  match f with
  | FileMissing => ConfigDict empty_doc
  | FileUnreadable => ConfigDict empty_doc
  | FileNotJson => ConfigDict empty_doc
  | FileJsonOther j => ConfigOther j
  | FileJsonObject doc => ConfigDict doc
  end.

(** [load_config()] *)
Definition load_config (e : env) (f : config_file) (v : vars)
  : result (vars * rules) :=
  match read_config f with
  | ConfigOther _ => Raise AttributeError
  | ConfigDict config =>
      let source_dir := default "" (cfg_source_dir config) in
      let dest_dir := default "" (cfg_dest_dir config) in
      let v1 :=
        if negb (String.eqb source_dir "") && isdir e source_dir
        then {| source_dir_var := source_dir;
                dest_dir_var := dest_dir_var v;
                append_timestamp_var := append_timestamp_var v |}
        else v in
      let v2 :=
        if negb (String.eqb dest_dir "") && isdir e dest_dir
        then {| source_dir_var := source_dir_var v1;
                dest_dir_var := dest_dir;
                append_timestamp_var := append_timestamp_var v1 |}
        else v1 in
      let exact :=
        default (list_of_set e DEFAULT_EXCLUDED_FOLDERS_EXACT)
                (cfg_excluded_exact config) in
      let prefix :=
        default (list_of_set e DEFAULT_EXCLUDED_FOLDERS_PREFIX)
                (cfg_excluded_prefix config) in
      let g :=
        {| excluded_exact_list := exact;
           excluded_prefix_list := prefix;
           EXCLUDED_FOLDERS_EXACT_LOWER := lower_set exact;
           EXCLUDED_FOLDERS_PREFIX_LOWER := lower_set prefix |} in
      let v3 :=
        {| source_dir_var := source_dir_var v2;
           dest_dir_var := dest_dir_var v2;
           append_timestamp_var := default false (cfg_append_timestamp config) |} in
      Ok (v3, g)
  end.

(** How the write of [save_config] ends: the document is written, the
    file cannot be opened, or the dump stops after the file was opened
    for writing. *)
Inductive write_outcome : Type :=
| Written
| OpenFailed
| DumpFailed.

(** The dictionary [save_config] builds from the globals. *)
Definition config_of (v : vars) (g : rules) : config_doc :=
  {| cfg_source_dir := Some (source_dir_var v);
     cfg_dest_dir := Some (dest_dir_var v);
     cfg_excluded_exact := Some (excluded_exact_list g);
     cfg_excluded_prefix := Some (excluded_prefix_list g);
     cfg_append_timestamp := Some (append_timestamp_var v) |}.

(** [save_config()]: what is at [CONFIG_FILE] afterwards, given what was
    there.  Both [except] clauses only print, so nothing is raised. *)
Definition save_config (w : write_outcome) (v : vars) (g : rules)
  (old : config_file) : config_file :=
  match w with
  | Written => FileJsonObject (config_of v g)
  | OpenFailed => old
  | DumpFailed => FileNotJson
  end.

(** [select_directory(dir_var, title)]: [directory] is what the dialog
    returns, empty when it is cancelled; [for_source] tells which of the
    two variables [dir_var] is.  The result is the new variables, plan
    globals and configuration file. *)
Definition select_directory (directory : string) (for_source : bool)
  (w : write_outcome) (v : vars) (g : rules) (c : calc) (old : config_file)
  : vars * calc * config_file :=
  if negb (String.eqb directory "") then
    let v1 :=
      if for_source
      then {| source_dir_var := directory;
              dest_dir_var := dest_dir_var v;
              append_timestamp_var := append_timestamp_var v |}
      else {| source_dir_var := source_dir_var v;
              dest_dir_var := directory;
              append_timestamp_var := append_timestamp_var v |} in
    (v1, reset_calculation c, save_config w v1 g old)
  else (v, c, old).

(** [cancel_and_close()] of the rule editor: the configuration is loaded
    again. *)
Definition cancel_and_close (e : env) (f : config_file) (v : vars)
  : result (vars * rules) :=
  load_config e f v.

(** [save_and_close()] of the rule editor: the rules are saved, and a plan
    computed before is dropped.  The result is the new plan globals and
    configuration file. *)
Definition save_and_close (w : write_outcome) (v : vars) (ed : editor) (c : calc)
  (old : config_file) : calc * config_file :=
  let f := save_config w v (ed_rules ed) old in
  if Nat.ltb 0 (total_files_count c)
     || match files_to_copy_list c with [] => false | _ => true end
  then (reset_calculation c, f)
  else (c, f).

(** The list boxes of the editor show the stored rules, and no rule is
    stored twice. *)
Definition editor_mirrors (ed : editor) : Prop :=
  (exact_listbox ed = excluded_exact_list (ed_rules ed)
   /\ NoDup (excluded_exact_list (ed_rules ed)))
  /\ (prefix_listbox ed = excluded_prefix_list (ed_rules ed)
      /\ NoDup (excluded_prefix_list (ed_rules ed))).

(** The names a directory can list: not empty, without the separator,
    and neither [.] nor [..]. *)
Definition plain_name (n : string) : bool :=
  negb (String.eqb n "") && negb (Py.contains_char posixpath.sep n)
  && negb (String.eqb n ".") && negb (String.eqb n "..").

(** Every file and every folder of the tree has such a name. *)
Fixpoint well_named (t : tree) : bool :=
  match t with
  | Dir files subdirs =>
      forallb plain_name files
      && forallb (fun p => plain_name (fst p) && well_named (snd p)) subdirs
  end.

(** The path of a file relative to the root of its tree. *)
Definition relative_path (df : list string * string) : string :=
  Py.join "/" (fst df ++ [snd df]).

(** The entry that sends a file to the same relative path below the
    destination. *)
Definition mirrored_entry (source_dir actual_dest_dir : string)
  (df : list string * string) : string * string :=
  (posixpath.join source_dir (relative_path df),
   posixpath.join actual_dest_dir (relative_path df)).

(** No directory lists one file name twice. *)
Fixpoint distinct_files (t : tree) : bool :=
  match t with
  | Dir files subdirs =>
      bool_decide (NoDup files)
      && forallb (fun p => distinct_files (snd p)) subdirs
  end.

(** ** The preview of the plan *)

(** What [show_file_preview] does: a note that there is no plan, an error
    for a source that is not set, the window with its title count, its
    source label and the lines of its list box, or the error shown for a
    [ValueError] of [relpath]. *)
Inductive preview_outcome : Type :=
| PreviewNothing
| PreviewSourceUnset
| PreviewWindow (title_count : nat) (source_label : string) (lines : list string)
| PreviewRelpathError.

(** One turn of the loop that fills the list box. *)
Definition preview_line (e : env) (source_dir : string)
  (acc : result (list string)) (entry : string * string) : result (list string) :=
  match acc with
  | Raise x => Raise x
  | Ok lines =>
      match posixpath.relpath (cwd e) (fst entry) source_dir with
      | Raise x => Raise x
      | Ok relative_path => Ok (lines ++ [relative_path])
      end
  end.

(** [show_file_preview()] *)
Definition show_file_preview (e : env) (v : vars) (c : calc) : preview_outcome :=
  match files_to_copy_list c with
  | [] => PreviewNothing
  | _ =>
      let source_dir := source_dir_var v in
      if String.eqb source_dir "" then PreviewSourceUnset
      else
        match fold_left (preview_line e source_dir) (files_to_copy_list c) (Ok []) with
        | Ok lines => PreviewWindow (total_files_count c) source_dir lines
        | Raise _ => PreviewRelpathError
        end
  end.

End with_library.

(** ** A simulated disk *)

(** A file: its bytes and its modification time. *)
Record file : Type := {
  content : string;
  mtime : nat
}.

(** A disk without links: its files by path, its directories, and the
    paths at which nothing may be created or written. *)
Record sim_disk : Type := {
  disk_files : gmap string file;
  disk_dirs : gset string;
  disk_denied : gset string
}.

Definition sim_isfile (d : sim_disk) (p : string) : bool :=
  bool_decide (is_Some (disk_files d !! p)).

Definition sim_isdir (d : sim_disk) (p : string) : bool :=
  negb (String.eqb p "") && Py.all_char posixpath.sep p || bool_decide (p ∈ disk_dirs d).

Definition sim_lexists (d : sim_disk) (p : string) : bool :=
  sim_isfile d p || sim_isdir d p.

(** The paths [makedirs(path)] finds missing: [path] and those above it,
    up to one that is there; [fuel] bounds the climb by the length of
    [path]. *)
Fixpoint missing_dirs (fuel : nat) (d : sim_disk) (path : string) : list string :=
  match fuel with
  | O => []
  | S k =>
      if String.eqb path "" || sim_lexists d path then []
      else path :: missing_dirs k d (posixpath.dirname path)
  end.

(** [mkdir] for the missing paths, the outermost first: the directories
    made before the first refusal, and that refusal. *)
Fixpoint mkdir_all (d : sim_disk) (todo : list string) : list string * result unit :=
  match todo with
  | [] => ([], Ok tt)
  | p :: rest =>
      if bool_decide (p ∈ disk_denied d) then ([], Raise (PermissionError p))
      else let '(made, r) := mkdir_all d rest in (p :: made, r)
  end.

Definition with_dirs (d : sim_disk) (made : list string) : sim_disk :=
  {| disk_files := disk_files d;
     disk_dirs := list_to_set made ∪ disk_dirs d;
     disk_denied := disk_denied d |}.

(** [os.makedirs(path, exist_ok=True)] *)
Definition sim_makedirs (d : sim_disk) (path : string) : sim_disk * result unit :=
  if String.eqb path "" then (d, Raise (FileNotFoundError path))
  else if sim_isfile d path then (d, Raise (FileExistsError path))
  else
    let todo := rev (missing_dirs (String.length path) d path) in
    match todo with
    | [] => (d, Ok tt)
    | top :: _ =>
        if sim_isfile d (posixpath.dirname top) then (d, Raise (NotADirectoryError top))
        else let '(made, r) := mkdir_all d todo in (with_dirs d made, r)
    end.

(** [shutil.copy2(src, dst)]: into [dst] when it is a directory; the bytes
    and the modification time of [src] replace what is at the target. *)
Definition sim_copy2 (d : sim_disk) (src dst : string) : sim_disk * result unit :=
  let target :=
    if sim_isdir d dst then posixpath.join dst (posixpath.basename src) else dst in
  if String.eqb src target && sim_lexists d src then (d, Raise (SameFileError src target))
  else
    match disk_files d !! src with
    | None =>
        (d, Raise (if sim_isdir d src then IsADirectoryError src
                   else FileNotFoundError src))
    | Some f =>
        if sim_isdir d target then (d, Raise (IsADirectoryError target))
        else if negb (String.eqb (posixpath.dirname target) "")
                && negb (sim_isdir d (posixpath.dirname target))
        then (d, Raise (if sim_isfile d (posixpath.dirname target)
                        then NotADirectoryError target
                        else FileNotFoundError target))
        else if bool_decide (target ∈ disk_denied d)
        then (d, Raise (PermissionError target))
        else ({| disk_files := <[target := f]> (disk_files d);
                 disk_dirs := disk_dirs d;
                 disk_denied := disk_denied d |}, Ok tt)
    end.

#[export] Instance sim_fs : file_system.
Proof.
  refine {| disk := sim_disk; makedirs := sim_makedirs; copy2 := sim_copy2;
            lexists := sim_lexists |}.
  - intros d path p Hp.
    assert (Hdirs : forall made, sim_lexists (with_dirs d made) p = true).
    { intros made. unfold sim_lexists, sim_isdir, sim_isfile in *. simpl.
      apply orb_true_iff in Hp as [Hp | Hp]; [now rewrite Hp|].
      apply orb_true_iff in Hp as [Hp | Hp]; [rewrite Hp; apply orb_true_r|].
      apply bool_decide_eq_true_1 in Hp.
      rewrite (bool_decide_eq_true_2 (p ∈ list_to_set made ∪ disk_dirs d)) by set_solver.
      now rewrite !orb_true_r. }
    unfold sim_makedirs.
    destruct (String.eqb path ""); [exact Hp|].
    destruct (sim_isfile d path); [exact Hp|].
    destruct (rev _) as [|top todo]; [exact Hp|].
    destruct (sim_isfile d (posixpath.dirname top)); [exact Hp|].
    destruct (mkdir_all d (top :: todo)) as [made r]. apply Hdirs.
  - intros d src dst p Hp. unfold sim_copy2.
    set (target := if sim_isdir d dst then _ else dst).
    destruct (String.eqb src target && sim_lexists d src); [exact Hp|].
    destruct (disk_files d !! src) as [f|]; [|exact Hp].
    destruct (sim_isdir d target); [exact Hp|].
    destruct (negb _ && negb _); [exact Hp|].
    destruct (bool_decide (target ∈ disk_denied d)); [exact Hp|].
    unfold sim_lexists, sim_isdir, sim_isfile in *. simpl.
    apply orb_true_iff in Hp as [Hp | Hp]; [|now rewrite Hp, orb_true_r].
    apply bool_decide_eq_true_1 in Hp.
    rewrite (bool_decide_eq_true_2 (is_Some (<[target := f]> (disk_files d) !! p))); [reflexivity|].
    destruct (decide (target = p)) as [-> | Hne].
    + rewrite lookup_insert_eq. eauto.
    + now rewrite lookup_insert_ne.
  - intros d src dst. unfold sim_copy2.
    destruct (sim_isdir d dst) eqn:Hdir.
    + set (target := posixpath.join dst _).
      assert (Hthere : forall d', disk_dirs d' = disk_dirs d -> sim_lexists d' dst = true).
      { intros d' Hd'. unfold sim_lexists, sim_isdir in *. rewrite Hd', Hdir.
        apply orb_true_r. }
      destruct (String.eqb src target && sim_lexists d src); [discriminate|].
      destruct (disk_files d !! src) as [f|]; [|discriminate].
      destruct (sim_isdir d target); [discriminate|].
      destruct (negb _ && negb _); [discriminate|].
      destruct (bool_decide (target ∈ disk_denied d)); [discriminate|].
      intros _. now apply Hthere.
    + destruct (String.eqb src dst && sim_lexists d src); [discriminate|].
      destruct (disk_files d !! src) as [f|]; [|discriminate].
      rewrite Hdir.
      destruct (negb _ && negb _); [discriminate|].
      destruct (bool_decide (dst ∈ disk_denied d)); [discriminate|].
      intros _. unfold sim_lexists, sim_isfile. simpl.
      rewrite (bool_decide_eq_true_2 (is_Some (<[dst := f]> (disk_files d) !! dst)));
        [reflexivity|].
      rewrite lookup_insert_eq. eauto.
Defined.

(** A disk that holds given source files and refuses given paths. *)
Definition disk_with (sources denied : list string) : sim_disk :=
  {| disk_files := list_to_map (map (fun s => (s, {| content := s; mtime := 0 |})) sources);
     disk_dirs := {[ "/proj" ]};
     disk_denied := list_to_set denied |}.

(** The disk of a project of four files where [/backup/b] may not be
    written. *)
Definition disk_refusing_b : sim_disk :=
  disk_with ["/proj/a"; "/proj/b"; "/proj/c"; "/other/x"] ["/backup/b"].

(** ** The buttons of the main window *)

(** [tk.NORMAL] and [tk.DISABLED] *)
Inductive widget_state : Type := NORMAL | DISABLED.

(** The main window as its callbacks change it: the plan globals, the
    state of the four buttons, and the progress bar.  The text of the
    status label is left out. *)
Record window : Type := {
  plan : calc;
  calculate_button : widget_state;
  calculate_full_button : widget_state;
  copy_button : widget_state;
  preview_button : widget_state;
  progress_value : nat;
  progress_maximum : nat
}.

Module Window.

(** [reset_calculation()] *)
Definition reset_calculation (w : window) : window :=
  {| plan := reset_calculation (plan w);
     calculate_button := NORMAL;
     calculate_full_button := NORMAL;
     copy_button := DISABLED;
     preview_button := DISABLED;
     progress_value := 0;
     progress_maximum := 100 |}.

(** [_start_file_calculation(ignore_exclusions, mode)] once its checks
    have passed, up to the start of the worker. *)
Definition _start_file_calculation (mode : calc_mode) (w : window) : window :=
  {| plan := {| files_to_copy_list := [];
                total_files_count := 0;
                last_calculation_mode := Some mode |};
     calculate_button := DISABLED;
     calculate_full_button := DISABLED;
     copy_button := DISABLED;
     preview_button := DISABLED;
     progress_value := 0;
     progress_maximum := progress_maximum w |}.

(** [update_calculation_result(calculated_list, calculated_count)] *)
Definition update_calculation_result (calculated_list : list (string * string))
  (calculated_count : nat) (w : window) : window :=
  if Nat.ltb 0 calculated_count then
    {| plan := update_calculation_result calculated_list calculated_count (plan w);
       calculate_button := NORMAL;
       calculate_full_button := NORMAL;
       copy_button := NORMAL;
       preview_button := NORMAL;
       progress_value := 0;
       progress_maximum := calculated_count |}
  else
    {| plan := update_calculation_result calculated_list calculated_count (plan w);
       calculate_button := NORMAL;
       calculate_full_button := NORMAL;
       copy_button := DISABLED;
       preview_button := DISABLED;
       progress_value := progress_value w;
       progress_maximum := progress_maximum w |}.

(** [show_error_and_reset(error_message)] *)
Definition show_error_and_reset (w : window) : window := reset_calculation w.

(** What the worker of a build schedules when it ends. *)
Definition calculation_done (ev : calc_event) (w : window) : window :=
  match ev with
  | CalcResult fl n => update_calculation_result fl n w
  | CalcError _ => show_error_and_reset w
  end.

(** [start_copying()] once its checks have passed and the user has
    agreed, up to the start of the worker. *)
Definition start_copying (w : window) : window :=
  {| plan := plan w;
     calculate_button := DISABLED;
     calculate_full_button := calculate_full_button w;
     copy_button := DISABLED;
     preview_button := preview_button w;
     progress_value := progress_value w;
     progress_maximum := progress_maximum w |}.

(** [update_progress(current_count, total_count)] *)
Definition update_progress (current_count total_count : nat) (w : window) : window :=
  {| plan := plan w;
     calculate_button := calculate_button w;
     calculate_full_button := calculate_full_button w;
     copy_button := copy_button w;
     preview_button := preview_button w;
     progress_value := current_count;
     progress_maximum := progress_maximum w |}.

(** [show_copy_complete()] *)
Definition show_copy_complete (w : window) : window :=
  {| plan := plan w;
     calculate_button := NORMAL;
     calculate_full_button := calculate_full_button w;
     copy_button := copy_button w;
     preview_button := preview_button w;
     progress_value := total_files_count (plan w);
     progress_maximum := progress_maximum w |}.

(** [select_directory(dir_var, title)] with a directory chosen. *)
Definition select_directory (w : window) : window := reset_calculation w.

(** [save_and_close()] of the rule editor. *)
Definition save_and_close (w : window) : window :=
  if Nat.ltb 0 (total_files_count (plan w))
     || match files_to_copy_list (plan w) with [] => false | _ => true end
  then reset_calculation w
  else w.

End Window.

Section with_library.
Context {U : Py.str_methods} {FS : file_system}.

(** What happens to the main window: a callback of a button or of the
    rule editor runs, or a callback that a worker has scheduled with
    [root.after].  The worker of a build hands over what
    [calculation_thread] returns for its source tree. *)
Inductive window_event : Type :=
| DirectorySelected
| RulesSaved
| CalculationStarted (mode : calc_mode)
| CalculationEnded (e : env) (g : rules) (ignore_exclusions : bool)
    (source_dir actual_dest_dir : string) (t : tree)
| CopyingStarted
| ProgressShown (current_count total_count : nat)
| CompletionShown
| CopyErrorShown.

Definition handle (w : window) (ev : window_event) : window :=
  match ev with
  | DirectorySelected => Window.select_directory w
  | RulesSaved => Window.save_and_close w
  | CalculationStarted mode => Window._start_file_calculation mode w
  | CalculationEnded e g ignore_exclusions source_dir actual_dest_dir t =>
      Window.calculation_done
        (calculation_thread e g ignore_exclusions source_dir actual_dest_dir t) w
  | CopyingStarted => Window.start_copying w
  | ProgressShown current_count total_count =>
      Window.update_progress current_count total_count w
  | CompletionShown => Window.show_copy_complete w
  | CopyErrorShown => Window.show_error_and_reset w
  end.

(** The window when the main loop starts: the buttons as they are
    created, then [reset_calculation()]. *)
Definition initial_window : window :=
  Window.reset_calculation
    {| plan := {| files_to_copy_list := []; total_files_count := 0;
                  last_calculation_mode := None |};
       calculate_button := NORMAL;
       calculate_full_button := NORMAL;
       copy_button := DISABLED;
       preview_button := DISABLED;
       progress_value := 0;
       progress_maximum := 100 |}.

(** What holds of the main window at all times: the count is the length
    of the plan, the copy button is enabled only with the preview button,
    and the preview button only with a plan that is not empty. *)
Definition window_ok (w : window) : Prop :=
  total_files_count (plan w) = length (files_to_copy_list (plan w))
  /\ (copy_button w = NORMAL -> preview_button w = NORMAL)
  /\ (preview_button w = NORMAL -> files_to_copy_list (plan w) <> []).

(** ** Sample data *)

(** The rules a first start without a configuration file ends with. *)
Definition default_rules : rules :=
  {| excluded_exact_list := elements DEFAULT_EXCLUDED_FOLDERS_EXACT;
     excluded_prefix_list := elements DEFAULT_EXCLUDED_FOLDERS_PREFIX;
     EXCLUDED_FOLDERS_EXACT_LOWER := lower_set (elements DEFAULT_EXCLUDED_FOLDERS_EXACT);
     EXCLUDED_FOLDERS_PREFIX_LOWER := lower_set (elements DEFAULT_EXCLUDED_FOLDERS_PREFIX) |}.

(** The editor as it opens on given rules. *)
Definition open_editor (g : rules) : editor :=
  {| ed_rules := g;
     exact_listbox := excluded_exact_list g;
     prefix_listbox := excluded_prefix_list g |}.

(** Rules as a hand-edited configuration file may hold them. *)
Definition rules_of_lists (exact prefix : list string) : rules :=
  {| excluded_exact_list := exact;
     excluded_prefix_list := prefix;
     EXCLUDED_FOLDERS_EXACT_LOWER := lower_set exact;
     EXCLUDED_FOLDERS_PREFIX_LOWER := lower_set prefix |}.

(** Editors on rules with one spelling of a name, with two spellings of
    it, and with an entry that has a leading space. *)
Definition editor_one_spelling : editor := open_editor (rules_of_lists [".git"] []).
Definition editor_two_spellings : editor := open_editor (rules_of_lists [".git"; ".GIT"] []).
Definition editor_spaced_entry : editor := open_editor (rules_of_lists [" x"] []).

(** The clock at 2024-01-02T03:04:05, and main-window variables that
    hold a destination. *)
Definition sample_time : datetime :=
  {| year := 2024; month := 1; day := 2; hour := 3; minute := 4; second := 5 |}.

Definition vars_with_dest (dest : string) (stamp : bool) : vars :=
  {| source_dir_var := "/src"; dest_dir_var := dest; append_timestamp_var := stamp |}.

(** A project tree: [file1.txt], [.git/config],
    [node_modules/pkg/index.js], [sub/file2.txt], and in [sub] a regular
    file that is itself called [node_modules]. *)
Definition sample_tree : tree :=
  Dir ["file1.txt"]
      [(".git", Dir ["config"] []);
       ("node_modules", Dir [] [("pkg", Dir ["index.js"] [])]);
       ("sub", Dir ["file2.txt"; "node_modules"] [])].

(** A tree whose root folder is itself called [node_modules]. *)
Definition vendored_tree : tree := Dir ["index.js"] [].

(** A file system with the two trees, the working directory and the
    clock. *)
Definition sample_env : env :=
  {| fs := fun path =>
             if String.eqb path "/proj" then Some sample_tree
             else if String.eqb path "/srv/node_modules" then Some vendored_tree
             else None;
     cwd := "/home/user";
     now := sample_time;
     list_of_set := elements |}.


(** Main-window variables for a build of [/proj] into [dest], and the
    plan globals before any build. *)
Definition vars_of_build (src dest : string) : vars :=
  {| source_dir_var := src; dest_dir_var := dest; append_timestamp_var := false |}.

Definition no_plan : calc :=
  {| files_to_copy_list := []; total_files_count := 0; last_calculation_mode := None |}.

(** A plan of [n] numbered files, and plan globals for a list of
    entries. *)
Definition numbered_plan (n : nat) : list (string * string) :=
  map (fun i => ("/proj/f" +:+ Py.pad4 i, "/backup/f" +:+ Py.pad4 i)) (seq 1 n).

Definition plan_of (entries : list (string * string)) : calc :=
  {| files_to_copy_list := entries;
     total_files_count := length entries;
     last_calculation_mode := Some selective |}.

(** Three files to copy. *)
Definition three_entries : list (string * string) :=
  [("/proj/a", "/backup/a"); ("/proj/b", "/backup/b"); ("/proj/c", "/backup/c")].

(** The main-window variables at a first start, and a configuration
    document whose two rule lists are present and empty. *)
Definition fresh_vars : vars :=
  {| source_dir_var := ""; dest_dir_var := ""; append_timestamp_var := false |}.

Definition doc_without_rules : config_doc :=
  {| cfg_source_dir := None; cfg_dest_dir := None;
     cfg_excluded_exact := Some []; cfg_excluded_prefix := Some [];
     cfg_append_timestamp := None |}.


End with_library.

(** ** The methods of [str] on ASCII strings *)

(** The parameters at the functions written out above: what every
    implementation of [str] does as long as the strings are ASCII. *)
#[export] Instance ascii_str : Py.str_methods.
Proof.
  refine {| Py.lower := Py.ascii_lower; Py.strip := Py.ascii_strip |}.
  - induction s as [|c s IH]; simpl; [reflexivity|]. rewrite IH. f_equal.
    destruct c as [b0 b1 b2 b3 b4 b5 b6 b7].
    destruct b0, b1, b2, b3, b4, b5, b6, b7; reflexivity.
  - reflexivity.
  - reflexivity.
Defined.


(* ================================================================== *)
(** * Part II: properties *)
(* ================================================================== *)

(** ** Strings *)

#[local] Arguments String.append !s1 s2 : simpl nomatch.

Section with_library.
Context {U : Py.str_methods} {FS : file_system}.

Lemma lower_char_idem (c : ascii) : Py.lower_char (Py.lower_char c) = Py.lower_char c.
Proof.
  destruct c as [b0 b1 b2 b3 b4 b5 b6 b7].
  destruct b0, b1, b2, b3, b4, b5, b6, b7; reflexivity.
Qed.


Lemma string_eqb_refl (s : string) : String.eqb s s = true.
Proof. apply String.eqb_refl. Qed.

Lemma string_eqb_false (a b : string) : a <> b -> String.eqb a b = false.
Proof. intros H. now apply String.eqb_neq. Qed.

Lemma prefix_String (a b : ascii) (p s : string) :
  String.prefix (String a p) (String b s) = Ascii.eqb a b && String.prefix p s.
Proof.
  change (String.prefix (String a p) (String b s))
    with (if ascii_dec a b then String.prefix p s else false).
  destruct (ascii_dec a b) as [-> | Hne].
  - now rewrite Ascii.eqb_refl.
  - apply Ascii.eqb_neq in Hne. now rewrite Hne.
Qed.

Lemma prefix_nil_l (s : string) : String.prefix "" s = true.
Proof. now destruct s. Qed.

Lemma prefix_nil_r (a : ascii) (p : string) : String.prefix (String a p) "" = false.
Proof. reflexivity. Qed.

Lemma in_all_bytes (c : ascii) : In c all_bytes.
Proof.
  unfold all_bytes. rewrite <- (ascii_nat_embedding c).
  apply in_map, in_seq. pose proof (nat_ascii_bounded c). lia.
Qed.

(** Lower-casing sends two bytes to one exactly when they are the same
    letter: checked on all pairs of bytes. *)
Lemma lower_char_same (c d : ascii) :
  Ascii.eqb (Py.lower_char c) (Py.lower_char d) = same_letter c d.
Proof.
  assert (Hall : forallb (fun c => forallb (fun d =>
            Bool.eqb (Ascii.eqb (Py.lower_char c) (Py.lower_char d)) (same_letter c d))
            all_bytes) all_bytes = true) by (vm_compute; reflexivity).
  rewrite forallb_forall in Hall. specialize (Hall c (in_all_bytes c)).
  rewrite forallb_forall in Hall. specialize (Hall d (in_all_bytes d)).
  now apply Bool.eqb_prop in Hall.
Qed.

Lemma ascii_lower_eqb (a b : string) :
  String.eqb (Py.ascii_lower a) (Py.ascii_lower b) = caseless_eqb a b.
Proof.
  revert b. induction a as [|c a IH]; intros [|d b]; simpl; try reflexivity.
  rewrite lower_char_same, IH. now destruct (same_letter c d).
Qed.


Lemma ascii_lower_app (a b : string) :
  Py.ascii_lower (a +:+ b) = Py.ascii_lower a +:+ Py.ascii_lower b.
Proof. induction a as [|c a IH]; simpl; [reflexivity|now rewrite IH]. Qed.

Lemma isascii_app (a b : string) :
  Py.isascii (a +:+ b) = Py.isascii a && Py.isascii b.
Proof.
  induction a as [|c a IH]; simpl; [reflexivity|]. rewrite IH. apply andb_assoc.
Qed.


Lemma prefix_app (a b : string) : String.prefix a (a +:+ b) = true.
Proof.
  induction a as [|c a IH]; simpl; [now destruct b|].
  destruct (ascii_dec c c) as [_|Hne]; [exact IH|contradiction].
Qed.

(** ** The exclusion rules *)

Lemma elem_of_lower_set (x : string) (l : list string) :
  x ∈ lower_set l <-> exists e, e ∈ l /\ x = Py.lower e.
Proof.
  unfold lower_set. rewrite elem_of_list_to_set, list_elem_of_In, in_map_iff.
  split.
  - intros (e & He & Hin). exists e. rewrite list_elem_of_In. auto.
  - intros (e & Hin & He). exists e. rewrite <- list_elem_of_In. auto.
Qed.

Lemma is_excluded_iff (g : rules) (n : string) :
  is_excluded g n = true <->
  (Py.lower n ∈ EXCLUDED_FOLDERS_EXACT_LOWER g
   \/ exists p, p ∈ EXCLUDED_FOLDERS_PREFIX_LOWER g
                /\ Py.startswith (Py.lower n) p = true).
Proof.
  unfold is_excluded. case_bool_decide as Hin.
  - split; auto.
  - rewrite existsb_exists. split.
    + intros (p & Hp & Hs). right. exists p. split; [|exact Hs].
      apply elem_of_elements. now apply list_elem_of_In.
    + intros [Habs | (p & Hp & Hs)]; [contradiction|].
      exists p. split; [|exact Hs].
      apply list_elem_of_In. now apply elem_of_elements.
Qed.


Lemma update_lower_sets_in_sync (g : rules) : rules_in_sync (update_lower_sets g).
Proof. split; reflexivity. Qed.

Lemma lower_set_snoc_known (l : list string) (v e : string) :
  e ∈ l -> Py.lower v = Py.lower e -> lower_set (l ++ [v]) = lower_set l.
Proof.
  intros He Hl. apply set_eq. intros x.
  rewrite !elem_of_lower_set. split.
  - intros (y & Hy & ->). apply elem_of_app in Hy as [Hy | Hy].
    + exists y. auto.
    + apply list_elem_of_singleton in Hy as ->. exists e. auto.
  - intros (y & Hy & ->). exists y. split; [|reflexivity].
    apply elem_of_app. auto.
Qed.


Lemma add_item_fresh (item : string) (k : rule_kind) (ed : editor) :
  Py.strip item = item -> item <> "" -> item ∉ target_list k (ed_rules ed) ->
  add_item item k ed =
  (set_rules (update_lower_sets
                (set_target_list k (target_list k (ed_rules ed) ++ [item]) (ed_rules ed)))
             (set_listbox k (listbox_widget k ed ++ [item]) ed), Added).
Proof.
  intros Hs Hne Hnin. unfold add_item. rewrite Hs.
  rewrite (string_eqb_false _ _ Hne). rewrite bool_decide_eq_false_2 by exact Hnin.
  reflexivity.
Qed.

Lemma add_item_present (item : string) (k : rule_kind) (ed : editor) :
  Py.strip item ∈ target_list k (ed_rules ed) ->
  add_item item k ed = (ed, WarnAlreadyPresent).
Proof.
  intros Hin. unfold add_item.
  rewrite bool_decide_eq_true_2 by exact Hin.
  rewrite andb_false_r. reflexivity.
Qed.

Lemma target_list_set (k : rule_kind) (l : list string) (g : rules) :
  target_list k (set_target_list k l g) = l.
Proof. destruct k; reflexivity. Qed.

Lemma target_list_update (k : rule_kind) (g : rules) :
  target_list k (update_lower_sets g) = target_list k g.
Proof. destruct k; reflexivity. Qed.




Lemma default_rules_in_sync : rules_in_sync default_rules.
Proof. split; reflexivity. Qed.

Lemma rules_of_lists_in_sync (exact prefix : list string) :
  rules_in_sync (rules_of_lists exact prefix).
Proof. split; reflexivity. Qed.

End with_library.


Section with_library.
Context {U : Py.str_methods} {FS : file_system}.

(** ** The rule editor *)

Lemma is_excluded_ext (g g' : rules) (n : string) :
  EXCLUDED_FOLDERS_EXACT_LOWER g' = EXCLUDED_FOLDERS_EXACT_LOWER g ->
  EXCLUDED_FOLDERS_PREFIX_LOWER g' = EXCLUDED_FOLDERS_PREFIX_LOWER g ->
  is_excluded g' n = is_excluded g n.
Proof. intros H1 H2. unfold is_excluded. now rewrite H1, H2. Qed.

Lemma add_item_in_sync (text : string) (k : rule_kind) (ed : editor) :
  rules_in_sync (ed_rules ed) -> rules_in_sync (ed_rules (add_item text k ed).1).
Proof.
  intros Hsync. unfold add_item.
  destruct (negb (Py.strip text =? "")%string && _).
  - simpl. apply update_lower_sets_in_sync.
  - destruct (bool_decide _); exact Hsync.
Qed.

Lemma remove_selected_in_sync (sel : list nat) (k : rule_kind) (ed : editor) :
  rules_in_sync (ed_rules ed) -> rules_in_sync (ed_rules (remove_selected sel k ed).1).
Proof.
  intros Hsync. unfold remove_selected. destruct sel as [|i sel].
  - exact Hsync.
  - simpl. apply update_lower_sets_in_sync.
Qed.

Lemma add_case_variant_sets (k : rule_kind) (g : rules) (e v : string) :
  rules_in_sync g -> e ∈ target_list k g -> Py.lower v = Py.lower e ->
  let g' := update_lower_sets (set_target_list k (target_list k g ++ [v]) g) in
  EXCLUDED_FOLDERS_EXACT_LOWER g' = EXCLUDED_FOLDERS_EXACT_LOWER g
  /\ EXCLUDED_FOLDERS_PREFIX_LOWER g' = EXCLUDED_FOLDERS_PREFIX_LOWER g.
Proof.
  intros [Hex Hpre] He Hl. destruct k; simpl in *.
  - rewrite Hex, Hpre. split; [|reflexivity]. now apply (lower_set_snoc_known _ _ e).
  - rewrite Hex, Hpre. split; [reflexivity|]. now apply (lower_set_snoc_known _ _ e).
Qed.

(** C10 (amended): duplicates are detected on the stored spelling while
    matching ignores case.  From rules whose sets mirror their lists, when
    [e] is stored and the value [v] is non-empty, has no white space around
    it, is not itself stored and has the lower-cased form of [e], adding
    [v] is accepted and appends [v], yet both lower-cased sets, and so
    every answer of [is_excluded], stay as they were.  After every add and
    every removal the sets mirror the lists again. *)
Theorem add_item_case_variant (ed : editor) (k : rule_kind) (e v : string)
  (text : string) (sel : list nat) :
  rules_in_sync (ed_rules ed) ->
  (e ∈ target_list k (ed_rules ed) -> Py.strip v = v -> v <> "" ->
   v ∉ target_list k (ed_rules ed) -> Py.lower v = Py.lower e ->
   (add_item v k ed).2 = Added
   /\ target_list k (ed_rules (add_item v k ed).1) = target_list k (ed_rules ed) ++ [v]
   /\ EXCLUDED_FOLDERS_EXACT_LOWER (ed_rules (add_item v k ed).1)
      = EXCLUDED_FOLDERS_EXACT_LOWER (ed_rules ed)
   /\ EXCLUDED_FOLDERS_PREFIX_LOWER (ed_rules (add_item v k ed).1)
      = EXCLUDED_FOLDERS_PREFIX_LOWER (ed_rules ed)
   /\ forall n, is_excluded (ed_rules (add_item v k ed).1) n = is_excluded (ed_rules ed) n)
  /\ rules_in_sync (ed_rules (add_item text k ed).1)
  /\ rules_in_sync (ed_rules (remove_selected sel k ed).1).
Proof.
  intros Hsync. split; [|split].
  - intros He Hs Hne Hnin Hl.
    rewrite add_item_fresh by assumption. simpl.
    destruct (add_case_variant_sets k (ed_rules ed) e v Hsync He Hl) as [H1 H2].
    split; [reflexivity|]. split.
    { rewrite target_list_update. apply target_list_set. }
    split; [exact H1|]. split; [exact H2|].
    intros n. now apply is_excluded_ext.
  - now apply add_item_in_sync.
  - now apply remove_selected_in_sync.
Qed.

End with_library.

Lemma add_item_case_variant_witness :
  rules_in_sync (ed_rules editor_one_spelling)
  /\ (add_item ".GIT" Exact editor_one_spelling).2 = Added
  /\ target_list Exact (ed_rules (add_item ".GIT" Exact editor_one_spelling).1)
     = [".git"; ".GIT"]
  /\ (forall n, is_excluded (ed_rules (add_item ".GIT" Exact editor_one_spelling).1) n
                = is_excluded (ed_rules editor_one_spelling) n)
  /\ rules_in_sync (ed_rules (add_item "  " Exact editor_one_spelling).1)
  /\ rules_in_sync (ed_rules (remove_selected [0] Exact editor_one_spelling).1).
Proof.
  assert (Hsync : rules_in_sync (ed_rules editor_one_spelling))
    by apply rules_of_lists_in_sync.
  destruct (add_item_case_variant editor_one_spelling Exact ".git" ".GIT" "  " [0] Hsync)
    as (Hadd & Hsync_add & Hsync_remove).
  destruct Hadd as (Hout & Hlist & _ & _ & Hsame).
  - vm_compute. repeat constructor.
  - reflexivity.
  - discriminate.
  - vm_compute. intros Hin. inversion Hin as [|? ? ? Hin']; subst. inversion Hin'.
  - reflexivity.
  - repeat split; assumption.
Defined.


(** C10 as stated fails twice.  With both spellings stored, adding the
    second one again is refused although it differs from the first entry;
    and a value with white space around it is stored stripped, which can
    change the answers of [is_excluded]. *)
Lemma add_item_case_variant_counterexample :
  (bool_decide (".git" ∈ target_list Exact (ed_rules editor_two_spellings)) = true
   /\ String.eqb ".GIT" "" = false
   /\ String.eqb ".GIT" ".git" = false
   /\ Py.lower ".GIT" = Py.lower ".git"
   /\ add_item ".GIT" Exact editor_two_spellings
      = (editor_two_spellings, WarnAlreadyPresent))
  /\ (bool_decide (" x" ∈ target_list Exact (ed_rules editor_spaced_entry)) = true
      /\ String.eqb " X" "" = false
      /\ String.eqb " X" " x" = false
      /\ Py.lower " X" = Py.lower " x"
      /\ target_list Exact (ed_rules (add_item " X" Exact editor_spaced_entry).1)
         = [" x"; "X"]
      /\ is_excluded (ed_rules editor_spaced_entry) "x" = false
      /\ is_excluded (ed_rules (add_item " X" Exact editor_spaced_entry).1) "x" = true).
Proof. vm_compute. repeat split. Qed.

Section with_library.
Context {U : Py.str_methods} {FS : file_system}.

(** ** The destination resolver *)














End with_library.


Section with_library.
Context {U : Py.str_methods} {FS : file_system}.

(** ** The plan builder *)

Lemma tree_ind' (P : tree -> Prop) :
  (forall files subdirs, Forall (fun p => P (snd p)) subdirs -> P (Dir files subdirs)) ->
  forall t, P t.
Proof.
  intros Hdir. fix IH 1. intros [files subdirs]. apply Hdir.
  induction subdirs as [|p subdirs IHs]; constructor.
  - apply IH.
  - exact IHs.
Qed.

Lemma join_nonempty (a b : string) : a <> "" -> posixpath.join a b <> "".
Proof.
  intros Ha. unfold posixpath.join.
  destruct (Py.startswith b "/") eqn:Hb.
  - destruct b; [discriminate|discriminate].
  - destruct a as [|c a]; [contradiction|].
    destruct (_ || _); simpl; discriminate.
Qed.

Lemma assoc_below {A B : Type} (F : string * A -> B) (l : list (string * A))
  (p : string * A) :
  NoDup (map fst l) -> In p l ->
  assoc (fst p) (map (fun q => (fst q, F q)) l) = Some (F p).
Proof.
  induction l as [|q l IH]; intros Hnd Hin; [contradiction|].
  apply NoDup_cons in Hnd as [Hq Hnd]. simpl.
  destruct Hin as [-> | Hin].
  - now rewrite String.eqb_refl.
  - destruct (String.eqb (fst q) (fst p)) eqn:Heq.
    + apply String.eqb_eq in Heq. exfalso. apply Hq. rewrite Heq.
      apply list_elem_of_In. now apply in_map.
    + now apply IH.
Qed.

Lemma filter_map_fst {A : Type} (P : string -> bool) (l : list (string * A)) :
  filter (fun d => P d = false) (map fst l)
  = map fst (List.filter (fun p => negb (P (fst p))) l).
Proof.
  induction l as [|q l IH]; [reflexivity|]. simpl.
  rewrite filter_cons. destruct (decide (P (fst q) = false)) as [Hq | Hq].
  - rewrite Hq. simpl. now rewrite IH.
  - destruct (P (fst q)); [simpl; exact IH | congruence].
Qed.

Section plan.

Variables (e : env) (g : rules) (ignore_exclusions : bool).
Variables (source_dir actual_dest_dir : string).

Lemma files_fold (dirpath : string) (files : list string)
  (l : list (string * string)) (c : nat) :
  dirpath <> "" ->
  fold_left (calculation_file e source_dir actual_dest_dir dirpath) files (Ok (l, c))
  = Ok (l ++ map (fun f => entry_under e source_dir actual_dest_dir dirpath ([], f)) files,
        c + length files).
Proof.
  intros Hd. revert l c. induction files as [|f files IH]; intros l c; simpl.
  - now rewrite app_nil_r, Nat.add_0_r.
  - unfold posixpath.relpath.
    rewrite (string_eqb_false _ _ (join_nonempty dirpath f Hd)).
    rewrite IH. rewrite <- app_assoc. simpl.
    f_equal. f_equal. lia.
Qed.

Lemma body_dirs (dirpath : string) (subdirs : list (string * tree))
  (files : list string) (acc : list (string * string) * nat) :
  (calculation_body e g ignore_exclusions source_dir actual_dest_dir
                    dirpath (map fst subdirs) files (Ok acc)).1
  = map fst (kept_subdirs g ignore_exclusions subdirs).
Proof.
  unfold calculation_body, kept_subdirs. simpl.
  destruct ignore_exclusions; simpl; [reflexivity|].
  apply filter_map_fst.
Qed.

Lemma kept_subdirs_In (subdirs : list (string * tree)) (p : string * tree) :
  In p (kept_subdirs g ignore_exclusions subdirs) -> In p subdirs.
Proof.
  unfold kept_subdirs. destruct ignore_exclusions; [auto|].
  intros H. now apply filter_In in H.
Qed.

Lemma descent_fold {S : Type} (W : string * tree -> S -> S)
  (subdirs sub : list (string * tree)) (s : S) :
  NoDup (map fst subdirs) -> (forall p, In p sub -> In p subdirs) ->
  fold_left (fun acc name =>
               match assoc name (map (fun q => (fst q, W q)) subdirs) with
               | Some descend => descend acc
               | None => acc
               end) (map fst sub) s
  = fold_left (fun acc p => W p acc) sub s.
Proof.
  intros Hnd. revert s. induction sub as [|p sub IH]; intros s Hsub; [reflexivity|].
  simpl. rewrite (assoc_below W subdirs p Hnd) by (apply Hsub; now left).
  apply IH. intros q Hq. apply Hsub. now right.
Qed.

Lemma os_walk_Dir {S : Type}
  (body : string -> list string -> list string -> S -> list string * S)
  (top : string) (files : list string) (subdirs : list (string * tree)) (s : S) :
  os_walk body top (Dir files subdirs) s
  = fold_left (fun acc name =>
                 match assoc name
                         (map (fun p => (fst p, os_walk body (posixpath.join top (fst p)) (snd p)))
                              subdirs) with
                 | Some descend => descend acc
                 | None => acc
                 end)
              (body top (map fst subdirs) files s).1
              (body top (map fst subdirs) files s).2.
Proof. simpl. destruct (body top (map fst subdirs) files s). reflexivity. Qed.

Lemma body_state (dirpath : string) (dirs files : list string)
  (acc : list (string * string) * nat) :
  (calculation_body e g ignore_exclusions source_dir actual_dest_dir
                    dirpath dirs files (Ok acc)).2
  = fold_left (calculation_file e source_dir actual_dest_dir dirpath) files (Ok acc).
Proof. reflexivity. Qed.

Lemma entry_under_cons (top n : string) (df : list string * string) :
  entry_under e source_dir actual_dest_dir top (n :: fst df, snd df)
  = entry_under e source_dir actual_dest_dir (posixpath.join top n) df.
Proof. reflexivity. Qed.

Lemma reached_cons (n : string) (df : list string * string) :
  reached g ignore_exclusions (n :: fst df, snd df)
  = (ignore_exclusions || negb (is_excluded g n)) && reached g ignore_exclusions df.
Proof.
  unfold reached, chain_allowed. simpl.
  destruct ignore_exclusions, (is_excluded g n); reflexivity.
Qed.

(** The files reached below a directory, by subdirectory. *)
Lemma reached_files_Dir (top : string) (files : list string)
  (subdirs : list (string * tree)) :
  map (entry_under e source_dir actual_dest_dir top)
      (List.filter (reached g ignore_exclusions) (tree_files (Dir files subdirs)))
  = map (fun f => entry_under e source_dir actual_dest_dir top ([], f)) files
    ++ flat_map (fun p => map (entry_under e source_dir actual_dest_dir
                                 (posixpath.join top (fst p)))
                              (List.filter (reached g ignore_exclusions)
                                           (tree_files (snd p))))
                (kept_subdirs g ignore_exclusions subdirs).
Proof.
  simpl. rewrite List.filter_app, map_app. f_equal.
  - induction files as [|f files IH]; [reflexivity|]. simpl.
    replace (reached g ignore_exclusions ([], f)) with true
      by (unfold reached; simpl; now rewrite orb_true_r).
    simpl. now rewrite IH.
  - induction subdirs as [|[n t'] subdirs IH]; simpl.
    { unfold kept_subdirs. now destruct ignore_exclusions. }
    rewrite List.filter_app, map_app, IH. clear IH.
    assert (Hsub : forall l,
      map (entry_under e source_dir actual_dest_dir top)
          (List.filter (reached g ignore_exclusions)
                       (map (fun df => (n :: fst df, snd df)) l))
      = if ignore_exclusions || negb (is_excluded g n)
        then map (entry_under e source_dir actual_dest_dir (posixpath.join top n))
                 (List.filter (reached g ignore_exclusions) l)
        else []).
    { induction l as [|df l IHl]; simpl.
      - now destruct (_ || _).
      - rewrite reached_cons.
        destruct (ignore_exclusions || negb (is_excluded g n)) eqn:Hk; simpl.
        + destruct (reached g ignore_exclusions df); simpl; rewrite IHl; [|reflexivity].
          now rewrite entry_under_cons.
        + exact IHl. }
    rewrite Hsub. unfold kept_subdirs.
    destruct ignore_exclusions; simpl; [reflexivity|].
    destruct (is_excluded g n); reflexivity.
Qed.

Lemma kept_fold (top : string) (kept : list (string * tree)) :
  top <> "" ->
  (forall p, In p kept ->
     forall top' l c, top' <> "" ->
       os_walk (calculation_body e g ignore_exclusions source_dir actual_dest_dir)
               top' (snd p) (Ok (l, c))
       = Ok (l ++ map (entry_under e source_dir actual_dest_dir top')
                      (List.filter (reached g ignore_exclusions) (tree_files (snd p))),
             c + length (List.filter (reached g ignore_exclusions) (tree_files (snd p))))) ->
  forall l c,
    fold_left (fun acc p =>
                 os_walk (calculation_body e g ignore_exclusions source_dir actual_dest_dir)
                         (posixpath.join top (fst p)) (snd p) acc)
              kept (Ok (l, c))
    = Ok (l ++ flat_map (fun p => map (entry_under e source_dir actual_dest_dir
                                         (posixpath.join top (fst p)))
                                      (List.filter (reached g ignore_exclusions)
                                                   (tree_files (snd p)))) kept,
          c + length (flat_map (fun p => List.filter (reached g ignore_exclusions)
                                                     (tree_files (snd p))) kept)).
Proof.
  intros Htop. induction kept as [|p kept IH]; intros Hwalk l c; simpl.
  - now rewrite app_nil_r, Nat.add_0_r.
  - rewrite (Hwalk p (or_introl eq_refl)) by now apply join_nonempty.
    rewrite IH by (intros q Hq; apply Hwalk; now right).
    rewrite <- app_assoc, length_app. f_equal. f_equal. lia.
Qed.

Lemma flat_map_map_length {A B C : Type} (F : A -> B -> C) (X : A -> list B)
  (l : list A) :
  length (flat_map (fun p => map (F p) (X p)) l) = length (flat_map X l).
Proof.
  induction l as [|p l IH]; [reflexivity|].
  simpl. now rewrite !length_app, length_map, IH.
Qed.

Lemma wf_tree_Dir (files : list string) (subdirs : list (string * tree)) :
  wf_tree (Dir files subdirs) = true ->
  NoDup (map fst subdirs) /\ forall p, In p subdirs -> wf_tree (snd p) = true.
Proof.
  simpl. intros H. apply andb_true_iff in H as [Hnd Hall].
  split.
  - now apply bool_decide_eq_true in Hnd.
  - intros p Hp. rewrite forallb_forall in Hall. now apply Hall.
Qed.

(** The walk from [top] appends the entries of the files it reaches, in
    order, and counts them. *)
Lemma walk_reaches (t : tree) :
  forall top l c, top <> "" -> wf_tree t = true ->
    os_walk (calculation_body e g ignore_exclusions source_dir actual_dest_dir)
            top t (Ok (l, c))
    = Ok (l ++ map (entry_under e source_dir actual_dest_dir top)
                   (List.filter (reached g ignore_exclusions) (tree_files t)),
          c + length (List.filter (reached g ignore_exclusions) (tree_files t))).
Proof.
  induction t as [files subdirs IH] using tree_ind'.
  intros top l c Htop Hwf.
  apply wf_tree_Dir in Hwf as [Hnd Hwf].
  rewrite os_walk_Dir, body_dirs, body_state, (files_fold _ _ _ _ Htop).
  rewrite descent_fold; [|exact Hnd|apply kept_subdirs_In].
  rewrite kept_fold; [|exact Htop|].
  - rewrite reached_files_Dir.
    rewrite <- (length_map (entry_under e source_dir actual_dest_dir top)
                           (List.filter _ (tree_files (Dir files subdirs)))).
    rewrite reached_files_Dir, length_app, length_map, flat_map_map_length.
    rewrite <- app_assoc. f_equal. f_equal. lia.
  - intros p Hp top' l' c' Htop'.
    apply kept_subdirs_In in Hp.
    rewrite Forall_forall in IH.
    apply (IH p); [now apply list_elem_of_In | exact Htop' | now apply Hwf].
Qed.

(** The worker returns the entries of the reached files and their number. *)
Lemma calculation_thread_plan (t : tree) :
  source_dir <> "" -> wf_tree t = true ->
  calculation_thread e g ignore_exclusions source_dir actual_dest_dir t
  = CalcResult (map (plan_entry e source_dir actual_dest_dir)
                    (List.filter (reached g ignore_exclusions) (tree_files t)))
               (length (List.filter (reached g ignore_exclusions) (tree_files t))).
Proof.
  intros Hs Hwf. unfold calculation_thread.
  now rewrite (walk_reaches t source_dir [] 0 Hs Hwf).
Qed.
End plan.


Lemma assoc_map_Some {A B : Type} (F : string * A -> B) (l : list (string * A))
  (name : string) (d : B) :
  assoc name (map (fun q => (fst q, F q)) l) = Some d ->
  exists q, In q l /\ d = F q.
Proof.
  induction l as [|q l IH]; simpl; [discriminate|].
  destruct (String.eqb (fst q) name).
  - intros [= <-]. exists q. auto.
  - intros H. destruct (IH H) as (q' & Hq' & ->). exists q'. auto.
Qed.

(** What the body of the loop preserves, the whole walk preserves. *)
Lemma os_walk_invariant {S : Type} (I : S -> Prop)
  (body : string -> list string -> list string -> S -> list string * S) :
  (forall top dirs files s, I s -> I (body top dirs files s).2) ->
  forall t top s, I s -> I (os_walk body top t s).
Proof.
  intros Hbody. induction t as [files subdirs IH] using tree_ind'.
  intros top s Hs. rewrite os_walk_Dir.
  specialize (Hbody top (map fst subdirs) files s Hs).
  revert Hbody.
  generalize (body top (map fst subdirs) files s).2 as s1.
  induction (body top (map fst subdirs) files s).1 as [|name dirs IHd];
    intros s1 Hs1; simpl; [exact Hs1|].
  apply IHd.
  destruct (assoc name _) as [descend|] eqn:Hassoc; [|exact Hs1].
  apply assoc_map_Some in Hassoc as (q & Hq & ->).
  rewrite Forall_forall in IH. apply (IH q); [now apply list_elem_of_In|exact Hs1].
Qed.

Lemma calculation_file_counted (e : env) (source_dir actual_dest_dir dirpath : string)
  (acc : calc_acc) (file : string) :
  counted acc -> counted (calculation_file e source_dir actual_dest_dir dirpath acc file).
Proof.
  destruct acc as [[l c]|x]; simpl; [|auto].
  intros ->. destruct (posixpath.relpath _ _ _); simpl; [|exact I].
  rewrite length_app. simpl. lia.
Qed.

Lemma calculation_body_counted (e : env) (g : rules) (ignore_exclusions : bool)
  (source_dir actual_dest_dir top : string) (dirs files : list string) (acc : calc_acc) :
  counted acc ->
  counted (calculation_body e g ignore_exclusions source_dir actual_dest_dir
                            top dirs files acc).2.
Proof.
  destruct acc as [lc|x]; [|auto].
  unfold calculation_body, snd.
  generalize (Ok lc : calc_acc) as acc.
  induction files as [|f files IH]; intros acc Hacc; simpl; [exact Hacc|].
  apply IH. now apply calculation_file_counted.
Qed.

Lemma calculation_thread_counted (e : env) (g : rules) (ignore_exclusions : bool)
  (source_dir actual_dest_dir : string) (t : tree)
  (fl : list (string * string)) (n : nat) :
  calculation_thread e g ignore_exclusions source_dir actual_dest_dir t = CalcResult fl n ->
  n = length fl.
Proof.
  unfold calculation_thread.
  pose proof (os_walk_invariant counted
                (calculation_body e g ignore_exclusions source_dir actual_dest_dir)
                (calculation_body_counted e g ignore_exclusions source_dir actual_dest_dir)
                t source_dir (Ok ([], 0)) eq_refl) as Hinv.
  destruct (os_walk _ _ _ _) as [[l c]|x]; [|discriminate].
  intros [= <- <-]. exact Hinv.
Qed.

(** C3: the count a build reports is the length of its entry list.  The
    worker hands over a list and its length, in either mode and for every
    tree; [update_calculation_result] stores the two together; so after a
    build that ends without an error, and after any build started from
    globals that agree, [total_files_count] is the length of
    [files_to_copy_list]. *)
Theorem total_count_is_length (e : env) (v : vars) (g : rules)
  (ignore_exclusions : bool) (mode : calc_mode) (c : calc) :
  (forall source_dir actual_dest_dir t fl n,
      calculation_thread e g ignore_exclusions source_dir actual_dest_dir t
      = CalcResult fl n -> n = length fl)
  /\ (forall fl n, n = length fl ->
        total_files_count (update_calculation_result fl n c)
        = length (files_to_copy_list (update_calculation_result fl n c)))
  /\ ((_start_file_calculation e v g ignore_exclusions mode c).2 = None ->
      total_files_count (_start_file_calculation e v g ignore_exclusions mode c).1
      = length (files_to_copy_list (_start_file_calculation e v g ignore_exclusions mode c).1))
  /\ (total_files_count c = length (files_to_copy_list c) ->
      total_files_count (_start_file_calculation e v g ignore_exclusions mode c).1
      = length (files_to_copy_list (_start_file_calculation e v g ignore_exclusions mode c).1)).
Proof.
  split; [intros; eapply calculation_thread_counted; eassumption|].
  split; [intros fl n ->; reflexivity|].
  assert (Hrun : forall (P : Prop),
    (P -> total_files_count c = length (files_to_copy_list c)) ->
    ((_start_file_calculation e v g ignore_exclusions mode c).2 = None \/ P) ->
    total_files_count (_start_file_calculation e v g ignore_exclusions mode c).1
    = length (files_to_copy_list (_start_file_calculation e v g ignore_exclusions mode c).1)).
  { intros P HP. unfold _start_file_calculation.
    destruct (get_actual_dest_dir v (now e)) as [actual|];
      [|simpl; intros [?|?]; [discriminate|auto]].
    destruct (_ || _); [simpl; intros [?|?]; [discriminate|auto]|].
    destruct (fs e (source_dir_var v)) as [t|];
      [|simpl; intros [?|?]; [discriminate|auto]].
    destruct (destination_nested _ _); [simpl; intros [?|?]; [discriminate|auto]|].
    destruct (calculation_thread _ _ _ _ _ _) as [fl n|err] eqn:Hthread; simpl.
    - intros _. now apply calculation_thread_counted in Hthread.
    - reflexivity. }
  split.
  - intros Hnone. apply (Hrun False); [contradiction|now left].
  - intros Hc. apply (Hrun True); [auto|now right].
Qed.

End with_library.

Lemma total_count_is_length_witness :
  (_start_file_calculation sample_env (vars_of_build "/proj" "/backup") default_rules
                           false selective no_plan).2 = None
  /\ total_files_count
       (_start_file_calculation sample_env (vars_of_build "/proj" "/backup") default_rules
                                false selective no_plan).1 = 3
  /\ length (files_to_copy_list
       (_start_file_calculation sample_env (vars_of_build "/proj" "/backup") default_rules
                                false selective no_plan).1) = 3.
Proof.
  assert (Hnone : (_start_file_calculation sample_env (vars_of_build "/proj" "/backup")
                     default_rules false selective no_plan).2 = None)
    by (vm_compute; reflexivity).
  destruct (total_count_is_length sample_env (vars_of_build "/proj" "/backup")
              default_rules false selective no_plan) as (_ & _ & Hdone & _).
  split; [exact Hnone|].
  split.
  - rewrite (Hdone Hnone). vm_compute. reflexivity.
  - vm_compute. reflexivity.
Defined.

Section with_library.
Context {U : Py.str_methods} {FS : file_system}.

Lemma filter_reached_full (g : rules) (l : list (list string * string)) :
  List.filter (reached g true) l = l.
Proof. induction l as [|df l IH]; simpl; [reflexivity|now rewrite IH]. Qed.

Lemma filter_reached_selective (g : rules) (l : list (list string * string)) :
  List.filter (reached g false) l = List.filter (fun df => chain_allowed g (fst df)) l.
Proof. reflexivity. Qed.

Lemma chain_allowed_forall (g : rules) (ds : list string) :
  chain_allowed g ds = true <-> forall d, In d ds -> is_excluded g d = false.
Proof.
  unfold chain_allowed. rewrite forallb_forall. split; intros H d Hd.
  - apply negb_true_iff. now apply H.
  - apply negb_true_iff. now apply H.
Qed.

(** C1 (amended): in the selective mode the plan is, entry for entry and
    in walk order, the list of the files of the tree whose chain of
    folders below the source root has no excluded name: a subtree under an
    excluded folder is never entered and none of its files appears.  The
    source root itself, and the folders above it, are not tested.  In the
    full mode the plan holds every file of the tree, those under excluded
    folders included. *)
Theorem plan_prunes_excluded_subtrees (e : env) (g : rules)
  (source_dir actual_dest_dir : string) (t : tree) :
  source_dir <> "" -> wf_tree t = true ->
  exists selective_plan full_plan,
    calculation_thread e g false source_dir actual_dest_dir t
    = CalcResult selective_plan (length selective_plan)
    /\ calculation_thread e g true source_dir actual_dest_dir t
       = CalcResult full_plan (length full_plan)
    /\ selective_plan
       = map (plan_entry e source_dir actual_dest_dir)
             (List.filter (fun df => chain_allowed g (fst df)) (tree_files t))
    /\ full_plan = map (plan_entry e source_dir actual_dest_dir) (tree_files t)
    /\ (forall entry, In entry selective_plan ->
          exists ds f, In (ds, f) (tree_files t)
                       /\ entry = plan_entry e source_dir actual_dest_dir (ds, f)
                       /\ forall d, In d ds -> is_excluded g d = false)
    /\ (forall ds f, In (ds, f) (tree_files t) ->
          In (plan_entry e source_dir actual_dest_dir (ds, f)) full_plan).
Proof.
  intros Hsrc Hwf.
  exists (map (plan_entry e source_dir actual_dest_dir)
              (List.filter (fun df => chain_allowed g (fst df)) (tree_files t))),
         (map (plan_entry e source_dir actual_dest_dir) (tree_files t)).
  split.
  { rewrite (calculation_thread_plan e g false _ _ t Hsrc Hwf).
    now rewrite filter_reached_selective, length_map. }
  split.
  { rewrite (calculation_thread_plan e g true _ _ t Hsrc Hwf).
    now rewrite filter_reached_full, length_map. }
  split; [reflexivity|]. split; [reflexivity|]. split.
  - intros entry Hin. apply in_map_iff in Hin as ([ds f] & <- & Hdf).
    apply filter_In in Hdf as [Hdf Hchain].
    exists ds, f. split; [exact Hdf|]. split; [reflexivity|].
    now apply chain_allowed_forall.
  - intros ds f Hdf. now apply (in_map (plan_entry e source_dir actual_dest_dir)).
Qed.

End with_library.

Lemma plan_prunes_excluded_subtrees_witness :
  calculation_thread sample_env default_rules false "/proj" "/backup" sample_tree
  = CalcResult [("/proj/file1.txt", "/backup/file1.txt");
                ("/proj/sub/file2.txt", "/backup/sub/file2.txt");
                ("/proj/sub/node_modules", "/backup/sub/node_modules")] 3
  /\ calculation_thread sample_env default_rules true "/proj" "/backup" sample_tree
     = CalcResult [("/proj/file1.txt", "/backup/file1.txt");
                   ("/proj/.git/config", "/backup/.git/config");
                   ("/proj/node_modules/pkg/index.js", "/backup/node_modules/pkg/index.js");
                   ("/proj/sub/file2.txt", "/backup/sub/file2.txt");
                   ("/proj/sub/node_modules", "/backup/sub/node_modules")] 5.
Proof.
  destruct (plan_prunes_excluded_subtrees sample_env default_rules "/proj" "/backup"
              sample_tree) as (sp & fp & Hs & Hf & -> & -> & _);
    [discriminate | reflexivity |].
  split; [rewrite Hs | rewrite Hf]; vm_compute; reflexivity.
Defined.


(** C1 as stated fails when the source root is itself an excluded name:
    the walk of [/srv/node_modules] plans its file, whose source path
    passes through the folder [node_modules]. *)
Lemma plan_prunes_excluded_subtrees_counterexample :
  calculation_thread sample_env default_rules false "/srv/node_modules" "/backup"
                     vendored_tree
  = CalcResult [("/srv/node_modules/index.js", "/backup/index.js")] 1
  /\ folders_of_path "/srv/node_modules/index.js" = ["srv"; "node_modules"]
  /\ is_excluded default_rules "node_modules" = true.
Proof. vm_compute. repeat split. Qed.

Section with_library.
Context {U : Py.str_methods} {FS : file_system}.

(** C9: the rules filter folder names only.  A file of the tree whose
    chain of folders has no excluded name is in the selective plan,
    whatever [is_excluded] answers on the name of the file itself. *)
Theorem excluded_file_names_are_planned (e : env) (g : rules)
  (source_dir actual_dest_dir : string) (t : tree) (ds : list string) (f : string) :
  source_dir <> "" -> wf_tree t = true ->
  In (ds, f) (tree_files t) ->
  (forall d, In d ds -> is_excluded g d = false) ->
  exists fl n,
    calculation_thread e g false source_dir actual_dest_dir t = CalcResult fl n
    /\ In (plan_entry e source_dir actual_dest_dir (ds, f)) fl.
Proof.
  intros Hsrc Hwf Hdf Hchain.
  rewrite (calculation_thread_plan e g false _ _ t Hsrc Hwf).
  eexists _, _. split; [reflexivity|].
  apply in_map. apply filter_In. split; [exact Hdf|].
  change (chain_allowed g ds = true). now apply chain_allowed_forall.
Qed.

End with_library.

Lemma excluded_file_names_are_planned_witness :
  is_excluded default_rules "node_modules" = true
  /\ In (["sub"], "node_modules") (tree_files sample_tree)
  /\ exists fl n,
       calculation_thread sample_env default_rules false "/proj" "/backup" sample_tree
       = CalcResult fl n
       /\ In ("/proj/sub/node_modules", "/backup/sub/node_modules") fl.
Proof.
  split; [vm_compute; reflexivity|].
  assert (Hdf : In (["sub"], "node_modules") (tree_files sample_tree))
    by (vm_compute; auto 10).
  split; [exact Hdf|].
  apply (excluded_file_names_are_planned sample_env default_rules "/proj" "/backup"
           sample_tree ["sub"] "node_modules"); [discriminate|reflexivity|exact Hdf|].
  intros d [<- | []]. vm_compute. reflexivity.
Defined.

Section with_library.
Context {U : Py.str_methods} {FS : file_system}.

(** ** The configuration loader *)

(** With no file, an unreadable file or a file that is no JSON, the
    loader keeps the paths and ends with the default names as rules, in
    the order the interpreter lists them, and the time stamp switched
    off. *)
Lemma load_config_falls_back (e : env) (f : config_file) (v : vars) :
  f = FileMissing \/ f = FileUnreadable \/ f = FileNotJson ->
  load_config e f v
  = Ok ({| source_dir_var := source_dir_var v;
           dest_dir_var := dest_dir_var v;
           append_timestamp_var := false |},
        rules_of_lists (list_of_set e DEFAULT_EXCLUDED_FOLDERS_EXACT)
                       (list_of_set e DEFAULT_EXCLUDED_FOLDERS_PREFIX)).
Proof.
  intros [-> | [-> | ->]]; unfold load_config; simpl; destruct v; reflexivity.
Qed.

Lemma lower_set_perm (l k : list string) : l ≡ₚ k -> lower_set l = lower_set k.
Proof.
  intros Hp. apply set_eq. intros x. rewrite !elem_of_lower_set.
  split; intros (y & Hy & ->); exists y; split; try reflexivity.
  - now rewrite <- Hp.
  - now rewrite Hp.
Qed.

(** Whatever the order of the lists, the default names exclude what
    [default_rules] excludes. *)
Lemma default_lists_exclude (e : env) (n : string) :
  iteration_order_ok e ->
  is_excluded (rules_of_lists (list_of_set e DEFAULT_EXCLUDED_FOLDERS_EXACT)
                              (list_of_set e DEFAULT_EXCLUDED_FOLDERS_PREFIX)) n
  = is_excluded default_rules n.
Proof.
  intros Hok. apply is_excluded_ext; simpl; apply lower_set_perm, Hok.
Qed.

(** A stored path that is no directory any more is not applied. *)
Lemma load_config_drops_stale_paths (e : env) (doc : config_doc) (v : vars)
  (v' : vars) (g' : rules) :
  load_config e (FileJsonObject doc) v = Ok (v', g') ->
  (source_dir_var v' = source_dir_var v
   \/ (cfg_source_dir doc = Some (source_dir_var v') /\ isdir e (source_dir_var v') = true))
  /\ (dest_dir_var v' = dest_dir_var v
      \/ (cfg_dest_dir doc = Some (dest_dir_var v') /\ isdir e (dest_dir_var v') = true)).
Proof.
  unfold load_config. simpl. intros [= <- _]. simpl.
  destruct (cfg_source_dir doc) as [s|], (cfg_dest_dir doc) as [d|]; simpl.
  - destruct (negb (String.eqb s "") && isdir e s) eqn:Hs,
             (negb (String.eqb d "") && isdir e d) eqn:Hd; simpl;
      repeat match goal with
             | H : _ && _ = true |- _ => apply andb_true_iff in H as [_ H]
             end; auto.
  - destruct (negb (String.eqb s "") && isdir e s) eqn:Hs; simpl;
      repeat match goal with
             | H : _ && _ = true |- _ => apply andb_true_iff in H as [_ H]
             end; auto.
  - destruct (negb (String.eqb d "") && isdir e d) eqn:Hd; simpl;
      repeat match goal with
             | H : _ && _ = true |- _ => apply andb_true_iff in H as [_ H]
             end; auto.
  - auto.
Qed.

(** C8 (the code departs from it): a configuration file that holds a JSON
    value other than an object, such as the empty array, is read without
    an exception inside the [try] block, and the first [config.get] after
    it raises [AttributeError]: the load is fatal.  The failures the
    [try] block does catch (no file, a file that cannot be read, a file
    that is no JSON) end as specified: nothing is raised, the paths
    stay, the time stamp is off and the rules are the default names.  A
    file that holds an object loads without an error, and a path stored
    in it is applied only when it still is a directory. *)
Theorem load_config_non_object_raises (e : env) (v : vars) (j : json_scalar_or_array)
  (f : config_file) :
  load_config e (FileJsonOther j) v = Raise AttributeError
  /\ load_config e (FileJsonOther (JArray 0)) v = Raise AttributeError
  /\ (f = FileMissing \/ f = FileUnreadable \/ f = FileNotJson ->
      exists g,
        load_config e f v
        = Ok ({| source_dir_var := source_dir_var v;
                 dest_dir_var := dest_dir_var v;
                 append_timestamp_var := false |}, g)
        /\ rules_in_sync g
        /\ (iteration_order_ok e ->
            excluded_exact_list g ≡ₚ elements DEFAULT_EXCLUDED_FOLDERS_EXACT
            /\ excluded_prefix_list g ≡ₚ elements DEFAULT_EXCLUDED_FOLDERS_PREFIX
            /\ forall n, is_excluded g n = is_excluded default_rules n))
  /\ (forall doc, exists v' g',
        load_config e (FileJsonObject doc) v = Ok (v', g')
        /\ (source_dir_var v' = source_dir_var v
            \/ (cfg_source_dir doc = Some (source_dir_var v')
                /\ isdir e (source_dir_var v') = true))
        /\ (dest_dir_var v' = dest_dir_var v
            \/ (cfg_dest_dir doc = Some (dest_dir_var v')
                /\ isdir e (dest_dir_var v') = true))).
Proof.
  split; [reflexivity|]. split; [reflexivity|]. split.
  - intros Hf. eexists. split; [now apply load_config_falls_back|].
    split; [apply rules_of_lists_in_sync|].
    intros Hok. split; [apply Hok|]. split; [apply Hok|].
    intros n. now apply default_lists_exclude.
  - intros doc. eexists _, _. split; [reflexivity|].
    eapply (load_config_drops_stale_paths e doc v). reflexivity.
Qed.

End with_library.

Lemma load_config_non_object_raises_witness :
  load_config sample_env (FileJsonOther (JArray 0)) fresh_vars = Raise AttributeError
  /\ exists g,
       load_config sample_env FileMissing fresh_vars = Ok (fresh_vars, g)
       /\ is_excluded g "Node_Modules" = true /\ is_excluded g "src" = false.
Proof.
  destruct (load_config_non_object_raises sample_env fresh_vars (JArray 0) FileMissing)
    as (_ & Hraise & Hfall & _).
  split; [exact Hraise|].
  destruct Hfall as (g & Hload & _ & Hdefault); [now left|].
  exists g. split; [exact Hload|].
  destruct Hdefault as (_ & _ & Hsame); [intros s; reflexivity|].
  rewrite !Hsame. split; reflexivity.
Defined.

Section with_library.
Context {U : Py.str_methods} {FS : file_system}.


(** ** The destination-containment check *)

Lemma split_nonempty (c : ascii) (s : string) : Py.split c s <> [].
Proof.
  destruct s as [|a s]; simpl; [discriminate|].
  destruct (Ascii.eqb a c); [discriminate|].
  destruct (Py.split c s); discriminate.
Qed.

Lemma split_app_sep (c : ascii) (a b : string) :
  Py.split c (a +:+ String c b) = Py.split c a ++ Py.split c b.
Proof.
  induction a as [|x a IH]; simpl.
  - now rewrite Ascii.eqb_refl.
  - destruct (Ascii.eqb x c); [now rewrite IH|].
    rewrite IH. pose proof (split_nonempty c a) as Hne.
    destruct (Py.split c a) as [|w ws]; [contradiction|reflexivity].
Qed.

Lemma components_app_sep (a b : string) :
  posixpath.components (a +:+ "/" +:+ b)
  = posixpath.components a ++ posixpath.components b.
Proof.
  unfold posixpath.components.
  change (a +:+ "/" +:+ b) with (a +:+ String posixpath.sep b).
  now rewrite split_app_sep, filter_app.
Qed.

Lemma slice_to_app (a b : string) :
  a <> "" -> Py.slice_to (a +:+ b) 1 = Py.slice_to a 1.
Proof. destruct a as [|x a]; [contradiction|reflexivity]. Qed.

Lemma list_leb_refl (l : list string) : Py.list_leb l l = true.
Proof.
  induction l as [|x l IH]; [reflexivity|]. simpl. now rewrite String.eqb_refl.
Qed.

Lemma list_leb_app (l k : list string) : Py.list_leb l (l ++ k) = true.
Proof.
  induction l as [|x l IH]; [reflexivity|]. simpl. now rewrite String.eqb_refl.
Qed.

Lemma common_loop_app (l k : list string) : posixpath.common_loop l (l ++ k) = l.
Proof.
  induction l as [|x l IH]; [reflexivity|]. simpl.
  now rewrite String.eqb_refl, IH.
Qed.

Lemma common_loop_refl (l : list string) : posixpath.common_loop l l = l.
Proof.
  rewrite <- (app_nil_r l) at 2. apply common_loop_app.
Qed.

Lemma common_loop_comm (a b : list string) :
  posixpath.common_loop a b = posixpath.common_loop b a.
Proof.
  revert b. induction a as [|x a IH]; intros [|y b]; simpl; try reflexivity.
  rewrite (String.eqb_sym y x). destruct (String.eqb x y) eqn:Hxy; [|reflexivity].
  apply String.eqb_eq in Hxy. subst y. now rewrite IH.
Qed.

Lemma common_loop_prefix (a b : list string) :
  exists r, a = posixpath.common_loop a b ++ r.
Proof.
  revert b. induction a as [|x a IH]; intros b; [now exists []|].
  destruct b as [|y b]; simpl; [now exists (x :: a)|].
  destruct (String.eqb x y); [|now exists (x :: a)].
  destruct (IH b) as [r Hr]. exists r. simpl. now rewrite <- Hr.
Qed.

Lemma common_loop_full (a b : list string) :
  posixpath.common_loop a b = a -> exists k, b = a ++ k.
Proof.
  revert b. induction a as [|x a IH]; intros b; [now exists b|].
  destruct b as [|y b]; simpl; [discriminate|].
  destruct (String.eqb x y) eqn:Hxy; [|discriminate].
  apply String.eqb_eq in Hxy. subst y. intros [= H].
  destruct (IH b H) as [k ->]. now exists k.
Qed.

Lemma str_leb_antisym (a b : string) :
  Py.str_leb a b = true -> Py.str_leb b a = true -> a = b.
Proof.
  revert b. induction a as [|x a IH]; intros [|y b]; simpl; try easy.
  rewrite (Ascii.eqb_sym y x). destruct (Ascii.eqb x y) eqn:Hxy.
  - apply Ascii.eqb_eq in Hxy. subst y. intros H1 H2. f_equal. now apply IH.
  - intros H1 H2. apply Nat.ltb_lt in H1, H2. lia.
Qed.

Lemma str_leb_total (a b : string) :
  Py.str_leb a b = false -> Py.str_leb b a = true.
Proof.
  revert b. induction a as [|x a IH]; intros [|y b]; simpl; try easy.
  rewrite (Ascii.eqb_sym y x). destruct (Ascii.eqb x y) eqn:Hxy.
  - apply IH.
  - intros H. apply Nat.ltb_ge in H. apply Nat.ltb_lt.
    assert (nat_of_ascii x <> nat_of_ascii y); [|lia].
    intros Heq. apply (f_equal ascii_of_nat) in Heq.
    rewrite !ascii_nat_embedding in Heq. subst y.
    now rewrite Ascii.eqb_refl in Hxy.
Qed.

Lemma list_leb_antisym (a b : list string) :
  Py.list_leb a b = true -> Py.list_leb b a = true -> a = b.
Proof.
  revert b. induction a as [|x a IH]; intros [|y b]; simpl; try easy.
  rewrite (String.eqb_sym y x). destruct (String.eqb x y) eqn:Hxy.
  - apply String.eqb_eq in Hxy. subst y. intros H1 H2. f_equal. now apply IH.
  - intros H1 H2. apply String.eqb_neq in Hxy. exfalso. apply Hxy.
    now apply str_leb_antisym.
Qed.

Lemma list_leb_total (a b : list string) :
  Py.list_leb a b = false -> Py.list_leb b a = true.
Proof.
  revert b. induction a as [|x a IH]; intros [|y b]; simpl; try easy.
  rewrite (String.eqb_sym y x). destruct (String.eqb x y) eqn:Hxy.
  - apply IH.
  - apply str_leb_total.
Qed.

(** [commonpath] of one path: its components, joined. *)
Lemma commonpath_single (p : string) :
  posixpath.commonpath [p]
  = Ok ((if String.eqb (Py.slice_to p 1) "/" then "/" else "")
        +:+ Py.join "/" (posixpath.components p)).
Proof.
  unfold posixpath.commonpath. simpl.
  unfold posixpath.list_min, posixpath.list_max. simpl.
  now rewrite common_loop_refl.
Qed.

(** [commonpath] of two paths of one kind: the longest common prefix of
    their components, joined. *)
Lemma commonpath_pair (p q : string) :
  posixpath.commonpath [p; q]
  = if Bool.eqb (String.eqb (Py.slice_to q 1) "/") (String.eqb (Py.slice_to p 1) "/")
    then Ok ((if String.eqb (Py.slice_to p 1) "/" then "/" else "")
             +:+ Py.join "/" (posixpath.common_loop (posixpath.components p)
                                                    (posixpath.components q)))
    else Raise ValueError.
Proof.
  unfold posixpath.commonpath. simpl.
  destruct (Bool.eqb _ _); simpl; [|reflexivity].
  unfold posixpath.list_min, posixpath.list_max. simpl.
  destruct (Py.list_leb (posixpath.components p) (posixpath.components q)) eqn:Hpq,
           (Py.list_leb (posixpath.components q) (posixpath.components p)) eqn:Hqp.
  - now rewrite <- (list_leb_antisym _ _ Hpq Hqp).
  - reflexivity.
  - now rewrite (common_loop_comm (posixpath.components q)).
  - apply list_leb_total in Hpq. congruence.
Qed.

Lemma append_length (a b : string) :
  String.length (a +:+ b) = String.length a + String.length b.
Proof. induction a as [|x a IH]; simpl; [reflexivity|now rewrite IH]. Qed.

Lemma join_app_longer (a r : list string) :
  r <> [] -> Forall (fun c => c <> "") r ->
  String.length (Py.join "/" a) < String.length (Py.join "/" (a ++ r)).
Proof.
  intros Hr Hne. induction a as [|x a IH].
  - destruct r as [|y r]; [contradiction|]. simpl.
    apply Forall_cons in Hne as [Hy _].
    destruct y as [|cy y]; [contradiction|].
    destruct r; simpl; lia.
  - destruct a as [|y a].
    + destruct r as [|z r]; [contradiction|].
      change (String.length x < String.length (x +:+ "/" +:+ Py.join "/" (z :: r))).
      rewrite !append_length. simpl. lia.
    + change (String.length (x +:+ "/" +:+ Py.join "/" (y :: a))
              < String.length (x +:+ "/" +:+ Py.join "/" ((y :: a) ++ r))).
      rewrite !append_length. simpl in IH |- *. lia.
Qed.

Lemma components_nonempty (p : string) :
  Forall (fun c => c <> "") (posixpath.components p).
Proof.
  unfold posixpath.components.
  induction (Py.split posixpath.sep p) as [|c l IH]; [constructor|].
  rewrite filter_cons. destruct (decide _) as [Hk | Hk]; [|exact IH].
  constructor; [|exact IH].
  intros ->. discriminate.
Qed.

Lemma destination_nested_self (src : string) : destination_nested src src = true.
Proof. unfold destination_nested. now rewrite String.eqb_refl. Qed.

Lemma destination_nested_below (src sub : string) :
  src <> "" -> destination_nested src (src +:+ "/" +:+ sub) = true.
Proof.
  intros Hsrc. unfold destination_nested.
  destruct (String.eqb src _); [reflexivity|].
  rewrite commonpath_single, commonpath_pair.
  rewrite (slice_to_app src _ Hsrc), Bool.eqb_reflx.
  rewrite components_app_sep, common_loop_app.
  apply String.eqb_refl.
Qed.

Lemma destination_not_nested (src dst : string) :
  ~ (exists k, posixpath.components dst = posixpath.components src ++ k) ->
  destination_nested src dst = false.
Proof.
  intros Hnot. unfold destination_nested.
  destruct (String.eqb src dst) eqn:Heq.
  { apply String.eqb_eq in Heq. subst dst. exfalso. apply Hnot.
    exists []. now rewrite app_nil_r. }
  rewrite commonpath_single, commonpath_pair.
  destruct (Bool.eqb _ _); [|reflexivity].
  apply String.eqb_neq. intros Hsame.
  apply (f_equal String.length) in Hsame. rewrite !append_length in Hsame.
  destruct (common_loop_prefix (posixpath.components src) (posixpath.components dst))
    as [r Hr].
  assert (Hrne : r <> []).
  { intros ->. rewrite app_nil_r in Hr. symmetry in Hr.
    apply common_loop_full in Hr. contradiction. }
  assert (Hrs : Forall (fun c => c <> "") r).
  { pose proof (components_nonempty src) as Hall. rewrite Hr in Hall.
    now apply Forall_app in Hall as [_ Hall]. }
  pose proof (join_app_longer
                (posixpath.common_loop (posixpath.components src)
                                       (posixpath.components dst)) r Hrne Hrs) as Hlt.
  rewrite <- Hr in Hlt. lia.
Qed.


Lemma append_nonempty_r (a b : string) : b <> "" -> a +:+ b <> "".
Proof. destruct a; simpl; [auto|discriminate]. Qed.

Lemma join_nonempty_r (a b : string) : b <> "" -> posixpath.join a b <> "".
Proof.
  intros Hb. unfold posixpath.join.
  destruct (Py.startswith b "/"); [exact Hb|].
  destruct (_ || _); [now apply append_nonempty_r|].
  apply append_nonempty_r. discriminate.
Qed.

Lemma get_actual_dest_dir_nonempty (v : vars) (t : datetime) (actual : string) :
  get_actual_dest_dir v t = Some actual -> actual <> "".
Proof.
  unfold get_actual_dest_dir.
  destruct (String.eqb (dest_dir_var v) "") eqn:Hd; [discriminate|].
  apply String.eqb_neq in Hd.
  destruct (append_timestamp_var v); [|now intros [= <-]].
  destruct (posixpath.splitext _) as [base ext].
  intros [= <-]. apply join_nonempty_r.
  destruct (negb _); apply append_nonempty_r; discriminate.
Qed.



Lemma slice_to_isabs (p : string) :
  String.eqb (Py.slice_to p 1) "/" = posixpath.isabs p.
Proof.
  unfold posixpath.isabs, Py.startswith. destruct p as [|c p]; [reflexivity|].
  rewrite prefix_String, prefix_nil_l, andb_true_r.
  change (Py.slice_to (String c p) 1) with (String c "").
  change (String.eqb (String c "") "/") with (Ascii.eqb c "/" && true).
  rewrite andb_true_r. apply Ascii.eqb_sym.
Qed.

(** What the test of the build answers, on the paths as written. *)
Lemma destination_nested_iff (src dst : string) :
  destination_nested src dst = true <-> written_below src dst.
Proof.
  unfold written_below, same_kind. split.
  - unfold destination_nested.
    destruct (String.eqb src dst) eqn:Heq.
    { apply String.eqb_eq in Heq. auto. }
    rewrite commonpath_single, commonpath_pair, !slice_to_isabs.
    destruct (Bool.eqb (posixpath.isabs dst) (posixpath.isabs src)) eqn:Hkind;
      [|discriminate].
    intros Hsame. right. split.
    { apply Bool.eqb_prop in Hkind. rewrite Hkind. apply Bool.eqb_reflx. }
    apply String.eqb_eq in Hsame.
    apply (f_equal String.length) in Hsame. rewrite !append_length in Hsame.
    destruct (common_loop_prefix (posixpath.components src) (posixpath.components dst))
      as [r Hr].
    destruct r as [|x r].
    + rewrite app_nil_r in Hr. symmetry in Hr. now apply common_loop_full in Hr.
    + assert (Hrs : Forall (fun c => c <> "") (x :: r)).
      { pose proof (components_nonempty src) as Hall. rewrite Hr in Hall.
        now apply Forall_app in Hall as [_ Hall]. }
      pose proof (join_app_longer
                    (posixpath.common_loop (posixpath.components src)
                                           (posixpath.components dst)) (x :: r)
                    ltac:(discriminate) Hrs) as Hlt.
      rewrite <- Hr in Hlt. lia.
  - intros [-> | [Hkind [k Hk]]]; [apply destination_nested_self|].
    unfold destination_nested. destruct (String.eqb src dst); [reflexivity|].
    rewrite commonpath_single, commonpath_pair, !slice_to_isabs.
    apply Bool.eqb_prop in Hkind. rewrite Hkind, Bool.eqb_reflx.
    rewrite Hk, common_loop_app. apply String.eqb_refl.
Qed.

Lemma written_below_sub (src sub : string) :
  src <> "" -> written_below src (src +:+ "/" +:+ sub).
Proof. intros Hsrc. apply destination_nested_iff. now apply destination_nested_below. Qed.



End with_library.



Section with_library.
Context {U : Py.str_methods} {FS : file_system}.


(** ** The copy executor *)

Lemma notifies_at_steady (total i : nat) :
  notifies_at (steady total) i = notifies total (i + 1).
Proof. reflexivity. Qed.

Lemma progress_events_S (total_at : reads) (lo n : nat) :
  progress_events total_at lo (S n)
  = (if notifies_at total_at lo then [Progress (lo + 1)] else [])
    ++ progress_events total_at (lo + 1) n.
Proof.
  unfold progress_events. simpl.
  replace (S lo) with (lo + 1) by lia.
  destruct (notifies_at total_at lo); reflexivity.
Qed.

Lemma copy_loop_step (total_at : reads) (src dst : string)
  (rest : list (string * string)) (i : nat) (d : disk) :
  (copy_entry d (src, dst)).2 = Ok tt ->
  copy_loop total_at ((src, dst) :: rest) i i d
  = ((copy_loop total_at rest (i + 1) (i + 1) (copy_entry d (src, dst)).1).1,
     (if notifies_at total_at i then [Progress (i + 1)] else [])
     ++ (copy_loop total_at rest (i + 1) (i + 1) (copy_entry d (src, dst)).1).2).
Proof.
  unfold copy_entry. simpl.
  destruct (makedirs d _) as [d1 [[]|err1]]; simpl; [|discriminate].
  destruct (copy2 d1 src dst) as [d2 [[]|err2]]; simpl; [|discriminate].
  intros _. unfold notifies_at.
  destruct (copy_loop total_at rest (i + 1) (i + 1) d2). reflexivity.
Qed.

Lemma copy_loop_stop (total_at : reads) (entry : string * string)
  (post : list (string * string)) (i : nat) (d : disk) (err : exn) :
  (copy_entry d entry).2 = Raise err ->
  copy_loop total_at (entry :: post) i i d = ((copy_entry d entry).1, [CopyFailed err]).
Proof.
  destruct entry as [src dst]. unfold copy_entry. simpl.
  destruct (makedirs d _) as [d1 [[]|err1]]; simpl; [|now intros [= ->]].
  destruct (copy2 d1 src dst) as [d2 [[]|err2]]; simpl; [discriminate|].
  now intros [= ->].
Qed.

(** A run in which every copy succeeds. *)
Lemma copy_loop_succeeds (total_at : reads) (entries : list (string * string)) :
  forall i d, (copy_entries d entries).2 = Ok tt ->
    copy_loop total_at entries i i d
    = ((copy_entries d entries).1,
       progress_events total_at i (length entries) ++ [CopyComplete]).
Proof.
  induction entries as [|[src dst] rest IH]; intros i d Hrun; [reflexivity|].
  simpl in Hrun.
  destruct (copy_entry d (src, dst)) as [d2 [[]|err]] eqn:Hentry; [|discriminate].
  rewrite (copy_loop_step total_at src dst rest i d) by now rewrite Hentry.
  simpl copy_entries. rewrite Hentry. simpl fst.
  rewrite (IH (i + 1) d2 Hrun). simpl length.
  now rewrite progress_events_S, <- app_assoc.
Qed.

(** A run in which the entry after [pre] is the first to fail. *)
Lemma copy_loop_fails (total_at : reads) (pre : list (string * string)) :
  forall i d entry post err,
    (copy_entries d pre).2 = Ok tt ->
    (copy_entry (copy_entries d pre).1 entry).2 = Raise err ->
    copy_loop total_at (pre ++ entry :: post) i i d
    = ((copy_entry (copy_entries d pre).1 entry).1,
       progress_events total_at i (length pre) ++ [CopyFailed err]).
Proof.
  induction pre as [|[src dst] rest IH]; intros i d entry post err Hrun Hfail.
  - now apply copy_loop_stop.
  - simpl in Hrun, Hfail.
    destruct (copy_entry d (src, dst)) as [d2 [[]|err2]] eqn:Hentry; [|discriminate].
    simpl app. rewrite (copy_loop_step total_at src dst _ i d) by now rewrite Hentry.
    simpl copy_entries. rewrite Hentry. simpl fst.
    rewrite (IH (i + 1) d2 entry post err Hrun Hfail). simpl length.
    now rewrite progress_events_S, <- app_assoc.
Qed.

(** Every run is of one of the two kinds. *)
Lemma copy_entries_outcome (entries : list (string * string)) :
  forall d,
    (copy_entries d entries).2 = Ok tt
    \/ (exists pre entry post err,
          entries = pre ++ entry :: post
          /\ (copy_entries d pre).2 = Ok tt
          /\ (copy_entry (copy_entries d pre).1 entry).2 = Raise err).
Proof.
  induction entries as [|entry rest IH]; intros d; [now left|].
  simpl. destruct (copy_entry d entry) as [d2 [[]|err]] eqn:Hentry.
  - destruct (IH d2) as [Hok | (pre & en & post & err & -> & Hpre & Hen)].
    + now left.
    + right. exists (entry :: pre), en, post, err.
      split; [reflexivity|]. simpl. rewrite Hentry. auto.
  - right. exists [], entry, rest, err. simpl. rewrite Hentry. auto.
Qed.






End with_library.



Section with_library.
Context {U : Py.str_methods} {FS : file_system}.

(** ** The notifications of a run *)

Lemma div_succ (k iv : nat) :
  1 <= iv -> S k / iv = k / iv + (if Nat.eqb (S k mod iv) 0 then 1 else 0).
Proof.
  intros Hiv.
  pose proof (Nat.div_mod_eq k iv) as Hk.
  pose proof (Nat.mod_upper_bound k iv ltac:(lia)) as Hr.
  destruct (Nat.eq_dec (S (k mod iv)) iv) as [Hfull | Hpart].
  - assert (Hq : S k = iv * (k / iv + 1) + 0) by nia.
    rewrite <- (Nat.div_unique (S k) iv (k / iv + 1) 0 ltac:(lia) Hq).
    rewrite <- (Nat.mod_unique (S k) iv (k / iv + 1) 0 ltac:(lia) Hq).
    reflexivity.
  - assert (Hq : S k = iv * (k / iv) + S (k mod iv)) by lia.
    rewrite <- (Nat.div_unique (S k) iv (k / iv) (S (k mod iv)) ltac:(lia) Hq).
    rewrite <- (Nat.mod_unique (S k) iv (k / iv) (S (k mod iv)) ltac:(lia) Hq).
    simpl. lia.
Qed.

(** Among [1], ..., [k] there are [k / iv] multiples of [iv]. *)
Lemma count_multiples (iv k : nat) :
  1 <= iv ->
  length (List.filter (fun j => Nat.eqb (j mod iv) 0) (seq 1 k)) = k / iv.
Proof.
  intros Hiv. induction k as [|k IH].
  - simpl. symmetry. apply Nat.div_small. lia.
  - rewrite seq_S, List.filter_app, length_app, IH, (div_succ k iv Hiv).
    simpl. destruct (Nat.eqb (S k mod iv) 0); reflexivity.
Qed.

Lemma filter_or_one (P : nat -> bool) (n k : nat) :
  forall a,
    length (List.filter (fun j => P j || Nat.eqb j n) (seq a k))
    <= length (List.filter P (seq a k))
       + (if Nat.leb a n && Nat.ltb n (a + k) then 1 else 0).
Proof.
  induction k as [|k IH]; intros a; simpl; [lia|].
  specialize (IH (S a)).
  destruct (P a); simpl.
  - destruct (Nat.leb (S a) n && Nat.ltb n (S a + k)) eqn:H1;
      destruct (Nat.leb a n && Nat.ltb n (a + S k)) eqn:H2; try lia.
    apply andb_true_iff in H1 as [H1a H1b].
    apply Nat.leb_le in H1a. apply Nat.ltb_lt in H1b.
    apply andb_false_iff in H2 as [H2 | H2];
      [apply Nat.leb_gt in H2 | apply Nat.ltb_ge in H2]; lia.
  - destruct (Nat.eqb a n) eqn:Han; simpl.
    + apply Nat.eqb_eq in Han. subst n.
      replace (Nat.leb (S a) a) with false in IH by (symmetry; apply Nat.leb_gt; lia).
      replace (Nat.leb a a && Nat.ltb a (a + S k)) with true
        by (symmetry; apply andb_true_iff; split;
            [apply Nat.leb_le | apply Nat.ltb_lt]; lia).
      simpl in IH. lia.
    + destruct (Nat.leb (S a) n && Nat.ltb n (S a + k)) eqn:H1;
        destruct (Nat.leb a n && Nat.ltb n (a + S k)) eqn:H2; try lia.
      apply andb_true_iff in H1 as [H1a H1b].
      apply Nat.leb_le in H1a. apply Nat.ltb_lt in H1b.
      apply andb_false_iff in H2 as [H2 | H2];
        [apply Nat.leb_gt in H2 | apply Nat.ltb_ge in H2]; lia.
Qed.

Lemma filter_length_le {A : Type} (P : A -> bool) (l : list A) :
  length (List.filter P l) <= length l.
Proof.
  induction l as [|x l IH]; simpl; [lia|]. destruct (P x); simpl; lia.
Qed.

(** The notifications for the first [k] files of [total] are at most 199,
    and at most one more than there are multiples of the interval. *)
Lemma notified_bound (total k : nat) :
  k <= total ->
  length (List.filter (notifies total) (seq 1 k)) <= 199
  /\ length (List.filter (notifies total) (seq 1 k))
     <= total / Nat.max 1 (total / 100) + 1.
Proof.
  intros Hk.
  set (iv := Nat.max 1 (total / 100)).
  assert (Hiv : 1 <= iv) by (unfold iv; lia).
  pose proof (filter_or_one (fun j => Nat.eqb (j mod iv) 0) total k 1) as Hor.
  rewrite (count_multiples iv k Hiv) in Hor.
  assert (Hle : length (List.filter (notifies total) (seq 1 k)) <= k / iv + 1).
  { unfold notifies. fold iv.
    destruct (Nat.leb 1 total && Nat.ltb total (1 + k)); lia. }
  assert (Hmono : k / iv <= total / iv) by (apply Nat.Div0.div_le_mono; lia).
  split; [|lia].
  destruct (Nat.lt_ge_cases total 200) as [Hsmall | Hbig].
  - pose proof (filter_length_le (notifies total) (seq 1 k)) as Hlen.
    rewrite length_seq in Hlen. lia.
  - assert (Hq : 2 <= total / 100)
      by (apply Nat.div_le_lower_bound; lia).
    assert (Hiv2 : iv = total / 100) by (unfold iv; lia).
    assert (Hup : total < iv * 150).
    { pose proof (Nat.div_mod_eq total 100) as Hdm.
      pose proof (Nat.mod_upper_bound total 100 ltac:(lia)) as Hr.
      rewrite Hiv2. lia. }
    assert (total / iv < 150) by (apply Nat.Div0.div_lt_upper_bound; lia).
    lia.
Qed.

Lemma progress_counts_events (total_at : reads) (lo k : nat) :
  progress_counts (progress_events total_at lo k)
  = map (fun i => i + 1) (List.filter (notifies_at total_at) (seq lo k)).
Proof.
  unfold progress_events.
  induction (List.filter (notifies_at total_at) (seq lo k)) as [|j l IH];
    [reflexivity|].
  simpl. now rewrite IH.
Qed.

Lemma progress_counts_sorted (total_at : reads) (k : nat) :
  forall lo, StronglySorted lt (progress_counts (progress_events total_at lo k)).
Proof.
  intros lo. rewrite progress_counts_events. revert lo.
  induction k as [|k IH]; intros lo; simpl; [constructor|].
  destruct (notifies_at total_at lo); [|apply IH].
  simpl. constructor; [apply IH|].
  apply List.Forall_forall. intros j Hj.
  apply in_map_iff in Hj as (i & <- & Hi).
  apply filter_In in Hi as [Hi _]. apply in_seq in Hi. lia.
Qed.

Lemma progress_counts_range (total_at : reads) (lo k : nat) :
  Forall (fun j => lo + 1 <= j <= lo + k)
         (progress_counts (progress_events total_at lo k)).
Proof.
  rewrite progress_counts_events.
  apply List.Forall_forall. intros j Hj.
  apply in_map_iff in Hj as (i & <- & Hi).
  apply filter_In in Hi as [Hi _]. apply in_seq in Hi. lia.
Qed.

Lemma progress_events_shape (total_at : reads) (lo k : nat) :
  Forall (fun ev => exists j, ev = Progress j) (progress_events total_at lo k).
Proof.
  unfold progress_events. apply List.Forall_forall. intros ev Hev.
  apply in_map_iff in Hev as (j & <- & _). now exists (j + 1).
Qed.

Lemma progress_events_length (total_at : reads) (lo k : nat) :
  length (progress_events total_at lo k)
  = length (List.filter (notifies_at total_at) (seq lo k)).
Proof. unfold progress_events. apply length_map. Qed.

(** The turns that notify when every read gives [total]. *)
Lemma steady_turns (total_at : reads) (total k : nat) :
  (forall i, total_at i = (total, total)) ->
  forall lo,
    length (List.filter (notifies_at total_at) (seq lo k))
    = length (List.filter (notifies total) (seq (lo + 1) k)).
Proof.
  intros Hsteady. induction k as [|k IH]; intros lo; [reflexivity|].
  simpl. specialize (IH (S lo)).
  replace (notifies_at total_at lo) with (notifies total (lo + 1))
    by (unfold notifies_at; now rewrite Hsteady).
  replace (S (lo + 1)) with (S lo + 1) by lia.
  destruct (notifies total (lo + 1)); simpl; now rewrite IH.
Qed.

Lemma steady_last (total_at : reads) (total : nat) :
  (forall i, total_at i = (total, total)) ->
  0 < total -> last (progress_events total_at 0 total) = Some (Progress total).
Proof.
  intros Hsteady Hpos. unfold progress_events.
  destruct total as [|n]; [lia|].
  rewrite seq_S, List.filter_app, map_app. simpl.
  replace (notifies_at total_at n) with true.
  - simpl. replace (n + 1) with (S n) by lia. apply last_snoc.
  - unfold notifies_at. rewrite Hsteady. simpl fst. simpl snd.
    replace (n + 1) with (S n) by lia.
    now rewrite Nat.eqb_refl, orb_true_r.
Qed.

(** C7 (amended): the notifications of a run over a plan whose stored
    count is its length.  The trace of [copy_thread] is a list of
    notifications followed by exactly one closing event: the completion,
    after a run in which every copy succeeded, or the failure, and then
    every notification shows less than the total.  The counts rise
    strictly and lie between one and the total.  This holds whatever is
    assigned to the global meanwhile.  In a run during which every read
    of the global gives the stored count, there are at most 199
    notifications (and at most one more than the total divided by the
    interval), and the last notification of a run that completes shows
    the total itself. *)
Theorem progress_notifications_bounded (total_at : reads) (c : calc) (d : disk) :
  total_files_count c = length (files_to_copy_list c) ->
  exists ps terminal,
    (copy_thread total_at c d).2 = ps ++ [terminal]
    /\ Forall (fun ev => exists j, ev = Progress j) ps
    /\ StronglySorted lt (progress_counts ps)
    /\ Forall (fun j => 1 <= j <= total_files_count c) (progress_counts ps)
    /\ ((terminal = CopyComplete
         /\ (copy_entries d (files_to_copy_list c)).2 = Ok tt)
        \/ (exists err, terminal = CopyFailed err
                        /\ Forall (fun j => j < total_files_count c)
                                  (progress_counts ps)))
    /\ ((forall i, total_at i = (total_files_count c, total_files_count c)) ->
        length ps <= 199
        /\ length ps
           <= total_files_count c / Nat.max 1 (total_files_count c / 100) + 1
        /\ (terminal = CopyComplete -> 0 < total_files_count c ->
            last ps = Some (Progress (total_files_count c)))).
Proof.
  intros Htotal. unfold copy_thread.
  destruct (copy_entries_outcome (files_to_copy_list c) d)
    as [Hrun | (pre & entry & post & err & Hfiles & Hpre & Hfail)].
  - rewrite (copy_loop_succeeds total_at _ 0 d Hrun), <- Htotal. simpl.
    exists (progress_events total_at 0 (total_files_count c)), CopyComplete.
    split; [reflexivity|]. split; [apply progress_events_shape|].
    split; [apply progress_counts_sorted|]. split.
    { eapply Forall_impl; [apply progress_counts_range|]. simpl. intros j Hj. lia. }
    split; [left; split; [reflexivity|exact Hrun]|].
    intros Hsteady.
    rewrite progress_events_length, (steady_turns total_at _ _ Hsteady 0).
    destruct (notified_bound (total_files_count c) (total_files_count c) (le_n _))
      as [H199 Hiv].
    split; [exact H199|]. split; [exact Hiv|].
    intros _. now apply steady_last.
  - rewrite Hfiles, (copy_loop_fails total_at pre 0 d entry post err Hpre Hfail). simpl.
    assert (Hlt : length pre < total_files_count c).
    { rewrite Htotal, Hfiles, length_app. simpl. lia. }
    exists (progress_events total_at 0 (length pre)), (CopyFailed err).
    split; [reflexivity|]. split; [apply progress_events_shape|].
    split; [apply progress_counts_sorted|]. split.
    { eapply Forall_impl; [apply progress_counts_range|]. simpl. intros j Hj. lia. }
    split.
    { right. exists err. split; [reflexivity|].
      eapply Forall_impl; [apply progress_counts_range|]. simpl. intros j Hj. lia. }
    intros Hsteady.
    rewrite progress_events_length, (steady_turns total_at _ _ Hsteady 0).
    destruct (notified_bound (total_files_count c) (length pre) ltac:(lia))
      as [H199 Hiv].
    split; [exact H199|]. split; [exact Hiv|]. discriminate.
Qed.

End with_library.

Lemma progress_notifications_bounded_witness :
  total_files_count (plan_of (numbered_plan 250)) = 250
  /\ exists ps terminal,
       (copy_thread (steady 250) (plan_of (numbered_plan 250))
                    (disk_with (map fst (numbered_plan 250)) [])).2 = ps ++ [terminal]
       /\ StronglySorted lt (progress_counts ps)
       /\ length ps <= 199.
Proof.
  split; [vm_compute; reflexivity|].
  destruct (progress_notifications_bounded (FS := sim_fs) (steady 250)
              (plan_of (numbered_plan 250))
              (disk_with (map fst (numbered_plan 250)) []))
    as (ps & terminal & Htrace & _ & Hsorted & _ & _ & Hsteady);
    [vm_compute; reflexivity|].
  destruct Hsteady as [Hbound _]; [reflexivity|].
  exists ps, terminal. auto.
Defined.

(** C7 as stated fails.  On the simulated disk, the run over a plan of
    199 files, all of which are copied, sends 199 notifications, one for
    every file.  And a run of three files that completes sends none for
    the last file when, before its third turn, the global has been
    assigned the count of another plan of two hundred files. *)
Lemma progress_notifications_bounded_counterexample :
  (let run := copy_thread (steady 199) (plan_of (numbered_plan 199))
                          (disk_with (map fst (numbered_plan 199)) []) in
   length (progress_counts run.2) = 199 /\ last run.2 = Some CopyComplete)
  /\ (copy_thread (fun i => if Nat.ltb i 2 then (3, 3) else (200, 200))
                  (plan_of three_entries)
                  (disk_with ["/proj/a"; "/proj/b"; "/proj/c"] [])).2
     = [Progress 1; Progress 2; CopyComplete].
Proof. vm_compute. repeat split. Qed.


Section with_library.
Context {U : Py.str_methods} {FS : file_system}.

(* ================================================================== *)
(** * Part III: further properties of the code *)
(* ================================================================== *)


(** ** Saving and loading the configuration *)

Lemma load_config_object (e : env) (doc : config_doc) (v : vars) :
  exists v', 
    load_config e (FileJsonObject doc) v
    = Ok (v', rules_of_lists
                (default (list_of_set e DEFAULT_EXCLUDED_FOLDERS_EXACT)
                         (cfg_excluded_exact doc))
                (default (list_of_set e DEFAULT_EXCLUDED_FOLDERS_PREFIX)
                         (cfg_excluded_prefix doc)))
    /\ append_timestamp_var v' = default false (cfg_append_timestamp doc)
    /\ source_dir_var v'
       = (if negb (String.eqb (default "" (cfg_source_dir doc)) "")
             && isdir e (default "" (cfg_source_dir doc))
          then default "" (cfg_source_dir doc) else source_dir_var v)
    /\ dest_dir_var v'
       = (if negb (String.eqb (default "" (cfg_dest_dir doc)) "")
             && isdir e (default "" (cfg_dest_dir doc))
          then default "" (cfg_dest_dir doc) else dest_dir_var v).
Proof.
  unfold load_config. simpl. eexists. split; [reflexivity|]. simpl.
  split; [reflexivity|].
  destruct (negb _ && isdir e (default "" (cfg_source_dir doc)));
    destruct (negb _ && isdir e (default "" (cfg_dest_dir doc))); simpl; auto.
Qed.

(** X1: what [save_config] writes, [load_config] reads back.  The stored
    rule lists return as they were, with the lower-cased sets derived from
    them; the time-stamp switch returns; a stored path returns when it
    still is a directory; and into the very variables that were saved the
    load changes nothing. *)
Theorem save_then_load_restores (e : env) (v v0 : vars) (g : rules) (old : config_file) :
  exists v' g',
    load_config e (save_config Written v g old) v0 = Ok (v', g')
    /\ excluded_exact_list g' = excluded_exact_list g
    /\ excluded_prefix_list g' = excluded_prefix_list g
    /\ rules_in_sync g'
    /\ append_timestamp_var v' = append_timestamp_var v
    /\ (rules_in_sync g -> forall n, is_excluded g' n = is_excluded g n)
    /\ (source_dir_var v <> "" -> isdir e (source_dir_var v) = true ->
        source_dir_var v' = source_dir_var v)
    /\ (dest_dir_var v <> "" -> isdir e (dest_dir_var v) = true ->
        dest_dir_var v' = dest_dir_var v)
    /\ (v0 = v -> v' = v).
Proof.
  destruct (load_config_object e (config_of v g) v0) as (v' & Hload & Hts & Hsrc & Hdst).
  simpl in Hload, Hts, Hsrc, Hdst.
  exists v', (rules_of_lists (excluded_exact_list g) (excluded_prefix_list g)).
  split; [exact Hload|]. split; [reflexivity|]. split; [reflexivity|].
  split; [apply rules_of_lists_in_sync|]. split; [exact Hts|].
  split.
  { intros [Hex Hpre] n. apply is_excluded_ext; simpl; congruence. }
  split.
  { intros Hne Hdir. rewrite Hsrc, (string_eqb_false _ _ Hne), Hdir. reflexivity. }
  split.
  { intros Hne Hdir. rewrite Hdst, (string_eqb_false _ _ Hne), Hdir. reflexivity. }
  intros ->. destruct v' as [s' d' t'], v as [s d t]. simpl in *.
  subst t'. f_equal.
  - rewrite Hsrc. destruct (negb (String.eqb s "") && isdir e s); reflexivity.
  - rewrite Hdst. try reflexivity; destruct (negb (String.eqb d "") && isdir e d); reflexivity.
Qed.

End with_library.

Lemma save_then_load_restores_witness :
  exists v' g',
    load_config sample_env
      (save_config Written (vars_of_build "/proj" "/backup") default_rules FileMissing)
      fresh_vars = Ok (v', g')
    /\ source_dir_var v' = "/proj"
    /\ dest_dir_var v' = ""
    /\ forall n, is_excluded g' n = is_excluded default_rules n.
Proof.
  destruct (save_then_load_restores sample_env (vars_of_build "/proj" "/backup")
              fresh_vars default_rules FileMissing)
    as (v' & g' & Hload & _ & _ & _ & _ & Hsame & Hsrc & _ & _).
  exists v', g'. split; [exact Hload|].
  split; [apply Hsrc; [discriminate|reflexivity]|].
  split; [|apply Hsame, default_rules_in_sync].
  vm_compute in Hload. now injection Hload as <- _.
Defined.

Section with_library.
Context {U : Py.str_methods} {FS : file_system}.

(** ** More on the plan builder *)

Lemma assoc_map_rel {A S : Type} (W1 W2 : string * A -> S -> S)
  (l : list (string * A)) (name : string) :
  (forall p, In p l -> forall s, W1 p s = W2 p s) ->
  match assoc name (map (fun q => (fst q, W1 q)) l),
        assoc name (map (fun q => (fst q, W2 q)) l) with
  | Some d1, Some d2 => forall s, d1 s = d2 s
  | None, None => True
  | _, _ => False
  end.
Proof.
  induction l as [|q l IH]; intros Hrel; simpl; [exact I|].
  destruct (String.eqb (fst q) name).
  - apply Hrel. now left.
  - apply IH. intros p Hp. apply Hrel. now right.
Qed.

Lemma os_walk_ext {S : Type}
  (body1 body2 : string -> list string -> list string -> S -> list string * S) :
  (forall top dirs files s, body1 top dirs files s = body2 top dirs files s) ->
  forall t top s, os_walk body1 top t s = os_walk body2 top t s.
Proof.
  intros Hbody. induction t as [files subdirs IH] using tree_ind'.
  intros top s. rewrite !os_walk_Dir, Hbody.
  generalize (body2 top (map fst subdirs) files s).2 as s1.
  induction (body2 top (map fst subdirs) files s).1 as [|name dirs IHd];
    intros s1; [reflexivity|].
  simpl.
  pose proof (assoc_map_rel
                (fun p => os_walk body1 (posixpath.join top (fst p)) (snd p))
                (fun p => os_walk body2 (posixpath.join top (fst p)) (snd p))
                subdirs name) as Hrel.
  simpl in Hrel.
  destruct (assoc name _) as [d1|], (assoc name _) as [d2|];
    try (exfalso; apply Hrel; intros p Hp s2; rewrite Forall_forall in IH;
         apply (IH p); now apply list_elem_of_In); try apply IHd.
  rewrite Hrel; [apply IHd|].
  intros p Hp s2. rewrite Forall_forall in IH. apply (IH p). now apply list_elem_of_In.
Qed.

Lemma filter_keeps_all (g : rules) (dirs : list string) :
  (forall n, is_excluded g n = false) ->
  filter (fun d => is_excluded g d = false) dirs = dirs.
Proof.
  intros Hnone. induction dirs as [|d dirs IH]; [reflexivity|].
  rewrite filter_cons. destruct (decide _) as [_ | Hd]; [now rewrite IH|].
  exfalso. apply Hd, Hnone.
Qed.

Lemma no_exclusions_same_plan (e : env) (g : rules) (source_dir actual_dest_dir : string)
  (t : tree) :
  (forall n, is_excluded g n = false) ->
  calculation_thread e g false source_dir actual_dest_dir t
  = calculation_thread e g true source_dir actual_dest_dir t.
Proof.
  intros Hnone. unfold calculation_thread.
  rewrite (os_walk_ext (calculation_body e g false source_dir actual_dest_dir)
                       (calculation_body e g true source_dir actual_dest_dir));
    [reflexivity|].
  intros top dirs files [acc|x]; [|reflexivity].
  unfold calculation_body. simpl. now rewrite filter_keeps_all.
Qed.

Lemma lower_set_nil : lower_set [] = ∅.
Proof. reflexivity. Qed.

(** X3: rule lists that are present and empty in the configuration are
    taken as they are, not replaced by the defaults: after such a load no
    folder name is excluded, and a selective build gives the plan of a
    full build, for every tree. *)
Theorem empty_rule_lists_exclude_nothing (e : env) (doc : config_doc) (v v' : vars)
  (g' : rules) :
  cfg_excluded_exact doc = Some [] ->
  cfg_excluded_prefix doc = Some [] ->
  load_config e (FileJsonObject doc) v = Ok (v', g') ->
  (forall n, is_excluded g' n = false)
  /\ (forall source_dir actual_dest_dir t,
        calculation_thread e g' false source_dir actual_dest_dir t
        = calculation_thread e g' true source_dir actual_dest_dir t).
Proof.
  intros Hex Hpre Hload.
  destruct (load_config_object e doc v) as (v1 & Hload1 & _).
  rewrite Hload1, Hex, Hpre in Hload. simpl in Hload. injection Hload as _ <-.
  assert (Hnone : forall n, is_excluded (rules_of_lists [] []) n = false).
  { intros n. unfold is_excluded. simpl.
    rewrite bool_decide_eq_false_2 by apply not_elem_of_empty.
    now rewrite lower_set_nil, elements_empty. }
  split; [exact Hnone|].
  intros. now apply no_exclusions_same_plan.
Qed.

End with_library.

Lemma empty_rule_lists_exclude_nothing_witness :
  exists v' g',
    load_config sample_env (FileJsonObject doc_without_rules) fresh_vars = Ok (v', g')
    /\ is_excluded g' "node_modules" = false
    /\ calculation_thread sample_env g' false "/proj" "/backup" sample_tree
       = calculation_thread sample_env g' true "/proj" "/backup" sample_tree.
Proof.
  destruct (load_config sample_env (FileJsonObject doc_without_rules) fresh_vars)
    as [[v' g']|err] eqn:Hload; [|vm_compute in Hload; discriminate].
  exists v', g'. split; [reflexivity|].
  destruct (empty_rule_lists_exclude_nothing sample_env doc_without_rules fresh_vars
              v' g' eq_refl eq_refl Hload) as [Hnone Hsame].
  split; [apply Hnone | apply Hsame].
Defined.

Section with_library.
Context {U : Py.str_methods} {FS : file_system}.


Lemma map_filter_sublist {A B : Type} (f : A -> B) (P : A -> bool) (l : list A) :
  map f (List.filter P l) `sublist_of` map f l.
Proof.
  induction l as [|x l IH]; simpl; [constructor|].
  destruct (P x); simpl; [now apply sublist_skip | now apply sublist_cons].
Qed.

(** X4: on one tree and one set of rules, the selective plan is the full
    plan with entries left out: every selective entry is in the full plan,
    the order is the same, and the selective count is not the larger. *)
Theorem selective_plan_within_full (e : env) (g : rules)
  (source_dir actual_dest_dir : string) (t : tree) :
  source_dir <> "" -> wf_tree t = true ->
  exists selective_plan full_plan,
    calculation_thread e g false source_dir actual_dest_dir t
    = CalcResult selective_plan (length selective_plan)
    /\ calculation_thread e g true source_dir actual_dest_dir t
       = CalcResult full_plan (length full_plan)
    /\ selective_plan `sublist_of` full_plan
    /\ length selective_plan <= length full_plan.
Proof.
  intros Hsrc Hwf.
  rewrite (calculation_thread_plan e g false _ _ t Hsrc Hwf).
  rewrite (calculation_thread_plan e g true _ _ t Hsrc Hwf).
  rewrite filter_reached_full.
  eexists _, _. split; [now rewrite length_map|]. split; [now rewrite length_map|].
  assert (Hsub := map_filter_sublist (plan_entry e source_dir actual_dest_dir)
                    (reached g false) (tree_files t)).
  split; [exact Hsub|]. now apply sublist_length.
Qed.

End with_library.

Lemma selective_plan_within_full_witness :
  wf_tree sample_tree = true
  /\ exists selective_plan full_plan,
       calculation_thread sample_env default_rules false "/proj" "/backup" sample_tree
       = CalcResult selective_plan (length selective_plan)
       /\ calculation_thread sample_env default_rules true "/proj" "/backup" sample_tree
          = CalcResult full_plan (length full_plan)
       /\ selective_plan `sublist_of` full_plan
       /\ length selective_plan <= length full_plan.
Proof.
  split; [reflexivity|].
  apply (selective_plan_within_full sample_env default_rules "/proj" "/backup"
           sample_tree); [discriminate | reflexivity].
Defined.

Section with_library.
Context {U : Py.str_methods} {FS : file_system}.

(** X6: how a build leaves the plan globals.  When a check fails (a path
    is not set, the source is no directory, the destination lies in the
    source) the globals stay as they were, so a plan computed before
    remains; when the build ends without an error the mode is recorded.
    An unset source or destination is reported before the source is
    looked at. *)
Theorem build_leaves_plan_on_check_failure (e : env) (v : vars) (g : rules)
  (ignore_exclusions : bool) (mode : calc_mode) (c : calc) :
  (forall err, (_start_file_calculation e v g ignore_exclusions mode c).2 = Some err ->
               err = DestinationUnsetError \/ err = SourceNotFoundError
               \/ err = DestinationNestedError ->
               (_start_file_calculation e v g ignore_exclusions mode c).1 = c)
  /\ ((_start_file_calculation e v g ignore_exclusions mode c).2 = None ->
      last_calculation_mode (_start_file_calculation e v g ignore_exclusions mode c).1
      = Some mode)
  /\ (source_dir_var v = "" \/ dest_dir_var v = "" ->
      _start_file_calculation e v g ignore_exclusions mode c
      = (c, Some DestinationUnsetError))
  /\ (source_dir_var v <> "" -> dest_dir_var v <> "" ->
      fs e (source_dir_var v) = None ->
      _start_file_calculation e v g ignore_exclusions mode c
      = (c, Some SourceNotFoundError)).
Proof.
  split; [|split; [|split]].
  - intros err. unfold _start_file_calculation.
    destruct (get_actual_dest_dir v (now e)) as [actual|]; [|reflexivity].
    destruct (String.eqb (source_dir_var v) "" || String.eqb actual ""); [reflexivity|].
    destruct (fs e (source_dir_var v)) as [t|]; [|reflexivity].
    destruct (destination_nested _ _); [reflexivity|].
    destruct (calculation_thread e g ignore_exclusions (source_dir_var v) actual t)
      as [fl n|x]; simpl; [discriminate|].
    intros [= <-] [Herr | [Herr | Herr]]; discriminate.
  - unfold _start_file_calculation.
    destruct (get_actual_dest_dir v (now e)) as [actual|]; [|discriminate].
    destruct (_ || _); [discriminate|].
    destruct (fs e (source_dir_var v)) as [t|]; [|discriminate].
    destruct (destination_nested _ _); [discriminate|].
    destruct (calculation_thread _ _ _ _ _ _); [reflexivity|discriminate].
  - intros [Hsrc | Hdst]; unfold _start_file_calculation.
    + rewrite Hsrc. destruct (get_actual_dest_dir v (now e)); reflexivity.
    + unfold get_actual_dest_dir. now rewrite Hdst.
  - intros Hsrc Hdst Hfs. unfold _start_file_calculation.
    destruct (get_actual_dest_dir v (now e)) as [actual|] eqn:Hact.
    + rewrite (string_eqb_false _ _ Hsrc).
      rewrite (string_eqb_false _ _ (get_actual_dest_dir_nonempty _ _ _ Hact)).
      simpl. now rewrite Hfs.
    + unfold get_actual_dest_dir in Hact. rewrite (string_eqb_false _ _ Hdst) in Hact.
      destruct (append_timestamp_var v); [|discriminate].
      destruct (posixpath.splitext _); discriminate.
Qed.

End with_library.

Lemma build_leaves_plan_on_check_failure_witness :
  _start_file_calculation sample_env (vars_of_build "" "/backup") default_rules
                          false selective (plan_of three_entries)
  = (plan_of three_entries, Some DestinationUnsetError)
  /\ _start_file_calculation sample_env (vars_of_build "/gone" "/backup") default_rules
                             false selective (plan_of three_entries)
     = (plan_of three_entries, Some SourceNotFoundError)
  /\ last_calculation_mode
       (_start_file_calculation sample_env (vars_of_build "/proj" "/backup") default_rules
                                true full (plan_of three_entries)).1 = Some full.
Proof.
  split; [|split].
  - destruct (build_leaves_plan_on_check_failure sample_env (vars_of_build "" "/backup")
                default_rules false selective (plan_of three_entries))
      as (_ & _ & Hunset & _).
    apply Hunset. now left.
  - destruct (build_leaves_plan_on_check_failure sample_env (vars_of_build "/gone" "/backup")
                default_rules false selective (plan_of three_entries))
      as (_ & _ & _ & Hgone).
    apply Hgone; [discriminate | discriminate | reflexivity].
  - destruct (build_leaves_plan_on_check_failure sample_env (vars_of_build "/proj" "/backup")
                default_rules true full (plan_of three_entries))
      as (_ & Hdone & _).
    apply Hdone. vm_compute. reflexivity.
Defined.

Section with_library.
Context {U : Py.str_methods} {FS : file_system}.

(** ** More on the copy executor *)

(** X10: a copy goes where the stored plan says.  [start_copying] resolves
    the destination again only to ask for confirmation; the worker it
    starts reads the plan globals alone, so with a destination that is set
    the run is the same whatever the destination variable, the time-stamp
    switch and the clock say at that moment, on every disk and whatever is
    assigned to the count meanwhile.  No worker is started on an
    empty plan, with the destination not set, or when the user declines. *)
Theorem start_copying_uses_stored_plan (e e' : env) (v v' : vars) (c : calc)
  (confirm : bool) (total_at : reads) (d : disk) :
  (dest_dir_var v <> "" -> dest_dir_var v' <> "" ->
   start_copying e v c confirm total_at d = start_copying e' v' c confirm total_at d)
  /\ (dest_dir_var v <> "" -> files_to_copy_list c <> [] ->
      start_copying e v c true total_at d = Some (copy_thread total_at c d))
  /\ (files_to_copy_list c = [] \/ dest_dir_var v = "" \/ confirm = false ->
      start_copying e v c confirm total_at d = None).
Proof.
  assert (Hset : forall (e0 : env) (v0 : vars), dest_dir_var v0 <> "" ->
            exists a, get_actual_dest_dir v0 (now e0) = Some a).
  { intros e0 v0 Hne. unfold get_actual_dest_dir.
    rewrite (string_eqb_false _ _ Hne).
    destruct (append_timestamp_var v0); [|eauto].
    destruct (posixpath.splitext _). eauto. }
  split; [|split].
  - intros Hv Hv'. unfold start_copying.
    destruct (Hset e v Hv) as [a ->], (Hset e' v' Hv') as [a' ->]. reflexivity.
  - intros Hv Hc. unfold start_copying.
    destruct (Hset e v Hv) as [a ->].
    destruct (files_to_copy_list c); [contradiction|reflexivity].
  - intros [Hc | [Hv | Hconf]]; unfold start_copying.
    + now rewrite Hc.
    + unfold get_actual_dest_dir. rewrite Hv. simpl.
      destruct (files_to_copy_list c); reflexivity.
    + rewrite Hconf. destruct (files_to_copy_list c); [reflexivity|].
      destruct (get_actual_dest_dir v (now e)); reflexivity.
Qed.

End with_library.

Lemma start_copying_uses_stored_plan_witness :
  start_copying sample_env (vars_of_build "/proj" "/backup") (plan_of three_entries)
                true (steady 3) disk_refusing_b
  = start_copying sample_env (vars_with_dest "/elsewhere" true) (plan_of three_entries)
                  true (steady 3) disk_refusing_b
  /\ start_copying sample_env fresh_vars (plan_of three_entries) true (steady 3)
                   disk_refusing_b
     = None.
Proof.
  destruct (start_copying_uses_stored_plan (FS := sim_fs) sample_env sample_env
              (vars_of_build "/proj" "/backup") (vars_with_dest "/elsewhere" true)
              (plan_of three_entries) true (steady 3) disk_refusing_b)
    as [Hsame _].
  destruct (start_copying_uses_stored_plan (FS := sim_fs) sample_env sample_env
              fresh_vars fresh_vars (plan_of three_entries) true (steady 3)
              disk_refusing_b)
    as (_ & _ & Hnone).
  split; [apply Hsame; discriminate|].
  apply Hnone. right. now left.
Defined.

Section with_library.
Context {U : Py.str_methods} {FS : file_system}.

(** ** More on the rules and their editor *)

(** X11: with ASCII names, a stored prefix excludes every folder name
    that begins with it, whatever the case of the letters of the name.
    An empty string among the stored prefixes excludes every folder. *)
Theorem stored_prefix_excludes (g : rules) (p q rest : string) :
  rules_in_sync g -> p ∈ excluded_prefix_list g ->
  Py.isascii p = true -> Py.isascii (q +:+ rest) = true ->
  caseless_eqb q p = true ->
  is_excluded g (q +:+ rest) = true
  /\ (p = "" -> forall n, is_excluded g n = true).
Proof.
  intros [_ Hpre] Hin Hp Hq Hl. split.
  - apply is_excluded_iff. right. exists (Py.lower p). split.
    + rewrite Hpre. apply elem_of_lower_set. eauto.
    + rewrite (Py.lower_isascii _ Hp), (Py.lower_isascii _ Hq).
      rewrite <- ascii_lower_eqb in Hl. apply String.eqb_eq in Hl.
      unfold Py.startswith. rewrite ascii_lower_app, Hl. apply prefix_app.
  - intros -> n. apply is_excluded_iff. right. exists "". split.
    + rewrite Hpre. apply elem_of_lower_set. exists "". split; [exact Hin|].
      now rewrite (Py.lower_isascii "" eq_refl).
    + apply prefix_nil_l.
Qed.

End with_library.

Lemma stored_prefix_excludes_witness :
  is_excluded default_rules "Firebase-Export-2024" = true.
Proof.
  destruct (stored_prefix_excludes default_rules "firebase-export-" "Firebase-Export-"
              "2024") as [Hprefix _];
    [apply default_rules_in_sync | vm_compute; repeat constructor
     | reflexivity | reflexivity | reflexivity |].
  exact Hprefix.
Defined.

Section with_library.
Context {U : Py.str_methods} {FS : file_system}.

Lemma list_remove_at (l : list string) :
  forall i x, NoDup l -> l !! i = Some x -> list_remove x l = delete i l.
Proof.
  induction l as [|y l IH]; intros i x Hnd Hi; [discriminate|].
  apply NoDup_cons in Hnd as [Hy Hnd]. simpl.
  destruct i as [|i]; simpl in Hi.
  - injection Hi as ->. now rewrite String.eqb_refl.
  - destruct (String.eqb y x) eqn:Hyx.
    + apply String.eqb_eq in Hyx. subst y. exfalso. apply Hy.
      apply list_elem_of_lookup. eauto.
    + simpl. f_equal. now apply IH.
Qed.

Lemma not_in_delete (l : list string) :
  forall i x, NoDup l -> l !! i = Some x -> x ∉ delete i l.
Proof.
  induction l as [|y l IH]; intros i x Hnd Hi; [discriminate|].
  apply NoDup_cons in Hnd as [Hy Hnd].
  destruct i as [|i]; simpl in *.
  - now injection Hi as ->.
  - intros Hin. apply elem_of_cons in Hin as [-> | Hin].
    + apply Hy. apply list_elem_of_lookup. eauto.
    + now apply (IH i x Hnd Hi).
Qed.

Lemma nth_lookup_Some (l : list string) (i : nat) :
  i < length l -> l !! i = Some (nth i l "").
Proof.
  intros Hi. destruct (lookup_lt_is_Some_2 l i Hi) as [x Hx].
  rewrite Hx. f_equal. rewrite nth_lookup, Hx. reflexivity.
Qed.

(** One removal at a valid index, from an editor that mirrors its rules:
    list box and list both lose the entry at that index. *)
Lemma remove_one_mirrored (k : rule_kind) (ed : editor) (i : nat) :
  listbox_widget k ed = target_list k (ed_rules ed) ->
  NoDup (target_list k (ed_rules ed)) ->
  i < length (target_list k (ed_rules ed)) ->
  listbox_widget k (remove_one k ed i) = delete i (target_list k (ed_rules ed))
  /\ target_list k (ed_rules (remove_one k ed i)) = delete i (target_list k (ed_rules ed))
  /\ (forall k', k' <> k ->
        listbox_widget k' (remove_one k ed i) = listbox_widget k' ed
        /\ target_list k' (ed_rules (remove_one k ed i)) = target_list k' (ed_rules ed)).
Proof.
  intros Hmirror Hnd Hi. unfold remove_one. rewrite Hmirror.
  pose proof (nth_lookup_Some _ i Hi) as Hlook.
  assert (Hin : nth i (target_list k (ed_rules ed)) "" ∈ target_list k (ed_rules ed))
    by (apply list_elem_of_lookup; eauto).
  replace (ed_rules (set_listbox k (delete i (target_list k (ed_rules ed))) ed))
    with (ed_rules ed) by (destruct k; reflexivity).
  rewrite bool_decide_eq_true_2 by exact Hin.
  rewrite (list_remove_at _ i _ Hnd Hlook).
  destruct k; simpl; (split; [reflexivity|]); (split; [reflexivity|]);
    intros [] Hk; try contradiction; split; reflexivity.
Qed.

Lemma editor_mirrors_kind (ed : editor) :
  editor_mirrors ed <->
  forall k, listbox_widget k ed = target_list k (ed_rules ed)
            /\ NoDup (target_list k (ed_rules ed)).
Proof.
  split.
  - intros [He Hp] []; assumption.
  - intros H. split; [apply (H Exact) | apply (H Prefix)].
Qed.

(** Deleting at larger indices leaves the entry at a smaller one. *)
Lemma foldr_delete_below (L : list string) (i : nat) :
  forall rest, Forall (fun j => i < j) rest ->
    foldr delete L rest !! i = L !! i.
Proof.
  induction rest as [|j rest IH]; intros Hall; [reflexivity|].
  apply Forall_cons in Hall as [Hj Hall]. simpl.
  rewrite list_lookup_delete_lt by exact Hj. now apply IH.
Qed.

Lemma elem_of_delete_NoDup (M : list string) (i : nat) (x : string) :
  NoDup M -> x ∈ delete i M <-> x ∈ M /\ M !! i <> Some x.
Proof.
  intros Hnd. split.
  - intros Hin. split.
    + apply (elem_of_sublist _ _ _ Hin), sublist_delete.
    + intros Hi. now apply (not_in_delete M i x Hnd Hi).
  - intros [Hin Hi]. apply list_elem_of_lookup in Hin as [j Hj].
    apply list_elem_of_lookup. destruct (decide (j < i)) as [Hlt | Hge].
    + exists j. now rewrite list_lookup_delete_lt.
    + destruct j as [|j].
      * assert (i = 0) by lia. subst i. congruence.
      * destruct (decide (i = S j)) as [-> | Hne]; [congruence|].
        exists j. rewrite list_lookup_delete_ge by lia. exact Hj.
Qed.

Lemma foldr_delete_elem (L : list string) (x : string) :
  NoDup L ->
  forall sel, StronglySorted lt sel ->
    x ∈ foldr delete L sel
    <-> x ∈ L /\ forall i, i ∈ sel -> L !! i <> Some x.
Proof.
  intros Hnd. induction sel as [|i rest IH]; intros Hs.
  - simpl. split; [intros Hin; split; [exact Hin|] | tauto].
    intros i Hi. now apply elem_of_nil in Hi.
  - apply StronglySorted_inv in Hs as [Hs Hall]. simpl.
    rewrite elem_of_delete_NoDup
      by (apply (sublist_NoDup _ L Hnd), sublist_foldr_delete).
    rewrite (foldr_delete_below L i rest Hall), (IH Hs). split.
    + intros [[Hin Hrest] Hi]. split; [exact Hin|].
      intros j Hj. apply elem_of_cons in Hj as [-> | Hj]; auto.
    + intros [Hin Hsel]. split; [split; [exact Hin|]|].
      * intros j Hj. apply Hsel. apply elem_of_cons. auto.
      * apply Hsel. apply elem_of_cons. auto.
Qed.

Lemma foldr_delete_length (L : list string) :
  forall sel, StronglySorted lt sel -> Forall (fun i => i < length L) sel ->
    length (foldr delete L sel) = length L - length sel.
Proof.
  induction sel as [|i rest IH]; intros Hs Hv; simpl; [lia|].
  apply StronglySorted_inv in Hs as [Hs Hall].
  apply Forall_cons in Hv as [Hi Hv].
  rewrite length_delete.
  - rewrite (IH Hs Hv). lia.
  - rewrite (foldr_delete_below L i rest Hall). now apply lookup_lt_is_Some_2.
Qed.

(** The loop of [remove_selected] over an ascending selection of valid
    indices, on a list box that shows a list without duplicates. *)
Lemma remove_fold (k : rule_kind) :
  forall sel ed,
    listbox_widget k ed = target_list k (ed_rules ed) ->
    NoDup (target_list k (ed_rules ed)) ->
    StronglySorted lt sel ->
    Forall (fun i => i < length (target_list k (ed_rules ed))) sel ->
    listbox_widget k (fold_left (remove_one k) (rev sel) ed)
    = foldr delete (target_list k (ed_rules ed)) sel
    /\ target_list k (ed_rules (fold_left (remove_one k) (rev sel) ed))
       = foldr delete (target_list k (ed_rules ed)) sel
    /\ (forall k', k' <> k ->
          listbox_widget k' (fold_left (remove_one k) (rev sel) ed) = listbox_widget k' ed
          /\ target_list k' (ed_rules (fold_left (remove_one k) (rev sel) ed))
             = target_list k' (ed_rules ed)).
Proof.
  induction sel as [|i rest IH]; intros ed Hmirror Hnd Hs Hv.
  - simpl. rewrite Hmirror. auto.
  - apply StronglySorted_inv in Hs as [Hs Hall].
    apply Forall_cons in Hv as [Hi Hv].
    destruct (IH ed Hmirror Hnd Hs Hv) as (Hbox & Hlist & Hother).
    simpl rev. rewrite fold_left_app. simpl fold_left.
    set (mid := fold_left (remove_one k) (rev rest) ed) in *.
    assert (Hmid : listbox_widget k mid = target_list k (ed_rules mid)) by congruence.
    assert (Hndmid : NoDup (target_list k (ed_rules mid))).
    { rewrite Hlist. apply (sublist_NoDup _ _ Hnd), sublist_foldr_delete. }
    assert (Himid : i < length (target_list k (ed_rules mid))).
    { apply lookup_lt_is_Some_1. rewrite Hlist, (foldr_delete_below _ i rest Hall).
      now apply lookup_lt_is_Some_2. }
    destruct (remove_one_mirrored k mid i Hmid Hndmid Himid) as (Hb & Hl & Ho).
    rewrite Hb, Hl, Hlist. simpl. split; [reflexivity|]. split; [reflexivity|].
    intros k' Hk'. destruct (Ho k' Hk') as [-> ->]. now apply Hother.
Qed.

Lemma listbox_set_rules (k : rule_kind) (g : rules) (ed : editor) :
  listbox_widget k (set_rules g ed) = listbox_widget k ed.
Proof. destruct k; reflexivity. Qed.

Lemma ed_rules_set_rules (g : rules) (ed : editor) : ed_rules (set_rules g ed) = g.
Proof. reflexivity. Qed.

(** X12: the list boxes of the editor keep showing the stored lists.
    From an editor whose boxes show the lists, no rule stored twice, every
    add leaves it so; and so does every removal of a selection (ascending
    valid indices, as [curselection] gives them), which takes from the list
    exactly the entries at the selected indices and leaves the other list
    and its box as they were. *)
Theorem editor_keeps_lists_mirrored (ed : editor) (k : rule_kind) :
  editor_mirrors ed ->
  (forall entry_text, editor_mirrors (add_item entry_text k ed).1)
  /\ (forall selected_indices,
        StronglySorted lt selected_indices ->
        Forall (fun i => i < length (listbox_widget k ed)) selected_indices ->
        editor_mirrors (remove_selected selected_indices k ed).1
        /\ target_list k (ed_rules (remove_selected selected_indices k ed).1)
           = foldr delete (target_list k (ed_rules ed)) selected_indices
        /\ length (target_list k (ed_rules (remove_selected selected_indices k ed).1))
           = length (target_list k (ed_rules ed)) - length selected_indices
        /\ (forall x,
              x ∈ target_list k (ed_rules (remove_selected selected_indices k ed).1)
              <-> x ∈ target_list k (ed_rules ed)
                  /\ forall i, i ∈ selected_indices ->
                               target_list k (ed_rules ed) !! i <> Some x)
        /\ (forall k', k' <> k ->
              target_list k' (ed_rules (remove_selected selected_indices k ed).1)
              = target_list k' (ed_rules ed)
              /\ listbox_widget k' (remove_selected selected_indices k ed).1
                 = listbox_widget k' ed)).
Proof.
  intros Hed. pose proof (proj1 (editor_mirrors_kind ed) Hed) as Hkind.
  destruct (Hkind k) as [Hmirror Hnd]. split.
  - intros entry_text. unfold add_item.
    destruct (negb (Py.strip entry_text =? "")%string
              && negb (bool_decide (Py.strip entry_text ∈ target_list k (ed_rules ed))))
      eqn:Hfresh.
    + apply andb_prop in Hfresh as [_ Hnin].
      apply negb_true_iff, bool_decide_eq_false in Hnin.
      assert (Hnd' : NoDup (target_list k (ed_rules ed) ++ [Py.strip entry_text])).
      { apply NoDup_app. split; [exact Hnd|]. split; [|apply NoDup_singleton].
        intros x Hx Hx'. apply list_elem_of_singleton in Hx' as ->. contradiction. }
      destruct Hed as [[He Hne] [Hp Hnp]].
      destruct k; simpl in *; (split; split); simpl; congruence || assumption.
    + destruct (bool_decide _); exact Hed.
  - intros sel Hs Hv. rewrite Hmirror in Hv.
    assert (Hfold := remove_fold k sel ed Hmirror Hnd Hs Hv).
    destruct Hfold as (Hbox & Hlist & Hother).
    assert (Hresult : target_list k (ed_rules (remove_selected sel k ed).1)
                      = foldr delete (target_list k (ed_rules ed)) sel).
    { unfold remove_selected. destruct sel as [|i sel]; [reflexivity|].
      cbv zeta. unfold fst.
      rewrite ed_rules_set_rules, target_list_update. exact Hlist. }
    split; [|split; [exact Hresult|split; [|split]]].
    + apply editor_mirrors_kind. intros k'.
      unfold remove_selected. destruct sel as [|i sel]; [apply Hkind|].
      cbv zeta. unfold fst.
      rewrite listbox_set_rules, ed_rules_set_rules, target_list_update.
      assert (Hcases : k' = k \/ k' <> k)
        by (destruct k', k; (now left) || (now right)).
      destruct Hcases as [-> | Hk'].
      * rewrite Hbox, Hlist. split; [reflexivity|].
        apply (sublist_NoDup _ _ Hnd), sublist_foldr_delete.
      * destruct (Hother k' Hk') as [-> ->]. apply Hkind.
    + rewrite Hresult. now apply foldr_delete_length.
    + intros x. rewrite Hresult. now apply foldr_delete_elem.
    + intros k' Hk'. unfold remove_selected. destruct sel as [|i sel]; [auto|].
      cbv zeta. unfold fst.
      rewrite listbox_set_rules, ed_rules_set_rules, target_list_update.
      destruct (Hother k' Hk') as [-> ->]. auto.
Qed.


End with_library.

Lemma editor_keeps_lists_mirrored_witness :
  editor_mirrors (add_item " Dist " Exact (open_editor default_rules)).1
  /\ target_list Exact (ed_rules (remove_selected [0; 1] Exact editor_two_spellings).1)
     = [].
Proof.
  split.
  - destruct (editor_keeps_lists_mirrored (open_editor default_rules) Exact) as [Hadd _].
    + split; (split; [reflexivity | cbn; apply NoDup_elements]).
    + exact (Hadd " Dist ").
  - destruct (editor_keeps_lists_mirrored editor_two_spellings Exact) as [_ Hremove].
    + split; (split; [reflexivity|]); [|apply NoDup_nil_2].
      apply NoDup_cons. split; [|apply NoDup_singleton].
      intros Hin. apply list_elem_of_singleton in Hin. discriminate.
    + destruct (Hremove [0; 1]) as (_ & Hlist & _).
      * repeat constructor.
      * repeat constructor.
      * exact Hlist.
Defined.


(** Without the condition on duplicates the boxes can part from the
    lists: on rules that store one name twice, removing the second entry
    takes the first from the list, since [list.remove] takes the first
    occurrence. *)
Remark remove_selected_duplicate_rule :
  let ed := open_editor (rules_of_lists ["a"; "b"; "a"] []) in
  exact_listbox (remove_selected [2] Exact ed).1 = ["a"; "b"]
  /\ excluded_exact_list (ed_rules (remove_selected [2] Exact ed).1) = ["b"; "a"].
Proof. split; reflexivity. Qed.

Section with_library.
Context {U : Py.str_methods} {FS : file_system}.


(** ** Where the plan sends a file *)

Lemma str_app_assoc (a b c : string) : (a +:+ b) +:+ c = a +:+ b +:+ c.
Proof. induction a as [|x a IH]; simpl; [reflexivity|now rewrite IH]. Qed.

Lemma plain_name_spec (n : string) :
  plain_name n = true ->
  n <> "" /\ Py.contains_char posixpath.sep n = false /\ n <> "." /\ n <> "..".
Proof.
  unfold plain_name. intros H.
  apply andb_prop in H as [H H4]. apply andb_prop in H as [H H3].
  apply andb_prop in H as [H1 H2].
  apply negb_true_iff in H1, H2, H3, H4.
  apply String.eqb_neq in H1, H3, H4. auto.
Qed.

Lemma startswith_sep_plain (n : string) :
  Py.contains_char posixpath.sep n = false -> Py.startswith n "/" = false.
Proof.
  destruct n as [|c n]; [reflexivity|]. intros H. simpl in H.
  apply orb_false_elim in H as [Hc _]. unfold Py.startswith.
  rewrite prefix_String, Ascii.eqb_sym. unfold posixpath.sep in Hc. now rewrite Hc.
Qed.

Lemma startswith_app (a b : string) :
  a <> "" -> Py.startswith (a +:+ b) "/" = Py.startswith a "/".
Proof.
  destruct a as [|c a]; [contradiction|]. intros _. unfold Py.startswith.
  change (String c a +:+ b) with (String c (a +:+ b)).
  rewrite !prefix_String. now destruct (a +:+ b), a.
Qed.

Lemma endswith_plain (n : string) :
  Py.contains_char posixpath.sep n = false -> Py.endswith_char n posixpath.sep = false.
Proof.
  induction n as [|c n IH]; [reflexivity|]. simpl. intros H.
  apply orb_false_elim in H as [Hc Hn].
  destruct n as [|d n]; [exact Hc|]. now apply IH.
Qed.

Lemma endswith_app (a b : string) (c : ascii) :
  b <> "" -> Py.endswith_char (a +:+ b) c = Py.endswith_char b c.
Proof.
  intros Hb. induction a as [|x a IH]; [reflexivity|]. simpl.
  destruct (a +:+ b) as [|y r] eqn:Hab.
  - destruct a; simpl in Hab; [contradiction|discriminate].
  - exact IH.
Qed.

Lemma endswith_inv (a : string) (c : ascii) :
  Py.endswith_char a c = true -> exists a0, a = a0 +:+ String c "".
Proof.
  induction a as [|x a IH]; [discriminate|]. simpl.
  destruct a as [|y a].
  - intros H. apply Ascii.eqb_eq in H as ->. now exists "".
  - intros H. destruct (IH H) as [a0 Ha0]. exists (String x a0). simpl. now rewrite <- Ha0.
Qed.

(** The separator [join] puts after [a]. *)
Lemma join_plain (a n : string) :
  a <> "" -> Py.startswith n "/" = false ->
  posixpath.join a n
  = a +:+ (if Py.endswith_char a posixpath.sep then "" else "/") +:+ n.
Proof.
  intros Ha Hn. unfold posixpath.join. rewrite Hn.
  rewrite (string_eqb_false _ _ Ha). simpl.
  destruct (Py.endswith_char a posixpath.sep); reflexivity.
Qed.

Lemma py_join_cons (n m : string) (rest : list string) :
  Py.join "/" (n :: m :: rest) = n +:+ "/" +:+ Py.join "/" (m :: rest).
Proof. reflexivity. Qed.

Lemma py_join_startswith (names : list string) :
  Forall (fun n => plain_name n = true) names ->
  Py.startswith (Py.join "/" names) "/" = false.
Proof.
  destruct names as [|n rest]; [reflexivity|]. intros H.
  apply Forall_cons in H as [Hn _].
  destruct (plain_name_spec n Hn) as (Hne & Hsep & _).
  destruct rest as [|m rest]; [now apply startswith_sep_plain|].
  rewrite py_join_cons, (startswith_app _ _ Hne). now apply startswith_sep_plain.
Qed.

(** Joining plain names one after the other puts one separator between
    them. *)
Lemma join_all_plain (names : list string) :
  forall a, a <> "" -> names <> [] ->
    Forall (fun n => plain_name n = true) names ->
    posixpath.join_all a names
    = a +:+ (if Py.endswith_char a posixpath.sep then "" else "/")
        +:+ Py.join "/" names.
Proof.
  induction names as [|n rest IH]; intros a Ha Hne Hall; [contradiction|].
  apply Forall_cons in Hall as [Hn Hall].
  destruct (plain_name_spec n Hn) as (Hn1 & Hn2 & _).
  unfold posixpath.join_all. simpl fold_left.
  rewrite (join_plain a n Ha (startswith_sep_plain n Hn2)).
  destruct rest as [|m rest]; [reflexivity|].
  fold (posixpath.join_all
          (a +:+ (if Py.endswith_char a posixpath.sep then "" else "/") +:+ n) (m :: rest)).
  rewrite IH; [|now apply append_nonempty_r, append_nonempty_r|discriminate|exact Hall].
  rewrite !endswith_app by (try apply append_nonempty_r; exact Hn1).
  rewrite (endswith_plain n Hn2), py_join_cons.
  now rewrite !str_app_assoc.
Qed.

Lemma split_no_sep (c : ascii) (s : string) :
  Py.contains_char c s = false -> Py.split c s = [s].
Proof.
  induction s as [|x s IH]; [reflexivity|]. simpl. intros H.
  apply orb_false_elim in H as [Hx Hs]. rewrite Hx, (IH Hs). reflexivity.
Qed.

Lemma split_parts_no_sep (c : ascii) (s : string) :
  Forall (fun w => Py.contains_char c w = false) (Py.split c s).
Proof.
  induction s as [|x s IH]; simpl; [repeat constructor|].
  destruct (Ascii.eqb x c) eqn:Hx; [constructor; [reflexivity|exact IH]|].
  destruct (Py.split c s) as [|w ws]; [repeat constructor; simpl; now rewrite Hx|].
  apply Forall_cons in IH as [Hw Hws]. constructor; [|exact Hws].
  simpl. now rewrite Hx, Hw.
Qed.

Lemma split_join (M : list string) :
  M <> [] ->
  Forall (fun c => Py.contains_char posixpath.sep c = false) M ->
  Py.split posixpath.sep (Py.join "/" M) = M.
Proof.
  induction M as [|x M IH]; intros Hne Hall; [contradiction|].
  apply Forall_cons in Hall as [Hx Hall].
  destruct M as [|y M]; [now apply split_no_sep|].
  rewrite py_join_cons.
  change (x +:+ "/" +:+ Py.join "/" (y :: M))
    with (x +:+ String posixpath.sep (Py.join "/" (y :: M))).
  rewrite split_app_sep, (split_no_sep _ x Hx), IH by (discriminate || exact Hall).
  reflexivity.
Qed.

Lemma filter_non_empty_all (M : list string) :
  Forall (fun c => c <> "") M ->
  filter (fun x => posixpath.non_empty x = true) M = M.
Proof.
  induction M as [|x M IH]; intros Hall; [reflexivity|].
  apply Forall_cons in Hall as [Hx Hall].
  rewrite filter_cons, decide_True; [now rewrite IH|].
  unfold posixpath.non_empty. now rewrite (string_eqb_false _ _ Hx).
Qed.

(** The components of a normal absolute path are read back from it. *)
Lemma split_normal (pre : string) (M : list string) :
  pre = "/" \/ pre = "//" ->
  Forall (fun c => c <> "" /\ Py.contains_char posixpath.sep c = false) M ->
  filter (fun x => posixpath.non_empty x = true)
         (Py.split posixpath.sep (pre +:+ Py.join "/" M)) = M.
Proof.
  intros Hpre Hall.
  assert (Hjoin : filter (fun x => posixpath.non_empty x = true)
                         (Py.split posixpath.sep (Py.join "/" M)) = M).
  { destruct M as [|x M]; [reflexivity|].
    rewrite split_join; [|discriminate|].
    - apply filter_non_empty_all. eapply Forall_impl; [exact Hall|]. now intros c [].
    - eapply Forall_impl; [exact Hall|]. now intros c []. }
  destruct Hpre as [-> | ->]; simpl; rewrite ?filter_cons; simpl; exact Hjoin.
Qed.

Lemma normpath_loop_app (i : nat) (A B acc : list string) :
  posixpath.normpath_loop i (A ++ B) acc
  = posixpath.normpath_loop i B (posixpath.normpath_loop i A acc).
Proof.
  revert acc. induction A as [|c A IH]; intros acc; [reflexivity|]. simpl.
  destruct (_ || _); [apply IH|]. destruct (_ || _); apply IH.
Qed.

Lemma normpath_loop_plain (i : nat) (names : list string) :
  forall acc, Forall (fun n => plain_name n = true) names ->
    posixpath.normpath_loop i names acc = acc ++ names.
Proof.
  induction names as [|n names IH]; intros acc Hall; simpl; [now rewrite app_nil_r|].
  apply Forall_cons in Hall as [Hn Hall].
  destruct (plain_name_spec n Hn) as (H1 & _ & H3 & H4).
  rewrite (string_eqb_false _ _ H1), (string_eqb_false _ _ H3),
    (string_eqb_false _ _ H4). simpl.
  rewrite IH by exact Hall. now rewrite <- app_assoc.
Qed.

Lemma Forall_removelast {A : Type} (P : A -> Prop) (l : list A) :
  Forall P l -> Forall P (removelast l).
Proof.
  induction l as [|x l IH]; intros H; [constructor|].
  apply Forall_cons in H as [Hx Hl]. simpl.
  destruct l; [constructor|]. constructor; [exact Hx|now apply IH].
Qed.

Lemma normpath_loop_good (i : nat) (comps : list string) :
  forall acc,
    Forall (fun c => Py.contains_char posixpath.sep c = false) comps ->
    Forall (fun c => c <> "" /\ Py.contains_char posixpath.sep c = false) acc ->
    Forall (fun c => c <> "" /\ Py.contains_char posixpath.sep c = false)
           (posixpath.normpath_loop i comps acc).
Proof.
  induction comps as [|c comps IH]; intros acc Hc Hacc; [exact Hacc|].
  apply Forall_cons in Hc as [Hc Hcomps]. simpl.
  destruct (String.eqb c "") eqn:He; simpl; [now apply IH|].
  destruct (String.eqb c "."); simpl; [now apply IH|].
  apply String.eqb_neq in He.
  destruct (_ || _).
  - apply IH; [exact Hcomps|]. apply Forall_app. split; [exact Hacc|].
    repeat constructor; assumption.
  - apply IH; [exact Hcomps|]. now apply Forall_removelast.
Qed.

(** The leading slashes [normpath] counts are those of the directory the
    names are joined to. *)
Lemma slashes_ext (a w : string) (j : ascii) :
  posixpath.isabs a = true -> Ascii.eqb "/" j = false ->
  Py.startswith (a +:+ (if Py.endswith_char a posixpath.sep then "" else "/")
                   +:+ String j w) "//"
  = Py.startswith a "//"
  /\ Py.startswith (a +:+ (if Py.endswith_char a posixpath.sep then "" else "/")
                      +:+ String j w) "///"
     = Py.startswith a "///".
Proof.
  unfold posixpath.isabs, Py.startswith. intros Ha Hj.
  destruct a as [|c1 a]; [discriminate|].
  rewrite prefix_String in Ha. apply andb_prop in Ha as [Hc1 _].
  apply Ascii.eqb_eq in Hc1. subst c1.
  destruct a as [|c2 a].
  - change (Py.endswith_char "/" posixpath.sep) with true. cbv iota.
    change ("/" +:+ "" +:+ String j w) with (String "/" (String j w)).
    rewrite !prefix_String, Hj, !prefix_nil_r. auto.
  - destruct a as [|c3 a].
    + change (Py.endswith_char (String "/" (String c2 "")) posixpath.sep)
        with (Ascii.eqb c2 "/").
      rewrite (Ascii.eqb_sym c2).
      destruct (Ascii.eqb "/" c2) eqn:Hc2.
      * change (String "/" (String c2 "") +:+ "" +:+ String j w)
          with (String "/" (String c2 (String j w))).
        rewrite !prefix_String, Hc2, Hj, !prefix_nil_r. auto.
      * change (String "/" (String c2 "") +:+ "/" +:+ String j w)
          with (String "/" (String c2 (String "/" (String j w)))).
        rewrite !prefix_String, Hc2. auto.
    + change (String "/" (String c2 (String c3 a)) +:+ ?r)
        with (String "/" (String c2 (String c3 (a +:+ r)))).
      rewrite !prefix_String, !prefix_nil_l. split; reflexivity.
Qed.

Lemma loop_join (i : nat) (a : string) (names : list string) :
  names <> [] -> Forall (fun n => plain_name n = true) names ->
  posixpath.normpath_loop i
    (Py.split posixpath.sep
       (a +:+ (if Py.endswith_char a posixpath.sep then "" else "/")
          +:+ Py.join "/" names)) []
  = posixpath.normpath_loop i (Py.split posixpath.sep a) [] ++ names.
Proof.
  intros Hne Hall.
  assert (Hsplit : Py.split posixpath.sep (Py.join "/" names) = names).
  { apply split_join; [exact Hne|]. eapply Forall_impl; [exact Hall|].
    intros n Hn. now destruct (plain_name_spec n Hn) as (_ & ? & _). }
  destruct (Py.endswith_char a posixpath.sep) eqn:Hend.
  - apply endswith_inv in Hend as [a0 ->].
    rewrite str_app_assoc.
    change (String posixpath.sep "" +:+ "" +:+ Py.join "/" names)
      with (String posixpath.sep (Py.join "/" names)).
    rewrite !split_app_sep, Hsplit, !normpath_loop_app. simpl.
    now apply normpath_loop_plain.
  - change ("/" +:+ Py.join "/" names) with (String posixpath.sep (Py.join "/" names)).
    rewrite split_app_sep, Hsplit, normpath_loop_app.
    now apply normpath_loop_plain.
Qed.

Lemma py_join_plain_cons (names : list string) :
  names <> [] -> Forall (fun n => plain_name n = true) names ->
  exists j w, Py.join "/" names = String j w /\ Ascii.eqb "/" j = false.
Proof.
  intros Hne Hall. pose proof (py_join_startswith names Hall) as Hs.
  destruct names as [|n rest]; [contradiction|].
  apply Forall_cons in Hall as [Hn _].
  destruct (plain_name_spec n Hn) as (Hn1 & _).
  destruct (Py.join "/" (n :: rest)) as [|j w] eqn:Hj.
  - destruct rest; simpl in Hj; [contradiction|]. destruct n; [contradiction|discriminate].
  - exists j, w. split; [reflexivity|].
    unfold Py.startswith in Hs.
    now rewrite prefix_String, prefix_nil_l, andb_true_r in Hs.
Qed.

(** [normpath] of an absolute directory, and of plain names joined to
    it: the same leading slashes, the components of the directory
    followed by the names. *)
Lemma normpath_join_all (a : string) (names : list string) :
  posixpath.isabs a = true -> names <> [] ->
  Forall (fun n => plain_name n = true) names ->
  exists pre i,
    (pre = "/" \/ pre = "//")
    /\ posixpath.normpath a
       = pre +:+ Py.join "/" (posixpath.normpath_loop i (Py.split posixpath.sep a) [])
    /\ posixpath.normpath (posixpath.join_all a names)
       = pre +:+ Py.join "/" (posixpath.normpath_loop i (Py.split posixpath.sep a) []
                                ++ names).
Proof.
  intros Habs Hne Hall.
  assert (Ha : a <> "") by (intros ->; discriminate).
  rewrite (join_all_plain names a Ha Hne Hall).
  destruct (py_join_plain_cons names Hne Hall) as (j & w & Hj & Hjs).
  destruct (slashes_ext a w j Habs Hjs) as [H2 H3].
  unfold posixpath.normpath.
  rewrite (string_eqb_false _ _ Ha).
  rewrite (string_eqb_false (a +:+ _ +:+ Py.join "/" names) "")
    by (apply append_nonempty_r, append_nonempty_r; rewrite Hj; discriminate).
  rewrite (startswith_app a _ Ha). unfold posixpath.isabs in Habs. rewrite Habs.
  rewrite Hj, H2, H3, <- Hj. cbv zeta.
  destruct (Py.startswith a "//" && negb (Py.startswith a "///")).
  - exists "//", 2. rewrite (loop_join 2 a names Hne Hall).
    split; [auto|]. split; reflexivity.
  - exists "/", 1. rewrite (loop_join 1 a names Hne Hall).
    split; [auto|]. split; reflexivity.
Qed.

Lemma abspath_pair (cwd source_dir : string) (names : list string) :
  posixpath.isabs cwd = true -> source_dir <> "" -> names <> [] ->
  Forall (fun n => plain_name n = true) names ->
  exists a,
    posixpath.isabs a = true
    /\ posixpath.abspath cwd source_dir = posixpath.normpath a
    /\ posixpath.abspath cwd (posixpath.join_all source_dir names)
       = posixpath.normpath (posixpath.join_all a names).
Proof.
  intros Hcwd Hsrc Hne Hall. unfold posixpath.abspath.
  assert (Hc : cwd <> "") by (intros ->; discriminate).
  assert (Hpath : posixpath.isabs (posixpath.join_all source_dir names)
                  = posixpath.isabs source_dir).
  { rewrite (join_all_plain names source_dir Hsrc Hne Hall).
    unfold posixpath.isabs. now apply startswith_app. }
  rewrite Hpath. destruct (posixpath.isabs source_dir) eqn:Habs.
  - exists source_dir. auto.
  - exists (posixpath.join cwd source_dir).
    unfold posixpath.isabs in Habs, Hpath, Hcwd.
    rewrite (join_plain cwd source_dir Hc Habs).
    split; [|split; [reflexivity|]].
    + unfold posixpath.isabs. now rewrite (startswith_app cwd _ Hc).
    + rewrite (join_plain cwd _ Hc Hpath).
      rewrite (join_all_plain names source_dir Hsrc Hne Hall).
      rewrite (join_all_plain names (cwd +:+ _ +:+ source_dir))
        by (exact Hne || exact Hall || (apply append_nonempty_r, append_nonempty_r; exact Hsrc)).
      rewrite !endswith_app by (try apply append_nonempty_r; exact Hsrc).
      now rewrite !str_app_assoc.
Qed.

Lemma commonprefix_app (L R : list string) : posixpath.commonprefix L (L ++ R) = L.
Proof.
  induction L as [|x L IH]; simpl; [now destruct R|].
  now rewrite String.eqb_refl, IH.
Qed.

(** The path of a file relative to the source: the names that lead from
    the source to it. *)
Lemma relpath_below (cwd source_dir : string) (names : list string) :
  posixpath.isabs cwd = true -> source_dir <> "" -> names <> [] ->
  Forall (fun n => plain_name n = true) names ->
  posixpath.relpath_str cwd (posixpath.join_all source_dir names) source_dir
  = Py.join "/" names.
Proof.
  intros Hcwd Hsrc Hne Hall. unfold posixpath.relpath_str.
  destruct (abspath_pair cwd source_dir names Hcwd Hsrc Hne Hall) as (a & Ha & -> & ->).
  destruct (normpath_join_all a names Ha Hne Hall) as (pre & i & Hpre & -> & ->).
  assert (Hplain : Forall (fun c => c <> "" /\ Py.contains_char posixpath.sep c = false)
                          names).
  { eapply Forall_impl; [exact Hall|]. intros n Hn.
    destruct (plain_name_spec n Hn) as (? & ? & _). auto. }
  assert (Hgood : Forall (fun c => c <> "" /\ Py.contains_char posixpath.sep c = false)
                         (posixpath.normpath_loop i (Py.split posixpath.sep a) [])).
  { apply normpath_loop_good; [apply split_parts_no_sep|constructor]. }
  rewrite (split_normal pre _ Hpre Hgood).
  rewrite (split_normal pre _ Hpre) by (apply Forall_app; auto).
  cbv zeta. rewrite commonprefix_app, Nat.sub_diag, drop_app_length. simpl.
  destruct names as [|r rs]; [contradiction|].
  destruct rs as [|r' rs]; [reflexivity|].
  apply Forall_cons in Hall as [Hr Hall].
  destruct (plain_name_spec r Hr) as (Hr1 & Hr2 & _).
  rewrite (join_all_plain (r' :: rs) r Hr1) by (discriminate || exact Hall).
  now rewrite (endswith_plain r Hr2).
Qed.

Lemma well_named_files (t : tree) :
  well_named t = true ->
  Forall (fun df => Forall (fun n => plain_name n = true) (fst df ++ [snd df]))
         (tree_files t).
Proof.
  induction t as [files subdirs IH] using tree_ind'. intros Hwn.
  simpl in Hwn. apply andb_prop in Hwn as [Hfiles Hsub].
  rewrite forallb_forall in Hfiles, Hsub.
  simpl. apply Forall_app. split.
  - apply Forall_forall. intros df Hdf. apply list_elem_of_In, in_map_iff in Hdf
      as (f & <- & Hf). simpl. repeat constructor. now apply Hfiles.
  - apply Forall_forall. intros df Hdf.
    apply list_elem_of_In, in_flat_map in Hdf as (p & Hp & Hdf).
    apply in_map_iff in Hdf as (df' & <- & Hdf').
    specialize (Hsub p Hp). apply andb_prop in Hsub as [Hname Hrec].
    rewrite Forall_forall in IH.
    specialize (IH p (proj2 (list_elem_of_In _ _) Hp) Hrec).
    rewrite Forall_forall in IH.
    specialize (IH df' (proj2 (list_elem_of_In _ _) Hdf')).
    simpl. constructor; [exact Hname|exact IH].
Qed.

Lemma entry_mirrored (e : env) (source_dir actual_dest_dir : string)
  (df : list string * string) :
  posixpath.isabs (cwd e) = true -> source_dir <> "" ->
  Forall (fun n => plain_name n = true) (fst df ++ [snd df]) ->
  plan_entry e source_dir actual_dest_dir df
  = mirrored_entry source_dir actual_dest_dir df.
Proof.
  intros Hcwd Hsrc Hall. unfold plan_entry, entry_under, mirrored_entry, relative_path.
  assert (Hne : fst df ++ [snd df] <> []) by (now destruct (fst df)).
  rewrite (relpath_below (cwd e) source_dir _ Hcwd Hsrc Hne Hall). f_equal.
  rewrite (join_all_plain _ source_dir Hsrc Hne Hall).
  now rewrite (join_plain source_dir _ Hsrc (py_join_startswith _ Hall)).
Qed.

Lemma calculation_thread_mirrored (e : env) (g : rules) (ignore_exclusions : bool)
  (source_dir actual_dest_dir : string) (t : tree) :
  posixpath.isabs (cwd e) = true -> source_dir <> "" ->
  wf_tree t = true -> well_named t = true ->
  calculation_thread e g ignore_exclusions source_dir actual_dest_dir t
  = CalcResult
      (map (mirrored_entry source_dir actual_dest_dir)
           (List.filter (reached g ignore_exclusions) (tree_files t)))
      (length (List.filter (reached g ignore_exclusions) (tree_files t))).
Proof.
  intros Hcwd Hsrc Hwf Hwn.
  rewrite (calculation_thread_plan e g ignore_exclusions _ _ t Hsrc Hwf).
  f_equal. apply map_ext_in. intros df Hdf.
  apply entry_mirrored; [exact Hcwd|exact Hsrc|].
  apply filter_In in Hdf as [Hdf _].
  pose proof (well_named_files t Hwn) as Hall.
  rewrite Forall_forall in Hall. apply Hall. now apply list_elem_of_In.
Qed.

(** X13: the plan mirrors the source tree below the destination.  With an
    absolute working directory, a source that is set, and a tree as a
    file system lists it (plain names, no folder twice in a directory),
    every entry of the plan, in either mode, pairs [join(source, rel)]
    with [join(destination, rel)], where [rel] is the chain of folder
    names and the file name joined by the separator: [relpath] gives back
    exactly the names the walk has joined to the source. *)
Theorem plan_mirrors_source_tree (e : env) (g : rules) (ignore_exclusions : bool)
  (source_dir actual_dest_dir : string) (t : tree) :
  posixpath.isabs (cwd e) = true -> source_dir <> "" ->
  wf_tree t = true -> well_named t = true ->
  calculation_thread e g ignore_exclusions source_dir actual_dest_dir t
  = CalcResult
      (map (mirrored_entry source_dir actual_dest_dir)
           (List.filter (reached g ignore_exclusions) (tree_files t)))
      (length (List.filter (reached g ignore_exclusions) (tree_files t)))
  /\ (forall df, In df (List.filter (reached g ignore_exclusions) (tree_files t)) ->
        mirrored_entry source_dir actual_dest_dir df
        = (source_dir +:+ (if Py.endswith_char source_dir posixpath.sep then "" else "/")
             +:+ relative_path df,
           posixpath.join actual_dest_dir (relative_path df))
        /\ Py.startswith (relative_path df) "/" = false).
Proof.
  intros Hcwd Hsrc Hwf Hwn.
  split; [now apply calculation_thread_mirrored|].
  intros df Hdf. apply filter_In in Hdf as [Hdf _].
  pose proof (well_named_files t Hwn) as Hall.
  rewrite Forall_forall in Hall.
  specialize (Hall df (proj2 (list_elem_of_In _ _) Hdf)).
  pose proof (py_join_startswith _ Hall) as Hrel.
  split; [|exact Hrel].
  unfold mirrored_entry. f_equal. now apply join_plain.
Qed.

End with_library.

Lemma plan_mirrors_source_tree_witness :
  calculation_thread sample_env default_rules false "/proj" "/backup" sample_tree
  = CalcResult
      [("/proj/file1.txt", "/backup/file1.txt");
       ("/proj/sub/file2.txt", "/backup/sub/file2.txt");
       ("/proj/sub/node_modules", "/backup/sub/node_modules")] 3.
Proof.
  destruct (plan_mirrors_source_tree sample_env default_rules false "/proj" "/backup"
              sample_tree) as [Hplan _];
    [reflexivity | discriminate | reflexivity | reflexivity |].
  rewrite Hplan. reflexivity.
Defined.

Section with_library.
Context {U : Py.str_methods} {FS : file_system}.

(** ** No two entries of a plan share a destination *)

Lemma append_inv_head (a x y : string) : a +:+ x = a +:+ y -> x = y.
Proof. induction a as [|c a IH]; simpl; [auto|]. intros [= H]. auto. Qed.

Lemma posixpath_join_inj (a r r' : string) :
  Py.startswith r "/" = false -> Py.startswith r' "/" = false ->
  posixpath.join a r = posixpath.join a r' -> r = r'.
Proof.
  unfold posixpath.join. intros -> ->.
  destruct (_ || _); intros H; apply append_inv_head in H; [exact H|].
  now apply append_inv_head in H.
Qed.

Lemma relative_path_inj (df df' : list string * string) :
  Forall (fun n => plain_name n = true) (fst df ++ [snd df]) ->
  Forall (fun n => plain_name n = true) (fst df' ++ [snd df']) ->
  relative_path df = relative_path df' -> df = df'.
Proof.
  unfold relative_path. intros Hall Hall' Heq.
  assert (Hsep : forall names, Forall (fun n => plain_name n = true) names ->
                 Forall (fun c => Py.contains_char posixpath.sep c = false) names).
  { intros names H. eapply Forall_impl; [exact H|]. intros n Hn.
    now destruct (plain_name_spec n Hn) as (_ & ? & _). }
  assert (Hnames : fst df ++ [snd df] = fst df' ++ [snd df']).
  { rewrite <- (split_join (fst df ++ [snd df])), <- (split_join (fst df' ++ [snd df'])).
    - now rewrite Heq.
    - now destruct (fst df').
    - now apply Hsep.
    - now destruct (fst df).
    - now apply Hsep. }
  apply app_inj_tail in Hnames as [H1 H2].
  destruct df, df'; simpl in *; congruence.
Qed.

Lemma tree_files_NoDup (t : tree) :
  wf_tree t = true -> distinct_files t = true -> NoDup (tree_files t).
Proof.
  induction t as [files subdirs IH] using tree_ind'. intros Hwf Hdf.
  apply wf_tree_Dir in Hwf as [Hnd Hwf].
  simpl in Hdf. apply andb_prop in Hdf as [Hfiles Hsub].
  apply bool_decide_eq_true in Hfiles.
  rewrite forallb_forall in Hsub.
  simpl. apply NoDup_app. split; [|split].
  - apply (NoDup_fmap_2_strong (fun f : string => (@nil string, f))); [|exact Hfiles].
    intros f f' _ _ [= ?]. assumption.
  - intros df Hdf Hdf'.
    apply list_elem_of_In, in_map_iff in Hdf as (f & <- & _).
    apply list_elem_of_In, in_flat_map in Hdf' as (p & _ & Hp).
    apply in_map_iff in Hp as (df' & [=] & _).
  - clear Hfiles. induction subdirs as [|p rest IHs]; [constructor|].
    simpl. apply Forall_cons in IH as [IHp IHrest].
    apply NoDup_cons in Hnd as [Hp Hnd].
    apply NoDup_app. split; [|split].
    + apply (NoDup_fmap_2_strong
               (fun df : list string * string => (fst p :: fst df, snd df))).
      * intros [ds f] [ds' f'] _ _ [= ? ?]. simpl in *. congruence.
      * apply IHp; [apply Hwf | apply Hsub]; now left.
    + intros df Hdf Hdf'.
      apply list_elem_of_In, in_map_iff in Hdf as (d1 & <- & _).
      apply list_elem_of_In, in_flat_map in Hdf' as (q & Hq & Hdf').
      apply in_map_iff in Hdf' as (d2 & [= Hname _ _] & _).
      apply Hp. rewrite <- Hname. apply list_elem_of_In, in_map. exact Hq.
    + apply IHs; [exact IHrest|exact Hnd| |].
      * intros q Hq. apply Hwf. now right.
      * intros q Hq. apply Hsub. now right.
Qed.

(** X14: a plan sends no two files to one destination, and lists no
    source twice.  For a tree as a file system lists it (plain names, no
    name twice among the folders or among the files of a directory) the
    sources of the plan are pairwise different and so are its
    destinations, in either mode: no copy of a run overwrites what an
    earlier copy of the same run has written. *)
Theorem plan_destinations_distinct (e : env) (g : rules) (ignore_exclusions : bool)
  (source_dir actual_dest_dir : string) (t : tree) :
  posixpath.isabs (cwd e) = true -> source_dir <> "" ->
  wf_tree t = true -> well_named t = true -> distinct_files t = true ->
  exists fl n,
    calculation_thread e g ignore_exclusions source_dir actual_dest_dir t
    = CalcResult fl n
    /\ NoDup (map fst fl) /\ NoDup (map snd fl).
Proof.
  intros Hcwd Hsrc Hwf Hwn Hdf.
  rewrite (calculation_thread_mirrored e g ignore_exclusions _ _ t Hcwd Hsrc Hwf Hwn).
  eexists _, _. split; [reflexivity|].
  pose proof (well_named_files t Hwn) as Hall. rewrite Forall_forall in Hall.
  assert (Hrel : forall df, df ∈ tree_files t ->
                            Py.startswith (relative_path df) "/" = false).
  { intros df Hin. apply py_join_startswith. now apply Hall. }
  assert (Hinj : forall base df df', df ∈ tree_files t -> df' ∈ tree_files t ->
            posixpath.join base (relative_path df) = posixpath.join base (relative_path df') ->
            df = df').
  { intros base df df' Hin Hin' Heq.
    apply relative_path_inj; [now apply Hall | now apply Hall|].
    apply (posixpath_join_inj base); auto. }
  pose proof (tree_files_NoDup t Hwf Hdf) as Hnd.
  rewrite !map_map. split.
  - apply (sublist_NoDup _ (map (fun df => posixpath.join source_dir (relative_path df))
                                (tree_files t))).
    + apply (NoDup_fmap_2_strong
               (fun df => posixpath.join source_dir (relative_path df)));
        [apply Hinj | exact Hnd].
    + apply (map_filter_sublist
               (fun df => posixpath.join source_dir (relative_path df))).
  - apply (sublist_NoDup _ (map (fun df => posixpath.join actual_dest_dir (relative_path df))
                                (tree_files t))).
    + apply (NoDup_fmap_2_strong
               (fun df => posixpath.join actual_dest_dir (relative_path df)));
        [apply Hinj | exact Hnd].
    + apply (map_filter_sublist
               (fun df => posixpath.join actual_dest_dir (relative_path df))).
Qed.

End with_library.

Lemma plan_destinations_distinct_witness :
  exists fl n,
    calculation_thread sample_env default_rules true "/proj" "/backup" sample_tree
    = CalcResult fl n
    /\ NoDup (map fst fl) /\ NoDup (map snd fl).
Proof.
  apply (plan_destinations_distinct sample_env default_rules true "/proj" "/backup"
           sample_tree); [reflexivity | discriminate | reflexivity | reflexivity | reflexivity].
Defined.

Section with_library.
Context {U : Py.str_methods} {FS : file_system}.


(** ** The preview *)

Lemma preview_fold (e : env) (source_dir actual_dest_dir : string) :
  posixpath.isabs (cwd e) = true -> source_dir <> "" ->
  forall dfs acc,
    Forall (fun df => Forall (fun n => plain_name n = true) (fst df ++ [snd df])) dfs ->
    fold_left (preview_line e source_dir)
              (map (mirrored_entry source_dir actual_dest_dir) dfs) (Ok acc)
    = Ok (acc ++ map relative_path dfs).
Proof.
  intros Hcwd Hsrc. induction dfs as [|df dfs IH]; intros acc Hall; simpl.
  - now rewrite app_nil_r.
  - apply Forall_cons in Hall as [Hdf Hall].
    assert (Hne : fst df ++ [snd df] <> []) by (now destruct (fst df)).
    assert (Hpath : posixpath.join source_dir (relative_path df)
                    = posixpath.join_all source_dir (fst df ++ [snd df])).
    { unfold relative_path.
      rewrite (join_all_plain _ source_dir Hsrc Hne Hdf).
      now rewrite (join_plain source_dir _ Hsrc (py_join_startswith _ Hdf)). }
    unfold posixpath.relpath.
    rewrite (string_eqb_false _ _ (join_nonempty source_dir (relative_path df) Hsrc)).
    rewrite Hpath, (relpath_below (cwd e) source_dir _ Hcwd Hsrc Hne Hdf).
    fold (relative_path df).
    rewrite (IH _ Hall), <- app_assoc. reflexivity.
Qed.

(** X15: the preview lists the plan.  After a build from the source the
    variable holds, the lines of the preview are the paths of the planned
    files relative to the source, one line for each entry and in the
    order of the plan, and the title shows their number; joining a line
    to the source gives the entry's source, and joining it to the
    destination gives the entry's destination.  The [ValueError] branch
    of the preview is not taken, and an empty plan opens no window. *)
Theorem preview_lists_plan (e : env) (g : rules) (ignore_exclusions : bool)
  (v : vars) (actual_dest_dir : string) (t : tree) (c : calc) :
  posixpath.isabs (cwd e) = true -> source_dir_var v <> "" ->
  wf_tree t = true -> well_named t = true ->
  exists fl n lines,
    calculation_thread e g ignore_exclusions (source_dir_var v) actual_dest_dir t
    = CalcResult fl n
    /\ fl = map (fun line => (posixpath.join (source_dir_var v) line,
                             posixpath.join actual_dest_dir line)) lines
    /\ show_file_preview e v (update_calculation_result fl n c)
       = match lines with
         | [] => PreviewNothing
         | _ => PreviewWindow (length lines) (source_dir_var v) lines
         end.
Proof.
  intros Hcwd Hsrc Hwf Hwn.
  rewrite (calculation_thread_mirrored e g ignore_exclusions _ _ t Hcwd Hsrc Hwf Hwn).
  set (dfs := List.filter (reached g ignore_exclusions) (tree_files t)).
  exists (map (mirrored_entry (source_dir_var v) actual_dest_dir) dfs), (length dfs),
         (map relative_path dfs).
  split; [reflexivity|]. split; [now rewrite map_map|].
  assert (Hall : Forall (fun df => Forall (fun n => plain_name n = true)
                                          (fst df ++ [snd df])) dfs).
  { pose proof (well_named_files t Hwn) as Hfiles.
    rewrite Forall_forall in Hfiles. apply Forall_forall. intros df Hdf.
    apply Hfiles. apply list_elem_of_In. apply list_elem_of_In in Hdf.
    now apply filter_In in Hdf as [Hdf _]. }
  unfold show_file_preview, update_calculation_result. simpl.
  destruct dfs as [|df dfs]; [reflexivity|].
  rewrite (string_eqb_false _ _ Hsrc).
  change (mirrored_entry (source_dir_var v) actual_dest_dir df
          :: map (mirrored_entry (source_dir_var v) actual_dest_dir) dfs)
    with (map (mirrored_entry (source_dir_var v) actual_dest_dir) (df :: dfs)).
  rewrite (preview_fold e _ actual_dest_dir Hcwd Hsrc (df :: dfs) [] Hall).
  simpl. now rewrite length_map.
Qed.

End with_library.

Lemma preview_lists_plan_witness :
  exists fl n lines,
    calculation_thread sample_env default_rules false
      (source_dir_var (vars_of_build "/proj" "/backup")) "/backup" sample_tree
    = CalcResult fl n
    /\ fl = map (fun line => (posixpath.join (source_dir_var (vars_of_build "/proj" "/backup"))
                                             line,
                             posixpath.join "/backup" line)) lines
    /\ show_file_preview sample_env (vars_of_build "/proj" "/backup")
         (update_calculation_result fl n no_plan)
       = match lines with
         | [] => PreviewNothing
         | _ => PreviewWindow (length lines)
                  (source_dir_var (vars_of_build "/proj" "/backup")) lines
         end.
Proof.
  apply (preview_lists_plan sample_env default_rules false (vars_of_build "/proj" "/backup")
           "/backup" sample_tree no_plan);
    [reflexivity | discriminate | reflexivity | reflexivity].
Defined.

Section with_library.
Context {U : Py.str_methods} {FS : file_system}.

(** ** The buttons of the main window *)

Lemma window_ok_reset (w : window) : window_ok (Window.reset_calculation w).
Proof. repeat split; simpl; discriminate. Qed.

Lemma window_ok_handle (w : window) (ev : window_event) :
  window_ok w -> window_ok (handle w ev).
Proof.
  intros (Hcount & Hcopy & Hpreview). destruct ev; simpl.
  - apply window_ok_reset.
  - unfold Window.save_and_close. destruct (_ || _); [apply window_ok_reset|].
    repeat split; assumption.
  - repeat split; simpl; discriminate.
  - unfold Window.calculation_done.
    destruct (calculation_thread e g ignore_exclusions source_dir actual_dest_dir t)
      as [fl n|err] eqn:Hthread; [|apply window_ok_reset].
    apply calculation_thread_counted in Hthread.
    unfold Window.update_calculation_result.
    destruct (Nat.ltb 0 n) eqn:Hn.
    + apply Nat.ltb_lt in Hn. repeat split; simpl; [exact Hthread|].
      intros _ ->. simpl in Hthread. lia.
    + repeat split; simpl; [exact Hthread|discriminate|discriminate].
  - repeat split; simpl; [exact Hcount|discriminate|exact Hpreview].
  - repeat split; simpl; assumption.
  - repeat split; simpl; assumption.
  - apply window_ok_reset.
Qed.

Lemma window_ok_fold (events : list window_event) :
  forall w, window_ok w -> window_ok (fold_left handle events w).
Proof.
  induction events as [|ev events IH]; intros w Hw; [exact Hw|].
  simpl. apply IH. now apply window_ok_handle.
Qed.

(** X16: copying is offered only for a plan.  Whatever callbacks run on
    the main window and in whatever order (buttons, the rule editor, and
    what the workers schedule), the stored count is the length of the
    stored plan, the copy button is enabled only together with the
    preview button, and the preview button only while the plan is not
    empty.  The one callback that enables the copy button is the result
    of a build with at least one file; so after a copy has started the
    button stays disabled, with the plan still stored, until a new build
    has ended. *)
Theorem copy_offered_only_for_plan (events : list window_event) :
  window_ok (fold_left handle events initial_window)
  /\ (forall w ev,
        copy_button w = DISABLED -> copy_button (handle w ev) = NORMAL ->
        exists e g ignore_exclusions source_dir actual_dest_dir t fl n,
          ev = CalculationEnded e g ignore_exclusions source_dir actual_dest_dir t
          /\ calculation_thread e g ignore_exclusions source_dir actual_dest_dir t
             = CalcResult fl n
          /\ 0 < n /\ plan (handle w ev) = update_calculation_result fl n (plan w))
  /\ (forall w progress,
        let w' := fold_left handle
                    (CopyingStarted :: progress ++ [CompletionShown]) w in
        Forall (fun ev => exists c n, ev = ProgressShown c n) progress ->
        copy_button w' = DISABLED /\ plan w' = plan w
        /\ calculate_button w' = NORMAL
        /\ progress_value w' = total_files_count (plan w)).
Proof.
  split; [|split].
  - apply window_ok_fold, window_ok_reset.
  - intros w ev Hoff Hon. destruct ev; simpl in Hon; try discriminate.
    + unfold Window.save_and_close in Hon. destruct (_ || _); [discriminate|congruence].
    + unfold Window.calculation_done in *. simpl.
      destruct (calculation_thread e g ignore_exclusions source_dir actual_dest_dir t)
        as [fl n|err] eqn:Hthread; [|discriminate].
      unfold Window.calculation_done, Window.update_calculation_result in *.
      destruct (Nat.ltb 0 n) eqn:Hn; [|discriminate].
      apply Nat.ltb_lt in Hn.
      exists e, g, ignore_exclusions, source_dir, actual_dest_dir, t, fl, n.
      split; [reflexivity|]. split; [exact Hthread|]. split; [exact Hn|].
      reflexivity.
    + congruence.
    + congruence.
  - intros w progress w' Hprogress. subst w'. simpl fold_left.
    rewrite fold_left_app. simpl.
    assert (Hkeep : forall w0,
              copy_button (fold_left handle progress w0) = copy_button w0
              /\ plan (fold_left handle progress w0) = plan w0).
    { induction Hprogress as [|ev progress (c & n & ->) _ IH]; intros w0; [auto|].
      simpl. destruct (IH (Window.update_progress c n w0)) as [-> ->]. auto. }
    destruct (Hkeep (Window.start_copying w)) as [Hc Hp].
    rewrite Hc, Hp. auto.
Qed.

End with_library.

Lemma copy_offered_only_for_plan_witness :
  window_ok
    (fold_left handle
       [CalculationStarted selective;
        CalculationEnded sample_env default_rules false "/proj" "/backup" sample_tree;
        CopyingStarted; ProgressShown 3 3; CompletionShown] initial_window)
  /\ copy_button
       (fold_left handle [CopyingStarted; ProgressShown 3 3; CompletionShown]
          (handle initial_window
             (CalculationEnded sample_env default_rules false "/proj" "/backup"
                sample_tree)))
     = DISABLED.
Proof.
  split.
  - destruct (copy_offered_only_for_plan
                [CalculationStarted selective;
                 CalculationEnded sample_env default_rules false "/proj" "/backup"
                   sample_tree;
                 CopyingStarted; ProgressShown 3 3; CompletionShown]) as [Hok _].
    exact Hok.
  - destruct (copy_offered_only_for_plan []) as (_ & _ & Hcopy).
    destruct (Hcopy (handle initial_window
                       (CalculationEnded sample_env default_rules false "/proj" "/backup"
                          sample_tree))
                    [ProgressShown 3 3]) as [Hoff _].
    + repeat constructor. now exists 3, 3.
    + exact Hoff.
Defined.

